(** * The profiling core of repo-profiler (api/profiler.py)

    A shallow embedding of the six functions of [api/profiler.py] and of the
    Python operations they call, followed by the properties proved of them.

    Conventions of the embedding.
    - A Python [str] is a [string]; one [ascii] stands for one code point
      below 256.
    - A Python [int] is a [Z]. A Python [float] is a binary64 number
      ([pyfloat]): every operation rounds its exact result to the nearest
      one, overflows to an infinity or, where Python does so, raises
      [OverflowError].
    - A value of type [Any] (what [response.json()] or [json.loads] yields) is
      a [json] tree.
    - A call that may raise returns a [result]; [Raise e] aborts the rest of
      the function, as an uncaught exception does.
    - [json.loads], [datetime.fromisoformat] and the clock are library code:
      the functions take them as parameters ([json_loads], [fromisoformat],
      [now]); [json_loads_ref] and [iso_basic] are executable instances used
      for the concrete runs. *)

From Stdlib Require Import List Bool Ascii String ZArith QArith Qround Qabs.
From Stdlib Require Import Qpower DecimalString Lia Lqa Permutation.
Import ListNotations.

Local Open Scope string_scope.
Local Open Scope Z_scope.
Local Open Scope list_scope.

(** ** Exceptions and the error monad *)

Inductive exn : Set :=
| KeyError | ValueError | TypeError | AttributeError
| ZeroDivisionError | OverflowError | RecursionError
| JSONDecodeError | ValidationError.


Inductive result (A : Type) : Type :=
| Ok (a : A)
| Raise (e : exn).
Arguments Ok {A} a.
Arguments Raise {A} e.

Definition bind {A B : Type} (m : result A) (k : A -> result B) : result B :=
  match m with
  | Ok a => k a
  | Raise e => Raise e
  end.

Notation "x <- m ;; k" := (bind m (fun x => k))
  (at level 61, m at next level, right associativity).

(** [for x in xs: acc = body(acc, x)], stopping at the first exception. *)
Fixpoint for_each {A S : Type} (body : S -> A -> result S) (xs : list A) (acc : S)
  : result S :=
  match xs with
  | [] => Ok acc
  | x :: xs' => acc' <- body acc x ;; for_each body xs' acc'
  end.

(** ** Characters and strings *)

Definition code (c : ascii) : N := N_of_ascii c.

Definition between (lo hi : N) (c : ascii) : bool :=
  ((lo <=? code c) && (code c <=? hi))%N.

(** [str.isspace] on one character, as [str.strip()] uses it. *)
Definition is_space (c : ascii) : bool :=
  between 9 13 c || between 28 32 c || (code c =? 133)%N || (code c =? 160)%N.

Definition is_ascii_digit (c : ascii) : bool := between 48 57 c.
Definition is_ascii_upper (c : ascii) : bool := between 65 90 c.
Definition is_ascii_lower (c : ascii) : bool := between 97 122 c.

(** [str.isalnum] on one character: letters and numeric characters. *)
Definition is_alnum (c : ascii) : bool :=
  is_ascii_digit c || is_ascii_upper c || is_ascii_lower c
  || (code c =? 170)%N || (code c =? 178)%N || (code c =? 179)%N
  || (code c =? 181)%N || (code c =? 185)%N || (code c =? 186)%N
  || between 188 190 c || between 192 214 c || between 216 246 c
  || between 248 255 c.

(** The regular-expression class [\w]. *)
Definition is_word (c : ascii) : bool := is_alnum c || (c =? "_")%char.

(** [[\w\-]], [[=~>]] and [[\w\.]], the three classes of the pattern. *)
Definition is_name_char (c : ascii) : bool := is_word c || (c =? "-")%char.
Definition is_op_char (c : ascii) : bool :=
  (c =? "=")%char || (c =? "~")%char || (c =? ">")%char.
Definition is_version_char (c : ascii) : bool := is_word c || (c =? ".")%char.

Definition newline : ascii := "010"%char.

Fixpoint str_forallb (p : ascii -> bool) (s : string) : bool :=
  match s with
  | EmptyString => true
  | String c r => p c && str_forallb p r
  end.

(** The longest prefix whose characters satisfy [p], and what follows it. *)
Fixpoint span (p : ascii -> bool) (s : string) : string * string :=
  match s with
  | EmptyString => (EmptyString, EmptyString)
  | String c r =>
      if p c then let (a, b) := span p r in (String c a, b)
      else (EmptyString, s)
  end.

(** [s.split('\n')] *)
Fixpoint split_lines (s : string) : list string :=
  match s with
  | EmptyString => [EmptyString]
  | String c r =>
      if (c =? newline)%char then EmptyString :: split_lines r
      else match split_lines r with
           | l :: ls => String c l :: ls
           | [] => [String c EmptyString]
           end
  end.

Fixpoint lstrip (s : string) : string :=
  match s with
  | EmptyString => EmptyString
  | String c r => if is_space c then lstrip r else s
  end.

Fixpoint rstrip (s : string) : string :=
  match s with
  | EmptyString => EmptyString
  | String c r =>
      match rstrip r with
      | EmptyString => if is_space c then EmptyString else String c EmptyString
      | r' => String c r'
      end
  end.

(** [s.strip()] *)
Definition strip (s : string) : string := rstrip (lstrip s).

(** [s.startswith('#')] *)
Definition startswith_hash (s : string) : bool :=
  match s with
  | String c _ => (c =? "#")%char
  | EmptyString => false
  end.

Definition is_empty (s : string) : bool :=
  match s with EmptyString => true | _ => false end.

(** [s.replace('Z', '')] *)
Fixpoint remove_Z (s : string) : string :=
  match s with
  | EmptyString => EmptyString
  | String c r => if (c =? "Z")%char then remove_Z r else String c (remove_Z r)
  end.

(** [s.lower()]; on code points below 256 only the capitals matter for the
    search of ["bug"], the others never become [b], [u] or [g]. *)
Definition lower_char (c : ascii) : ascii :=
  if is_ascii_upper c then ascii_of_N (code c + 32) else c.

Fixpoint lower (s : string) : string :=
  match s with
  | EmptyString => EmptyString
  | String c r => String (lower_char c) (lower r)
  end.

(** [sub in s] *)
Fixpoint contains (sub s : string) : bool :=
  prefix sub s ||
  match s with
  | EmptyString => false
  | String _ r => contains sub r
  end.

(** ** Floats

    A Python [float] is a binary64 number: [Finite q] for the number of
    exact value [q], the two infinities, and NaN. The two zeros, which no
    operation of the profiler tells apart, are one value. An arithmetic
    operation returns its exact result rounded to the nearest binary64
    number, ties to the even significand ([rnd64]), and an infinity when
    that rounding is beyond the largest finite number. *)

Definition Qltb (x y : Q) : bool := negb (Qle_bool y x).

(** The nearest integer, ties to the even one. *)
Definition round_half_even (q : Q) : Z :=
  let f := Qfloor q in
  match (q - inject_Z f ?= 1 # 2)%Q with
  | Lt => f
  | Gt => f + 1
  | Eq => if Z.even f then f else f + 1
  end.

Definition pow2 (e : Z) : Q := Qpower 2 e.
Arguments pow2 : simpl never.

(** The exponent [e] with [2 ^ e <= |x| < 2 ^ (e + 1)], for [x] other
    than 0. *)
Definition ilog2 (x : Q) : Z :=
  let n := Z.abs (Qnum x) in
  let d := Zpos (Qden x) in
  let l := Z.log2 n - Z.log2 d in
  if n * 2 ^ Z.max 0 (- l) <? d * 2 ^ Z.max 0 l then l - 1 else l.

(** The exponent of the spacing of the binary64 numbers around [x]: 52 bits
    below the leading one, and not below the spacing of the subnormals. *)
Definition ulp_exp (x : Q) : Z := Z.max (ilog2 x - 52) (-1074).

(** Rounding to the nearest multiple of the spacing, ties to even. *)
Definition rnd64 (x : Q) : Q :=
  if Qeq_bool x 0 then 0%Q
  else Qred (inject_Z (round_half_even (x / pow2 (ulp_exp x))) * pow2 (ulp_exp x)).

Inductive pyfloat : Set :=
| Finite (q : Q)
| Infinity (negative : bool)
| NaN.

(** The rounding of [x] is beyond the largest finite number. *)
Definition overflows (x : Q) : bool := Qle_bool (pow2 1024) (Qabs (rnd64 x)).

(** The float an exact result becomes. *)
Definition to_float (x : Q) : pyfloat :=
  if overflows x then Infinity (Qltb x 0) else Finite (rnd64 x).

Arguments rnd64 : simpl never.
Arguments overflows : simpl never.
Arguments to_float : simpl never.

Definition float_add (a b : pyfloat) : pyfloat :=
  match a, b with
  | NaN, _ | _, NaN => NaN
  | Finite x, Finite y => to_float (x + y)
  | Finite _, Infinity t => Infinity t
  | Infinity s, Finite _ => Infinity s
  | Infinity s, Infinity t => if Bool.eqb s t then Infinity s else NaN
  end.

Definition float_sub (a b : pyfloat) : pyfloat :=
  match a, b with
  | NaN, _ | _, NaN => NaN
  | Finite x, Finite y => to_float (x - y)
  | Finite _, Infinity t => Infinity (negb t)
  | Infinity s, Finite _ => Infinity s
  | Infinity s, Infinity t => if Bool.eqb s t then NaN else Infinity s
  end.

Definition float_mul (a b : pyfloat) : pyfloat :=
  match a, b with
  | NaN, _ | _, NaN => NaN
  | Finite x, Finite y => to_float (x * y)
  | Finite x, Infinity s | Infinity s, Finite x =>
      if Qeq_bool x 0 then NaN else Infinity (xorb s (Qltb x 0))
  | Infinity s, Infinity t => Infinity (xorb s t)
  end.

(** [a < b] on floats: false as soon as one of them is NaN. *)
Definition float_lt (a b : pyfloat) : bool :=
  match a, b with
  | NaN, _ | _, NaN => false
  | Finite x, Finite y => Qltb x y
  | Finite _, Infinity t => negb t
  | Infinity s, Finite _ => s
  | Infinity s, Infinity t => s && negb t
  end.

Definition float_le (a b : pyfloat) : bool :=
  match a, b with
  | NaN, _ | _, NaN => false
  | Finite x, Finite y => Qle_bool x y
  | Finite _, Infinity t => negb t
  | Infinity s, Finite _ => s
  | Infinity s, Infinity t => s || negb t
  end.

(** [float(z)], the conversion [+], [-], [*], [/] and [<] apply to an int
    operand beside a float one. *)
Definition float_of_int (z : Z) : result pyfloat :=
  match to_float (inject_Z z) with
  | Infinity _ => Raise OverflowError
  | x => Ok x
  end.

(** [a / b] on two ints: the quotient, rounded once. *)
Definition true_div (a b : Z) : result pyfloat :=
  if b =? 0 then Raise ZeroDivisionError
  else match to_float (inject_Z a / inject_Z b) with
       | Infinity _ => Raise OverflowError
       | x => Ok x
       end.

(** [a / b] on two floats. *)
Definition float_div (a b : pyfloat) : result pyfloat :=
  match a, b with
  | NaN, Finite y => if Qeq_bool y 0 then Raise ZeroDivisionError else Ok NaN
  | NaN, _ | _, NaN => Ok NaN
  | Finite x, Finite y =>
      if Qeq_bool y 0 then Raise ZeroDivisionError else Ok (to_float (x / y))
  | Finite _, Infinity _ => Ok (Finite 0)
  | Infinity s, Finite y =>
      if Qeq_bool y 0 then Raise ZeroDivisionError
      else Ok (Infinity (xorb s (Qltb y 0)))
  | Infinity _, Infinity _ => Ok NaN
  end.

(** [round(x, 2)] on a float: the decimal with two places nearest to the
    exact value of [x], ties to the even one, as a float; an infinity and
    NaN are returned as they are. *)
Definition py_round2 (x : pyfloat) : pyfloat :=
  match x with
  | Finite q => to_float (round_half_even (q * 100) # 100)
  | _ => x
  end.

(** [max(0.0, x)]: the second argument is returned only when it is greater. *)
Definition py_max0 (x : pyfloat) : pyfloat :=
  if float_lt (Finite 0) x then x else Finite 0.

(** A number: an int or a float. *)
Inductive pynum : Set :=
| NInt (z : Z)
| NFloat (x : pyfloat).

(** [a + b] *)
Definition num_add (a b : pynum) : result pynum :=
  match a, b with
  | NInt x, NInt y => Ok (NInt (x + y))
  | NInt x, NFloat y => x' <- float_of_int x ;; Ok (NFloat (float_add x' y))
  | NFloat x, NInt y => y' <- float_of_int y ;; Ok (NFloat (float_add x y'))
  | NFloat x, NFloat y => Ok (NFloat (float_add x y))
  end.

(** [a / b] with an int [b] *)
Definition num_div (a : pynum) (b : Z) : result pyfloat :=
  match a with
  | NInt x => true_div x b
  | NFloat x => y <- float_of_int b ;; float_div x y
  end.

(** [a < b] with an int [b]: the comparison is exact. *)
Definition num_lt (a : pynum) (b : Z) : bool :=
  match a with
  | NInt x => x <? b
  | NFloat x => float_lt x (Finite (inject_Z b))
  end.

(** [round(a, 2)]: an int is its own rounding. *)
Definition num_round2 (a : pynum) : pynum :=
  match a with
  | NInt x => NInt x
  | NFloat x => NFloat (py_round2 x)
  end.

(** ** models.py *)

Record Dependency : Set := mkDependency { name : string; version : string }.

Record DependencyAnalysis : Set :=
  mkDependencyAnalysis { file : string; dependencies : list Dependency }.

Record Contributor : Set := mkContributor { username : string; commits : Z }.

Record ActivityTrends : Set := mkActivityTrends {
  commits_per_week_avg : pyfloat;
  new_issues : Z;
  closed_issues : Z }.

Record IssueHealth : Set := mkIssueHealth {
  open_issues : Z;
  stale_issues : Z;
  bug_issues : Z }.

(** ** parse_requirements_txt *)

(** [[\w\.]+] at the head of [s]: the second group. *)
Definition match_version (s : string) : option string :=
  match fst (span is_version_char s) with
  | EmptyString => None
  | v => Some v
  end.

(** [(?:[=~>]{1,2}([\w\.]+))?] at the head of [rest]: the greedy repetition
    takes two operator characters when it can and falls back to one when no
    version follows the second; when the group fails it is skipped and the
    second group stays unset. *)
Definition match_suffix (rest : string) : option string :=
  match rest with
  | String c1 r1 =>
      if is_op_char c1 then
        match r1 with
        | String c2 r2 =>
            if is_op_char c2 then
              match match_version r2 with
              | Some v => Some v
              | None => match_version r1
              end
            else match_version r1
        | EmptyString => match_version r1
        end
      else None
  | EmptyString => None
  end.

(** [re.match(r'^([\w\-]+)(?:[=~>]{1,2}([\w\.]+))?', line)] followed by
    [match.groups()]: [None] when the line does not start with a name. *)
Definition re_match (line : string) : option (string * option string) :=
  let (nm, rest) := span is_name_char line in
  match nm with
  | EmptyString => None
  | _ => Some (nm, match_suffix rest)
  end.

(** The body of the loop over the lines. *)
Definition requirement_step (deps : list Dependency) (line : string)
  : list Dependency :=
  let line := strip line in
  if is_empty line || startswith_hash line then deps
  else match re_match line with
       | Some (nm, ver) =>
           deps ++ [mkDependency nm
                      (match ver with
                       | Some (String c v) => String c v
                       | _ => "latest"
                       end)]
       | None => deps
       end.

Definition parse_requirements_txt (file_content : string) : list Dependency :=
  fold_left requirement_step (split_lines file_content) [].


(** ** Values of type [Any] *)

Local Unset Elimination Schemes.

Inductive json : Type :=
| JNull
| JBool (b : bool)
| JInt (z : Z)
| JFloat (x : pyfloat)
| JStr (s : string)
| JArr (l : list json)
| JObj (l : list (string * json)).

Local Set Elimination Schemes.

(** ** Python dicts

    A dict is written as the sequence of its insertions: a later binding of a
    key overwrites the value and keeps the place of the first one.
    [dict_items] is the dict in iteration order, with one entry per key. *)

Section Dict.
Context {V : Type}.

Fixpoint dict_set (d : list (string * V)) (k : string) (v : V)
  : list (string * V) :=
  match d with
  | [] => [(k, v)]
  | (k', v') :: d' =>
      if (k' =? k)%string then (k', v) :: d' else (k', v') :: dict_set d' k v
  end.

Definition dict_update (d extra : list (string * V)) : list (string * V) :=
  fold_left (fun acc kv => dict_set acc (fst kv) (snd kv)) extra d.

Definition dict_items (d : list (string * V)) : list (string * V) :=
  dict_update [] d.

Fixpoint assoc (k : string) (d : list (string * V)) : option V :=
  match d with
  | [] => None
  | (k', v) :: d' => if (k' =? k)%string then Some v else assoc k d'
  end.

(** [d.get(k)], [None] of Rocq standing for a missing key. *)
Definition dict_get (d : list (string * V)) (k : string) : option V :=
  assoc k (dict_items d).

(** [k in d] *)
Definition dict_mem (d : list (string * V)) (k : string) : bool :=
  match dict_get d k with Some _ => true | None => false end.

(** [d[k]] *)
Definition getitem (d : list (string * V)) (k : string) : result V :=
  match dict_get d k with
  | Some v => Ok v
  | None => Raise KeyError
  end.

(** [d.get(k, default)] *)
Definition get_default (d : list (string * V)) (k : string) (default : V) : V :=
  match dict_get d k with
  | Some v => v
  | None => default
  end.
End Dict.

Definition pydict : Type := list (string * json).

(** ** Operations on [Any] values *)

(** [bool(x)] *)
Definition truthy (x : json) : bool :=
  match x with
  | JNull => false
  | JBool b => b
  | JInt z => negb (z =? 0)
  | JFloat (Finite q) => negb (Qeq_bool q 0)
  | JFloat _ => true
  | JStr s => negb (is_empty s)
  | JArr l => match l with [] => false | _ => true end
  | JObj d => match d with [] => false | _ => true end
  end.

(** [x.get(k, default)]: only a dict has the method. *)
Definition attr_get (x : json) (k : string) (default : json) : result json :=
  match x with
  | JObj d => Ok (get_default d k default)
  | _ => Raise AttributeError
  end.

(** [x[k]] with a string key. *)
Definition subscript (x : json) (k : string) : result json :=
  match x with
  | JObj d => getitem d k
  | _ => Raise TypeError
  end.

(** [x.replace('Z', '')]: only a str has the method. *)
Definition replace_Z (x : json) : result string :=
  match x with
  | JStr s => Ok (remove_Z s)
  | _ => Raise AttributeError
  end.

(** [x.lower()] *)
Definition attr_lower (x : json) : result string :=
  match x with
  | JStr s => Ok (lower s)
  | _ => Raise AttributeError
  end.

Fixpoint chars (s : string) : list json :=
  match s with
  | EmptyString => []
  | String c r => JStr (String c EmptyString) :: chars r
  end.

(** [iter(x)]: a list yields its elements, a dict its keys, a str its
    characters; nothing else is iterable. *)
Definition iterate (x : json) : result (list json) :=
  match x with
  | JArr l => Ok l
  | JObj d => Ok (map (fun kv => JStr (fst kv)) (dict_items d))
  | JStr s => Ok (chars s)
  | _ => Raise TypeError
  end.

(** The operand of [+] or [<] against a number: a bool counts as the int 1
    or 0, and nothing but a number is accepted. *)
Definition number (x : json) : result pynum :=
  match x with
  | JInt z => Ok (NInt z)
  | JFloat y => Ok (NFloat y)
  | JBool b => Ok (NInt (if b then 1 else 0))
  | _ => Raise TypeError
  end.

(** [{**a, **b}]: a new dict receiving the items of [a], then those of [b]. *)
Definition dict_unpack2 (a b : json) : result pydict :=
  match a with
  | JObj da =>
      match b with
      | JObj db => Ok (dict_update (dict_items da) (dict_items db))
      | _ => Raise TypeError
      end
  | _ => Raise TypeError
  end.

(** ** Numbers as text and text as numbers *)

(** The most digits [int] and [str] convert between an int and a text. *)
Definition max_str_digits : nat := 4300.

Definition digit_value (c : ascii) : Z := Z.of_N (code c) - 48.

(** [str(z)] *)
Definition str_of_int (z : Z) : string := NilZero.string_of_int (Z.to_int z).

Definition pow10 (e : Z) : Q := Qpower 10 e.

(** The exponent [e] with [10 ^ e <= a < 10 ^ (e + 1)], for a positive [a],
    from an estimate at most [fuel] away. *)
Fixpoint adjust_log10 (fuel : nat) (a : Q) (e : Z) : Z :=
  match fuel with
  | O => e
  | S fuel =>
      if Qle_bool (pow10 (e + 1)) a then adjust_log10 fuel a (e + 1)
      else if Qltb a (pow10 e) then adjust_log10 fuel a (e - 1)
      else e
  end.

Definition ilog10 (a : Q) : Z := adjust_log10 4 a (ilog2 a * 30103 / 100000).

Fixpoint rstrip_zeros (s : string) : string :=
  match s with
  | EmptyString => EmptyString
  | String c r =>
      match rstrip_zeros r with
      | EmptyString => if (c =? "0")%char then EmptyString else String c EmptyString
      | r' => String c r'
      end
  end.

(** The decimal of [n] significant digits nearest to [a] among those that
    round to the float [a], if there is one: its digits without trailing
    zeros and the exponent of its first digit. *)
Definition round_trip (a : Q) (e10 : Z) (n : Z) : option (string * Z) :=
  let scale := pow10 (e10 - n + 1) in
  let t := (a / scale)%Q in
  let lo := Qfloor t in
  let back (m : Z) := Qeq_bool (rnd64 (inject_Z m * scale)) a in
  let pick (m : Z) :=
    let digits := str_of_int m in
    if (Z.of_nat (String.length digits) >? n)
    then Some (rstrip_zeros (substring 0 (Z.to_nat n) digits), e10 + 1)
    else Some (rstrip_zeros digits, e10) in
  if Qeq_bool t (inject_Z lo) then (if back lo then pick lo else None)
  else
    match back lo, back (lo + 1) with
    | true, true =>
        match (t - inject_Z lo ?= 1 # 2)%Q with
        | Lt => pick lo
        | Gt => pick (lo + 1)
        | Eq => if Z.even lo then pick lo else pick (lo + 1)
        end
    | true, false => pick lo
    | false, true => pick (lo + 1)
    | false, false => None
    end.

(** The shortest such decimal: at most 17 digits are needed. *)
Fixpoint shortest_decimal (fuel : nat) (a : Q) (e10 : Z) (n : Z) : string * Z :=
  match fuel with
  | O => ("0"%string, 0)
  | S fuel =>
      match round_trip a e10 n with
      | Some r => r
      | None => shortest_decimal fuel a e10 (n + 1)
      end
  end.

Fixpoint zeros (n : nat) : string :=
  match n with
  | O => EmptyString
  | S k => String "0" (zeros k)
  end.

(** [repr(x)] of a float, which is also [str(x)]: the shortest decimal that
    reads back as [x], in positional notation when its decimal point is
    within 16 digits after the first and 4 zeros before it, else with an
    exponent. *)
Definition float_repr (x : pyfloat) : string :=
  match x with
  | NaN => "nan"
  | Infinity negative => if negative then "-inf" else "inf"
  | Finite q =>
      if Qeq_bool q 0 then "0.0"
      else
        let sign := if Qltb q 0 then "-"%string else EmptyString in
        let a := Qabs q in
        let (digits, e) := shortest_decimal 17 a (ilog10 a) 1 in
        let n := Z.of_nat (String.length digits) in
        let decpt := e + 1 in
        let body :=
          if (decpt <=? -4) || (decpt >? 16) then
            let mantissa :=
              match digits with
              | String d EmptyString => String d EmptyString
              | String d r => String d (String "." r)
              | EmptyString => EmptyString
              end in
            let ex := decpt - 1 in
            let exs := str_of_int (Z.abs ex) in
            let esign := if ex <? 0 then "-"%string else "+"%string in
            let pad := if Z.abs ex <? 10 then "0"%string else EmptyString in
            (mantissa ++ "e" ++ esign ++ pad ++ exs)%string
          else if decpt <=? 0 then
            ("0." ++ zeros (Z.to_nat (- decpt)) ++ digits)%string
          else if decpt >=? n then
            (digits ++ zeros (Z.to_nat (decpt - n)) ++ ".0")%string
          else
            (substring 0 (Z.to_nat decpt) digits ++ "."
               ++ substring (Z.to_nat decpt) (Z.to_nat (n - decpt)) digits)%string in
        (sign ++ body)%string
  end.

(** The white space [int] skips around the digits. *)
Definition is_int_space (c : ascii) : bool :=
  between 9 13 c || (code c =? 32)%N || (code c =? 133)%N || (code c =? 160)%N.

(** Digits with single underscores between them. *)
Fixpoint read_digits (acc : Z) (after_digit : bool) (s : string) : option Z :=
  match s with
  | EmptyString => if after_digit then Some acc else None
  | String c r =>
      if is_ascii_digit c then read_digits (10 * acc + digit_value c) true r
      else if (c =? "_")%char && after_digit then read_digits acc false r
      else None
  end.

Fixpoint count_digits (s : string) : nat :=
  match s with
  | EmptyString => O
  | String c r => if is_ascii_digit c then S (count_digits r) else count_digits r
  end.

(** [int(s)] on a text, [None] standing for [ValueError]. *)
Definition int_of_str (s : string) : option Z :=
  let body := fst (span (fun c => negb (is_int_space c)) (snd (span is_int_space s))) in
  let rest := snd (span (fun c => negb (is_int_space c)) (snd (span is_int_space s))) in
  if negb (str_forallb is_int_space rest) then None
  else
    let (sign, ds) :=
      match body with
      | String "-" r => (-1, r)
      | String "+" r => (1, r)
      | _ => (1, body)
      end in
    if (max_str_digits <? count_digits ds)%nat then None
    else
      match read_digits 0 false ds with
      | Some n => Some (sign * n)
      | None => None
      end.

(** [int(x)] on a float: towards 0. *)
Definition int_of_float (x : pyfloat) : option Z :=
  match x with
  | Finite q => Some (Z.quot (Qnum q) (Zpos (Qden q)))
  | _ => None
  end.

(** Validation of a [str] field and of an [int] field of a model, as
    pydantic 1.10 does it: a number is accepted for a [str] and becomes its
    text; a bool, a float and the text of an int are accepted for an [int],
    the float losing its decimals. *)
Definition pydantic_str (x : json) : result string :=
  match x with
  | JStr s => Ok s
  | JBool b => Ok (if b then "True" else "False")
  | JInt z =>
      if (max_str_digits <? String.length (str_of_int (Z.abs z)))%nat
      then Raise ValidationError
      else Ok (str_of_int z)
  | JFloat y => Ok (float_repr y)
  | _ => Raise ValidationError
  end.

Definition pydantic_int (x : json) : result Z :=
  match x with
  | JInt z => Ok z
  | JBool b => Ok (if b then 1 else 0)
  | JFloat y =>
      match int_of_float y with
      | Some z => Ok z
      | None => Raise ValidationError
      end
  | JStr s =>
      if (max_str_digits <? String.length s)%nat then Raise ValidationError
      else
        match int_of_str s with
        | Some z => Ok z
        | None => Raise ValidationError
        end
  | _ => Raise ValidationError
  end.

(** Validation of a [float] field given a number: an int is converted. *)
Definition pydantic_float (x : pynum) : result pyfloat :=
  match x with
  | NInt z => float_of_int z
  | NFloat y => Ok y
  end.

(** ** Dates *)

(** A [datetime] in microseconds since 0001-01-01T00:00:00, without or with
    a time zone. *)
Inductive datetime : Set :=
| Naive (t : Z)
| Aware (t : Z).

(** [timedelta(days=n)] *)
Definition days (n : Z) : Z := n * 86400000000.

(** [d < t] and [d > t] against a naive [t]: an aware [d] cannot be
    compared with it. *)
Definition naive_lt (d : datetime) (t : Z) : result bool :=
  match d with
  | Naive x => Ok (x <? t)
  | Aware _ => Raise TypeError
  end.

Definition naive_gt (d : datetime) (t : Z) : result bool :=
  match d with
  | Naive x => Ok (x >? t)
  | Aware _ => Raise TypeError
  end.

Section Profiler.

(** [json.loads]: it returns the decoded value or raises, [JSONDecodeError]
    on a text it cannot decode. *)
Variable json_loads : string -> result json.

(** [datetime.fromisoformat]: [None] stands for [ValueError]. *)
Variable fromisoformat : string -> option datetime.

Definition parse_iso (s : string) : result datetime :=
  match fromisoformat s with
  | Some d => Ok d
  | None => Raise ValueError
  end.

(** [datetime.fromisoformat(x.replace('Z', ''))] *)
Definition timestamp (x : json) : result datetime :=
  s <- replace_Z x ;; parse_iso s.

(** *** parse_package_json *)

Definition package_step (dependencies : list Dependency) (kv : string * json)
  : result (list Dependency) :=
  v <- pydantic_str (snd kv) ;;
  Ok (dependencies ++ [mkDependency (fst kv) v]).

Definition parse_package_json (file_content : string)
  : result (list Dependency) :=
  match json_loads file_content with
  | Raise JSONDecodeError => Ok []
  | Raise e => Raise e
  | Ok data =>
      deps <- attr_get data "dependencies" (JObj []) ;;
      dev_deps <- attr_get data "devDependencies" (JObj []) ;;
      all_deps <- dict_unpack2 deps dev_deps ;;
      for_each package_step all_deps []
  end.

(** *** analyze_dependencies *)

Definition report (reports : list DependencyAnalysis) (f : string)
  (deps : list Dependency) : list DependencyAnalysis :=
  match deps with
  | [] => reports
  | _ => reports ++ [mkDependencyAnalysis f deps]
  end.

Definition analyze_dependencies (file_contents : list (string * string))
  : result (list DependencyAnalysis) :=
  let dependency_reports := [] in
  let dependency_reports :=
    match dict_get file_contents "requirements.txt" with
    | Some content =>
        report dependency_reports "requirements.txt"
          (parse_requirements_txt content)
    | None => dependency_reports
    end in
  match dict_get file_contents "package.json" with
  | Some content =>
      deps <- parse_package_json content ;;
      Ok (report dependency_reports "package.json" deps)
  | None => Ok dependency_reports
  end.

(** *** calculate_activity_trends *)

Definition commit_step (total_commits : pynum) (week : pydict)
  : result pynum :=
  t <- getitem week "total" ;;
  n <- number t ;;
  num_add total_commits n.

Definition average_commits (commit_activity : list pydict) : result pynum :=
  match commit_activity with
  | [] => Ok (NInt 0)
  | _ =>
      total_commits <- for_each commit_step commit_activity (NInt 0) ;;
      avg_commits <- num_div total_commits 52 ;;
      Ok (NFloat avg_commits)
  end.

Definition trend_step (thirty_days_ago : Z) (counts : Z * Z) (issue : pydict)
  : result (Z * Z) :=
  let (new_issues_count, closed_issues_count) := counts in
  c <- getitem issue "created_at" ;;
  created_at <- timestamp c ;;
  is_new <- naive_gt created_at thirty_days_ago ;;
  let new_issues_count :=
    if is_new then new_issues_count + 1 else new_issues_count in
  cl <- getitem issue "closed_at" ;;
  if truthy cl then
    closed_at <- timestamp cl ;;
    is_closed <- naive_gt closed_at thirty_days_ago ;;
    Ok (new_issues_count,
        if is_closed then closed_issues_count + 1 else closed_issues_count)
  else Ok (new_issues_count, closed_issues_count).

Definition calculate_activity_trends (now : Z)
  (commit_activity : list pydict) (issues_list : list pydict)
  : result ActivityTrends :=
  avg_commits <- average_commits commit_activity ;;
  let thirty_days_ago := now - days 30 in
  counts <- for_each (trend_step thirty_days_ago) issues_list (0, 0) ;;
  commits_per_week_avg <- pydantic_float (num_round2 avg_commits) ;;
  Ok (mkActivityTrends commits_per_week_avg (fst counts) (snd counts)).

(** *** analyze_issue_health *)

(** The loop over the labels of one issue: [true] when it reached [break]. *)
Fixpoint has_bug_label (labels : list json) : result bool :=
  match labels with
  | [] => Ok false
  | label :: rest =>
      n <- subscript label "name" ;;
      l <- attr_lower n ;;
      if contains "bug" l then Ok true else has_bug_label rest
  end.

Definition is_open (st : json) : bool :=
  match st with
  | JStr s => (s =? "open")%string
  | _ => false
  end.

Definition health_step (ninety_days_ago : Z) (h : IssueHealth) (issue : pydict)
  : result IssueHealth :=
  st <- getitem issue "state" ;;
  if is_open st then
    let total_open_issues := open_issues h + 1 in
    u <- getitem issue "updated_at" ;;
    updated_at <- timestamp u ;;
    is_stale <- naive_lt updated_at ninety_days_ago ;;
    let stale_issues_count :=
      if is_stale then stale_issues h + 1 else stale_issues h in
    ls <- getitem issue "labels" ;;
    labels <- iterate ls ;;
    is_bug <- has_bug_label labels ;;
    Ok (mkIssueHealth total_open_issues stale_issues_count
          (if is_bug then bug_issues h + 1 else bug_issues h))
  else Ok h.

Definition analyze_issue_health (now : Z) (issues_list : list pydict)
  : result IssueHealth :=
  let ninety_days_ago := now - days 90 in
  for_each (health_step ninety_days_ago) issues_list (mkIssueHealth 0 0 0).

(** *** format_contributors *)

Definition contributor_step (contributors : list Contributor) (contrib : pydict)
  : result (list Contributor) :=
  l <- getitem contrib "login" ;;
  c <- getitem contrib "contributions" ;;
  u <- pydantic_str l ;;
  n <- pydantic_int c ;;
  Ok (contributors ++ [mkContributor u n]).

Definition format_contributors (contrib_data : list pydict)
  : result (list Contributor) :=
  for_each contributor_step (firstn 5 contrib_data) [].

(** *** calculate_health_score *)

(** The [try] block on the last push: what is subtracted, whether the
    comparison holds or any exception is caught. *)
Definition push_penalty (now : Z) (repo_data : pydict) : Q :=
  match (p <- getitem repo_data "pushed_at" ;;
         last_push <- timestamp p ;;
         naive_lt last_push (now - days 90)) with
  | Ok true => 10
  | Ok false => 0
  | Raise _ => 10
  end.

Definition commit_penalty (activity : ActivityTrends) : Q :=
  if float_lt (commits_per_week_avg activity) (Finite 1) then 20
  else if float_lt (commits_per_week_avg activity) (Finite 5) then 10
  else 0.

(** [score -= penalty] where a penalty applies: a penalty of 0 stands for a
    branch that subtracts nothing. *)
Definition subtract (score : pyfloat) (penalty : Q) : pyfloat :=
  if Qeq_bool penalty 0 then score else float_sub score (Finite penalty).

(** The block on the issue ratios, applied to the running score. *)
Definition issue_penalties (issues : IssueHealth) (score : pyfloat)
  : result pyfloat :=
  if open_issues issues >? 0 then
    stale_ratio <- true_div (stale_issues issues) (open_issues issues) ;;
    let score := float_sub score (float_mul stale_ratio (Finite 20)) in
    bug_ratio <- true_div (bug_issues issues) (open_issues issues) ;;
    Ok (float_sub score (float_mul bug_ratio (Finite 20)))
  else Ok score.

(** The score before the final rounding and clamping. *)
Definition penalized_score (now : Z) (repo_data : pydict)
  (activity : ActivityTrends) (issues : IssueHealth) : result pyfloat :=
  let score := Finite 100 in
  let score := subtract score (push_penalty now repo_data) in
  let score := subtract score (commit_penalty activity) in
  score <- issue_penalties issues score ;;
  stars <- number (get_default repo_data "stargazers_count" (JInt 0)) ;;
  let score := if num_lt stars 100 then float_sub score (Finite 10) else score in
  let score :=
    if negb (truthy (get_default repo_data "license" JNull))
    then float_sub score (Finite 10) else score in
  let score :=
    if negb (truthy (get_default repo_data "description" JNull))
    then float_sub score (Finite 10) else score in
  Ok score.

Definition calculate_health_score (now : Z) (repo_data : pydict)
  (activity : ActivityTrends) (issues : IssueHealth) : result pyfloat :=
  score <- penalized_score now repo_data activity issues ;;
  Ok (py_max0 (py_round2 score)).

End Profiler.

(** ** Instances of the two library parameters

    Executable readers standing for [json.loads] and
    [datetime.fromisoformat] in the concrete runs below. [json_loads_ref]
    follows the grammar [json.loads] accepts, the literals [NaN],
    [Infinity] and [-Infinity] included, and raises [ValueError] on an int
    of more than 4300 digits. It does not read escapes of code points above
    255, which have no counterpart in [string], and it has no limit on the
    depth of nesting, where the interpreter raises [RecursionError] at a
    depth that depends on its stack. [iso_basic] reads the layouts [YYYY-MM-DD],
    [YYYY-MM-DD*HH:MM:SS] and the latter followed by an offset [+HH:MM] or
    [-HH:MM]. *)

Definition obind {A B : Type} (m : option A) (k : A -> option B) : option B :=
  match m with
  | Some a => k a
  | None => None
  end.

Notation "x <~ m ;; k" := (obind m (fun x => k))
  (at level 61, m at next level, right associativity).

Definition quote : ascii := "034"%char.
Definition backslash : ascii := "092"%char.

Fixpoint digits_value (acc : Z) (s : string) : Z :=
  match s with
  | EmptyString => acc
  | String c r => digits_value (10 * acc + digit_value c) r
  end.

(** [s] without the prefix [p], when it has it. *)
Fixpoint drop_prefix (p s : string) : option string :=
  match p with
  | EmptyString => Some s
  | String a p' =>
      match s with
      | String b s' => if (a =? b)%char then drop_prefix p' s' else None
      | EmptyString => None
      end
  end.

Module JsonRef.

Definition malformed {A : Type} : result A := Raise JSONDecodeError.

Definition is_ws (c : ascii) : bool :=
  (code c =? 32)%N || (code c =? 9)%N || (code c =? 10)%N || (code c =? 13)%N.

Fixpoint skip_ws (s : string) : string :=
  match s with
  | EmptyString => EmptyString
  | String c r => if is_ws c then skip_ws r else s
  end.

Definition hex_value (c : ascii) : option Z :=
  if is_ascii_digit c then Some (digit_value c)
  else if between 97 102 c then Some (Z.of_N (code c) - 87)
  else if between 65 70 c then Some (Z.of_N (code c) - 55)
  else None.

(** The character a one-letter escape stands for. *)
Definition escape (e : ascii) : option ascii :=
  if (e =? quote)%char then Some quote
  else if (e =? backslash)%char then Some backslash
  else if (e =? "/")%char then Some "/"%char
  else if (e =? "b")%char then Some "008"%char
  else if (e =? "f")%char then Some "012"%char
  else if (e =? "n")%char then Some "010"%char
  else if (e =? "r")%char then Some "013"%char
  else if (e =? "t")%char then Some "009"%char
  else None.

Definition unicode4 (a b c d : ascii) : option ascii :=
  x <~ hex_value a ;; y <~ hex_value b ;; z <~ hex_value c ;; w <~ hex_value d ;;
  let n := ((x * 16 + y) * 16 + z) * 16 + w in
  if n <? 256 then Some (ascii_of_N (Z.to_N n)) else None.

Definition cons_char (c : ascii) (r : result (string * string))
  : result (string * string) :=
  p <- r ;; Ok (String c (fst p), snd p).

(** The text of a string literal after its opening quote, and what follows
    the closing quote. *)
Fixpoint read_string (s : string) : result (string * string) :=
  match s with
  | EmptyString => malformed
  | String c r =>
      if (c =? quote)%char then Ok (EmptyString, r)
      else if (c =? backslash)%char then
        match r with
        | String e r1 =>
            match escape e with
            | Some ch => cons_char ch (read_string r1)
            | None =>
                if (e =? "u")%char then
                  match r1 with
                  | String h1 (String h2 (String h3 (String h4 r2))) =>
                      match unicode4 h1 h2 h3 h4 with
                      | Some ch => cons_char ch (read_string r2)
                      | None => malformed
                      end
                  | _ => malformed
                  end
                else malformed
            end
        | EmptyString => malformed
        end
      else if (code c <? 32)%N then malformed
      else cons_char c (read_string r)
  end.

(** A number literal: an optional minus sign, then [0] or digits not
    starting with [0], then an optional fraction and an optional exponent;
    an int when there is neither fraction nor exponent, else the float
    nearest to the decimal. *)
Definition read_number (s : string) : result (json * string) :=
  let (sign, s1) :=
    match s with
    | String "-" r => (-1, r)
    | _ => (1, s)
    end in
  match s1 with
  | String c r =>
      if is_ascii_digit c then
        let (int_part, s2) :=
          if (c =? "0")%char then ("0"%string, r) else span is_ascii_digit s1 in
        let (frac, s3) :=
          match s2 with
          | String "." r2 =>
              let (fd, r3) := span is_ascii_digit r2 in
              if is_empty fd then (EmptyString, s2) else (fd, r3)
          | _ => (EmptyString, s2)
          end in
        let (expo, s4) :=
          match s3 with
          | String e r3 =>
              if (e =? "e")%char || (e =? "E")%char then
                let (esign, r4) :=
                  match r3 with
                  | String "-" r' => (-1, r')
                  | String "+" r' => (1, r')
                  | _ => (1, r3)
                  end in
                let (ed, r5) := span is_ascii_digit r4 in
                if is_empty ed then (None, s3)
                else (Some (esign * digits_value 0 ed), r5)
              else (None, s3)
          | EmptyString => (None, s3)
          end in
        match frac, expo with
        | EmptyString, None =>
            if (max_str_digits <? String.length int_part)%nat
            then Raise ValueError
            else Ok (JInt (sign * digits_value 0 int_part), s4)
        | _, _ =>
            let mantissa := sign * digits_value 0 (int_part ++ frac)%string in
            let scale :=
              match expo with Some e => e | None => 0 end
              - Z.of_nat (String.length frac) in
            Ok (JFloat (to_float (inject_Z mantissa * Qpower 10 scale)), s4)
        end
      else malformed
  | EmptyString => malformed
  end.

Definition literal (p : string) (v : json) (s : string)
  : result (json * string) :=
  match drop_prefix p s with
  | Some r => Ok (v, r)
  | None => malformed
  end.

(** A value at the head of [s] (white space already skipped); the members
    of an object and the elements of an array after the first position. *)
Fixpoint read_value (fuel : nat) (s : string) : result (json * string) :=
  match fuel with
  | O => malformed
  | S fuel =>
      match s with
      | String c r =>
          if (c =? "{")%char then
            match skip_ws r with
            | String "}" r' => Ok (JObj [], r')
            | r1 => read_members fuel r1 []
            end
          else if (c =? "[")%char then
            match skip_ws r with
            | String "]" r' => Ok (JArr [], r')
            | r1 => read_elements fuel r1 []
            end
          else if (c =? quote)%char then
            p <- read_string r ;; Ok (JStr (fst p), snd p)
          else if (c =? "t")%char then literal "true" (JBool true) s
          else if (c =? "f")%char then literal "false" (JBool false) s
          else if (c =? "n")%char then literal "null" JNull s
          else if (c =? "N")%char then literal "NaN" (JFloat NaN) s
          else if (c =? "I")%char then
            literal "Infinity" (JFloat (Infinity false)) s
          else
            match drop_prefix "-I" s with
            | Some _ => literal "-Infinity" (JFloat (Infinity true)) s
            | None => read_number s
            end
      | EmptyString => malformed
      end
  end
with read_members (fuel : nat) (s : string) (acc : list (string * json))
  : result (json * string) :=
  match fuel with
  | O => malformed
  | S fuel =>
      match s with
      | String c r =>
          if (c =? quote)%char then
            k <- read_string r ;;
            match skip_ws (snd k) with
            | String ":" r1 =>
                v <- read_value fuel (skip_ws r1) ;;
                let acc := acc ++ [(fst k, fst v)] in
                match skip_ws (snd v) with
                | String "," r2 => read_members fuel (skip_ws r2) acc
                | String "}" r2 => Ok (JObj acc, r2)
                | _ => malformed
                end
            | _ => malformed
            end
          else malformed
      | EmptyString => malformed
      end
  end
with read_elements (fuel : nat) (s : string) (acc : list json)
  : result (json * string) :=
  match fuel with
  | O => malformed
  | S fuel =>
      v <- read_value fuel s ;;
      let acc := acc ++ [fst v] in
      match skip_ws (snd v) with
      | String "," r2 => read_elements fuel (skip_ws r2) acc
      | String "]" r2 => Ok (JArr acc, r2)
      | _ => malformed
      end
  end.

End JsonRef.

(** The whole text must be one value between optional white space. *)
Definition json_loads_ref (s : string) : result json :=
  v <- JsonRef.read_value (S (String.length s)) (JsonRef.skip_ws s) ;;
  match JsonRef.skip_ws (snd v) with
  | EmptyString => Ok (fst v)
  | _ => JsonRef.malformed
  end.

Module Iso.

Definition digits (n : nat) (s : string) : option (Z * string) :=
  let d := substring 0 n s in
  if (String.length d =? n)%nat && str_forallb is_ascii_digit d
  then Some (digits_value 0 d, substring n (String.length s - n) s)
  else None.

Definition expect (c : ascii) (s : string) : option string :=
  match s with
  | String a r => if (a =? c)%char then Some r else None
  | EmptyString => None
  end.

Definition is_leap (y : Z) : bool :=
  (y mod 4 =? 0) && (negb (y mod 100 =? 0) || (y mod 400 =? 0)).

Definition days_in_month (y m : Z) : Z :=
  if m =? 2 then (if is_leap y then 29 else 28)
  else if (m =? 4) || (m =? 6) || (m =? 9) || (m =? 11) then 30
  else 31.

Definition days_before_month (y m : Z) : Z :=
  fold_left (fun acc k => acc + days_in_month y (Z.of_nat k))
    (seq 1 (Z.to_nat m - 1)) 0.

Definition days_before_year (y : Z) : Z :=
  let p := y - 1 in p * 365 + p / 4 - p / 100 + p / 400.

(** Microseconds from 0001-01-01T00:00:00 to the given second. *)
Definition ticks (y m d hh mm ss : Z) : Z :=
  (((days_before_year y + days_before_month y m + d - 1) * 24 + hh) * 60
     + mm) * 60000000 + ss * 1000000.

Definition read_date (s : string) : option ((Z * Z * Z) * string) :=
  y <~ digits 4 s ;;
  r <~ expect "-" (snd y) ;;
  m <~ digits 2 r ;;
  r <~ expect "-" (snd m) ;;
  d <~ digits 2 r ;;
  if (1 <=? fst y) && (1 <=? fst m) && (fst m <=? 12)
     && (1 <=? fst d) && (fst d <=? days_in_month (fst y) (fst m))
  then Some ((fst y, fst m, fst d), snd d)
  else None.

Definition read_clock (s : string) : option ((Z * Z * Z) * string) :=
  hh <~ digits 2 s ;;
  r <~ expect ":" (snd hh) ;;
  mm <~ digits 2 r ;;
  r <~ expect ":" (snd mm) ;;
  ss <~ digits 2 r ;;
  if (fst hh <=? 23) && (fst mm <=? 59) && (fst ss <=? 59)
  then Some ((fst hh, fst mm, fst ss), snd ss)
  else None.

(** [+HH:MM] or [-HH:MM] up to the end of the text, in microseconds. *)
Definition read_offset (s : string) : option Z :=
  match s with
  | String c r =>
      if (c =? "+")%char || (c =? "-")%char then
        hh <~ digits 2 r ;;
        r1 <~ expect ":" (snd hh) ;;
        mm <~ digits 2 r1 ;;
        if is_empty (snd mm) && (fst hh <=? 23) && (fst mm <=? 59)
        then Some ((if (c =? "+")%char then 1 else -1)
                   * (fst hh * 60 + fst mm) * 60000000)
        else None
      else None
  | EmptyString => None
  end.

End Iso.

Definition iso_basic (s : string) : option datetime :=
  date <~ Iso.read_date s ;;
  let '((y, m, d), r) := date in
  match r with
  | EmptyString => Some (Naive (Iso.ticks y m d 0 0 0))
  | String _ r1 =>
      clock <~ Iso.read_clock r1 ;;
      let '((hh, mm, ss), r2) := clock in
      match r2 with
      | EmptyString => Some (Naive (Iso.ticks y m d hh mm ss))
      | _ =>
          off <~ Iso.read_offset r2 ;;
          Some (Aware (Iso.ticks y m d hh mm ss - off))
      end
  end.

(** The moment 2024-06-01T00:00:00 used as the clock of the concrete runs. *)
Definition june_2024 : Z := Iso.ticks 2024 6 1 0 0 0.

(** JSON texts are written below with ['] in place of the double quote. *)
Fixpoint json_text (s : string) : string :=
  match s with
  | EmptyString => EmptyString
  | String c r => String (if (c =? "'")%char then quote else c) (json_text r)
  end.

(** The comparison operators of a requirement line. *)
Definition comparison_operators : list string :=
  ["=="; "~="; ">="; "<="; "="; ">"; "<"].

(** A line between two other parts of a manifest. *)
Definition between_lines (before line after : string) : string :=
  (before ++ String newline line ++ String newline after)%string.

(** ** Predicates and data of the statements *)

(** What stops [span]: the end of the text or a character outside the class. *)
Definition stops (p : ascii -> bool) (s : string) : bool :=
  match s with
  | EmptyString => true
  | String c _ => negb (p c)
  end.

Definition not_space (c : ascii) : bool := negb (is_space c).

(** A name token and a version token: non-empty and within the class. *)
Definition name_token (s : string) : bool :=
  negb (is_empty s) && str_forallb is_name_char s.

Definition version_token (s : string) : bool :=
  negb (is_empty s) && str_forallb is_version_char s.

Definition is_str (x : json) : bool :=
  match x with JStr _ => true | _ => false end.

Definition as_str (x : json) : string :=
  match x with JStr s => s | _ => EmptyString end.

(** A mapping from names to version strings. *)
Definition all_str (d : pydict) : bool := forallb (fun kv => is_str (snd kv)) d.

Definition dependency_of (kv : string * json) : Dependency :=
  mkDependency (fst kv) (as_str (snd kv)).

(** [{**d1, **d2}] on two dicts. *)
Definition merged (d1 d2 : pydict) : pydict :=
  dict_update (dict_items d1) (dict_items d2).

Definition named (n : string) (d : Dependency) : bool := (name d =? n)%string.

(** The manifest with [a] at ["1.0"] among the direct dependencies and at
    ["2.0"] among the development ones. *)
Definition both_buckets : string :=
  json_text "{'dependencies': {'a': '1.0'}, 'devDependencies': {'a': '2.0'}}".

(** A repository with a requirements file of one effective line and an
    empty package manifest. *)
Definition two_manifests : list (string * string) :=
  [("requirements.txt", "flask==2.0.1"); ("package.json", "{}")].

Fixpoint sum_totals (totals : list Z) : Z :=
  match totals with
  | [] => 0
  | t :: rest => t + sum_totals rest
  end.

(** The weekly record [week] carries the commit total [n]. *)
Definition has_total (week : pydict) (n : Z) : Prop :=
  dict_get week "total" = Some (JInt n).

(** A finite float between two ints. *)
Definition within (lo hi : Z) (x : pyfloat) : Prop :=
  exists q : Q, x = Finite q /\ (inject_Z lo <= q)%Q /\ (q <= inject_Z hi)%Q.

(** Two finite floats in order between two ints. *)
Definition le_within (lo hi : Z) (x y : pyfloat) : Prop :=
  exists p q : Q,
    x = Finite p /\ y = Finite q
    /\ (inject_Z lo <= p)%Q /\ (p <= q)%Q /\ (q <= inject_Z hi)%Q.

(** The invariant of [IssueHealth]. *)
Definition health_invariant (h : IssueHealth) : Prop :=
  0 <= stale_issues h <= open_issues h /\ 0 <= bug_issues h <= open_issues h.

(** [x] is a string that, without its [Z], parses to a naive date. *)
Definition naive_timestamp (f : string -> option datetime) (x : json) : Prop :=
  exists (s : string) (t : Z), x = JStr s /\ f (remove_Z s) = Some (Naive t).

Definition wf_week (week : pydict) : Prop :=
  exists (t : json) (n : pynum),
    dict_get week "total" = Some t /\ number t = Ok n.

(** The size of the int totals of the weeks: the sum of their absolute
    values. *)
Definition int_size (t : option json) : Z :=
  match t with
  | Some (JInt z) => Z.abs z
  | Some (JBool true) => 1
  | _ => 0
  end.

Fixpoint int_total_size (weeks : list pydict) : Z :=
  match weeks with
  | [] => 0
  | week :: rest => int_size (dict_get week "total") + int_total_size rest
  end.

(** What [calculate_activity_trends] reads of an issue. *)
Definition wf_trend_issue (f : string -> option datetime) (issue : pydict) : Prop :=
  exists c cl : json,
    dict_get issue "created_at" = Some c /\ naive_timestamp f c
    /\ dict_get issue "closed_at" = Some cl
    /\ (truthy cl = false \/ naive_timestamp f cl).

Definition wf_label (label : json) : Prop :=
  exists (d : pydict) (s : string),
    label = JObj d /\ dict_get d "name" = Some (JStr s).

(** What [analyze_issue_health] reads of an issue. *)
Definition wf_health_issue (f : string -> option datetime) (issue : pydict) : Prop :=
  exists st : json,
    dict_get issue "state" = Some st
    /\ (is_open st = true ->
        exists (u : json) (labels : list json),
          dict_get issue "updated_at" = Some u /\ naive_timestamp f u
          /\ dict_get issue "labels" = Some (JArr labels)
          /\ Forall wf_label labels).

Definition wf_contributor (contrib : pydict) : Prop :=
  exists (s : string) (n : Z),
    dict_get contrib "login" = Some (JStr s)
    /\ dict_get contrib "contributions" = Some (JInt n).

(** A package manifest that does not parse, or an object whose two mappings
    are absent or bind names to strings. *)
Definition wf_manifest (loads : string -> result json) (content : string) : Prop :=
  loads content = Raise JSONDecodeError
  \/ exists fields d1 d2 : pydict,
       loads content = Ok (JObj fields)
       /\ get_default fields "dependencies" (JObj []) = JObj d1
       /\ get_default fields "devDependencies" (JObj []) = JObj d2
       /\ all_str d1 = true /\ all_str d2 = true.

Definition wf_stars (repo_data : pydict) : Prop :=
  exists n : pynum,
    number (get_default repo_data "stargazers_count" (JInt 0)) = Ok n.

Definition sample_week (n : Z) : pydict :=
  [("days", JArr []); ("total", JInt n); ("week", JInt 1714867200)].

(** Three weeks of history, 104 commits in all. *)
Definition sample_weeks : list pydict :=
  [sample_week 52; sample_week 26; sample_week 26].

(** An open issue last updated five months before [june_2024]. *)
Definition stale_bug_issue : pydict :=
  [("state", JStr "open");
   ("created_at", JStr "2023-12-01T10:00:00Z");
   ("updated_at", JStr "2024-01-01T00:00:00Z");
   ("closed_at", JNull);
   ("labels", JArr [JObj [("name", JStr "Bug: crash")]])].

Definition closed_issue : pydict :=
  [("state", JStr "closed");
   ("created_at", JStr "2024-05-20T10:00:00Z");
   ("updated_at", JStr "2024-05-25T00:00:00Z");
   ("closed_at", JStr "2024-05-25T00:00:00Z");
   ("labels", JArr [])].

Definition issue_without_dates : pydict :=
  [("state", JStr "open"); ("labels", JArr [])].

Definition issue_bad_date : pydict :=
  [("state", JStr "open");
   ("created_at", JStr "yesterday");
   ("updated_at", JStr "yesterday");
   ("closed_at", JNull);
   ("labels", JArr [])].

Definition issue_null_labels : pydict :=
  [("state", JStr "open");
   ("created_at", JStr "2024-05-20T10:00:00Z");
   ("updated_at", JStr "2024-05-25T00:00:00Z");
   ("closed_at", JNull);
   ("labels", JNull)].

Definition sample_repo : pydict :=
  [("pushed_at", JStr "2024-05-30T08:00:00Z");
   ("stargazers_count", JInt 250);
   ("license", JObj [("name", JStr "MIT")]);
   ("description", JStr "A profiler")].

Definition busy : ActivityTrends := mkActivityTrends (Finite 10) 3 2.
Definition idle : ActivityTrends := mkActivityTrends (Finite 0) 0 0.

(** ** main.py: get_repo_name_from_url *)

(** [github\.com/([\w\-]+/[\w\-]+)] at the head of [s]: the group. Each of
    the two repetitions takes the longest run of its class: a shorter owner
    would have to be followed by [/] where a character of the class stands. *)
Definition match_repo_here (s : string) : option string :=
  match drop_prefix "github.com/" s with
  | Some r =>
      let (owner, r1) := span is_name_char r in
      match owner, r1 with
      | String _ _, String c r2 =>
          if (c =? "/")%char then
            match fst (span is_name_char r2) with
            | EmptyString => None
            | repo => Some (owner ++ String "/" repo)%string
            end
          else None
      | _, _ => None
      end
  | None => None
  end.

(** [re.search]: the match at the leftmost position that has one. *)
Fixpoint re_search_repo (s : string) : option string :=
  match match_repo_here s with
  | Some g => Some g
  | None =>
      match s with
      | String _ r => re_search_repo r
      | EmptyString => None
      end
  end.

Definition get_repo_name_from_url (url : string) : result string :=
  match re_search_repo url with
  | Some g => Ok g
  | None => Raise ValueError
  end.

(** ** Further predicates of the statements *)

(** A text without line break. *)
Definition one_line (s : string) : bool :=
  str_forallb (fun c => negb (c =? newline)%char) s.

(** White space other than the line break. *)
Definition is_blank (c : ascii) : bool := is_space c && negb (c =? newline)%char.

(** The line, once stripped, starts with a character of a name. *)
Definition starts_with_name (line : string) : bool :=
  match strip line with
  | String c _ => is_name_char c
  | EmptyString => false
  end.

(** A dependency as the line-oriented parser can return it. *)
Definition well_formed_dependency (d : Dependency) : bool :=
  name_token (name d) && version_token (version d).

Definition is_obj (x : json) : bool :=
  match x with JObj _ => true | _ => false end.

(** The version the output gives to a name, if it lists the name. *)
Definition version_of (n : string) (l : list Dependency) : option string :=
  option_map version (find (named n) l).

(** The version a mapping of a manifest gives to a name. *)
Definition declared (d : pydict) (n : string) : option string :=
  option_map as_str (dict_get d n).

Definition three_names : string :=
  json_text
    "{'dependencies': {'a': '1.0', 'b': '1.1'}, 'devDependencies': {'a': '2.0', 'c': '3.0'}}".

(** A run of [n] digits 9. *)
Fixpoint nines (n : nat) : string :=
  match n with
  | O => EmptyString
  | S k => String "9" (nines k)
  end.

(** A requirements file beside a package manifest that does not decode. *)
Definition broken_manifest : list (string * string) :=
  [("requirements.txt", "flask==2.0.1"); ("package.json", "{not json")].

(** The counters of two runs, added. *)
Definition add_health (h d : IssueHealth) : IssueHealth :=
  mkIssueHealth (open_issues h + open_issues d)
    (stale_issues h + stale_issues d) (bug_issues h + bug_issues d).

Definition add_counts (a b : Z * Z) : Z * Z := (fst a + fst b, snd a + snd b).

(** The state of the issue is ["open"]. *)
Definition issue_is_open (issue : pydict) : bool :=
  match dict_get issue "state" with
  | Some st => is_open st
  | None => false
  end.

(** The field [k] of the record is a string that parses to the naive
    time [t]. *)
Definition dated (f : string -> option datetime) (issue : pydict) (k : string)
  (t : Z) : Prop :=
  exists s : string,
    dict_get issue k = Some (JStr s) /\ f (remove_Z s) = Some (Naive t).

(** The issue is not closed ([None]: its [closed_at] is falsy) or closed at
    the naive time [t] ([Some t]). *)
Definition closing (f : string -> option datetime) (issue : pydict)
  (c : option Z) : Prop :=
  match c with
  | None => exists cl : json, dict_get issue "closed_at" = Some cl /\ truthy cl = false
  | Some t =>
      exists s : string,
        dict_get issue "closed_at" = Some (JStr s) /\ is_empty s = false
        /\ f (remove_Z s) = Some (Naive t)
  end.

(** A well-formed label whose name does not contain ["bug"]. *)
Definition plain_label (label : json) : Prop :=
  exists (d : pydict) (s : string),
    label = JObj d /\ dict_get d "name" = Some (JStr s)
    /\ contains "bug" (lower s) = false.

(** The contributor a well-formed record stands for. *)
Definition contributor_of (contrib : pydict) : Contributor :=
  mkContributor
    (match dict_get contrib "login" with Some (JStr s) => s | _ => EmptyString end)
    (match dict_get contrib "contributions" with Some (JInt n) => n | _ => 0 end).

Definition not_g (c : ascii) : bool := negb (c =? "g")%char.

(** An issue created exactly 30 days before [june_2024], still open. *)
Definition boundary_issue : pydict :=
  [("created_at", JStr "2024-05-02T00:00:00Z"); ("closed_at", JNull)].

Definition contributor (login : string) (n : Z) : pydict :=
  [("login", JStr login); ("id", JInt 7); ("contributions", JInt n)].

Definition five_contributors : list pydict :=
  [contributor "ada" 90; contributor "bob" 70; contributor "cy" 40;
   contributor "dee" 12; contributor "eve" 3].

(** A record without [login]. *)
Definition anonymous : pydict := [("contributions", JInt 1)].

Definition mixed_labels : list json :=
  [JObj [("name", JStr "enhancement")];
   JObj [("name", JStr "type: BUG report")];
   JNull].

(** * Properties *)

(** ** The error monad and loops *)

Lemma for_each_app {A S : Type} (body : S -> A -> result S) (xs ys : list A) (acc : S) :
  for_each body (xs ++ ys) acc = acc' <- for_each body xs acc ;; for_each body ys acc'.
Proof.
  revert acc. induction xs as [|x xs IH]; intros acc; simpl.
  - reflexivity.
  - destruct (body acc x); simpl; auto.
Qed.

(** ** Characters *)

Ltac all_chars c :=
  destruct c as [[] [] [] [] [] [] [] []]; vm_compute; try reflexivity; try discriminate.

Lemma name_char_not_space (c : ascii) : is_name_char c = true -> is_space c = false.
Proof. all_chars c. Qed.

Lemma version_char_not_space (c : ascii) : is_version_char c = true -> is_space c = false.
Proof. all_chars c. Qed.

Lemma version_char_not_op (c : ascii) : is_version_char c = true -> is_op_char c = false.
Proof. all_chars c. Qed.

Lemma name_char_not_hash (c : ascii) : is_name_char c = true -> (c =? "#")%char = false.
Proof. all_chars c. Qed.

Lemma name_char_not_newline (c : ascii) : is_name_char c = true -> (c =? newline)%char = false.
Proof. all_chars c. Qed.

Lemma version_char_not_newline (c : ascii) :
  is_version_char c = true -> (c =? newline)%char = false.
Proof. all_chars c. Qed.

(** ** Strings *)

Lemma str_forallb_app (p : ascii -> bool) (a b : string) :
  str_forallb p (a ++ b) = str_forallb p a && str_forallb p b.
Proof.
  induction a as [|c a IH]; simpl.
  - reflexivity.
  - rewrite IH. now rewrite andb_assoc.
Qed.

Lemma str_forallb_impl (p q : ascii -> bool) (s : string) :
  (forall c, p c = true -> q c = true) ->
  str_forallb p s = true -> str_forallb q s = true.
Proof.
  intros Hpq. induction s as [|c s IH]; simpl; auto.
  intros H. apply andb_true_iff in H as [Hc Hs].
  rewrite (Hpq _ Hc). auto.
Qed.

Lemma span_app (p : ascii -> bool) (a b : string) :
  str_forallb p a = true -> stops p b = true -> span p (a ++ b) = (a, b).
Proof.
  intros Ha Hb. induction a as [|c a IH]; simpl in *.
  - destruct b as [|d b]; simpl in *; auto.
    apply negb_true_iff in Hb. now rewrite Hb.
  - apply andb_true_iff in Ha as [Hc Ha]. rewrite Hc, (IH Ha). reflexivity.
Qed.

Lemma span_all (p : ascii -> bool) (a : string) :
  str_forallb p a = true -> span p a = (a, EmptyString).
Proof.
  intros Ha. generalize (span_app p a EmptyString Ha eq_refl).
  assert (E : (a ++ EmptyString)%string = a) by (clear; induction a; simpl; congruence).
  now rewrite E.
Qed.

Lemma rstrip_id (s : string) : str_forallb not_space s = true -> rstrip s = s.
Proof.
  induction s as [|c s IH]; simpl; auto.
  intros H. apply andb_true_iff in H as [Hc Hs].
  rewrite (IH Hs). unfold not_space in Hc. apply negb_true_iff in Hc.
  rewrite Hc. destruct s; reflexivity.
Qed.

Lemma strip_id (s : string) : str_forallb not_space s = true -> strip s = s.
Proof.
  intros H. unfold strip.
  assert (L : lstrip s = s).
  { destruct s as [|c s]; simpl in *; auto.
    apply andb_true_iff in H as [Hc _].
    unfold not_space in Hc. apply negb_true_iff in Hc. now rewrite Hc. }
  rewrite L. now apply rstrip_id.
Qed.

Lemma split_lines_nonempty (s : string) : split_lines s <> [].
Proof.
  induction s as [|c s IH]; simpl; try discriminate.
  destruct (c =? newline)%char; try discriminate.
  destruct (split_lines s); discriminate.
Qed.

Lemma split_lines_app (a b : string) :
  split_lines (a ++ String newline b) = split_lines a ++ split_lines b.
Proof.
  induction a as [|c a IH]; simpl.
  - reflexivity.
  - destruct (c =? newline)%char.
    + now rewrite IH.
    + rewrite IH. generalize (split_lines_nonempty a).
      destruct (split_lines a); simpl; congruence.
Qed.

Lemma split_lines_one (s : string) :
  str_forallb (fun c => negb (c =? newline)%char) s = true -> split_lines s = [s].
Proof.
  induction s as [|c s IH]; simpl; auto.
  intros H. apply andb_true_iff in H as [Hc Hs].
  apply negb_true_iff in Hc. rewrite Hc, (IH Hs). reflexivity.
Qed.

(** ** parse_requirements_txt *)

Lemma requirement_step_acc (deps : list Dependency) (line : string) :
  requirement_step deps line = deps ++ requirement_step [] line.
Proof.
  unfold requirement_step.
  destruct (is_empty (strip line) || startswith_hash (strip line)).
  - now rewrite app_nil_r.
  - destruct (re_match (strip line)) as [[nm ver]|]; simpl.
    + reflexivity.
    + now rewrite app_nil_r.
Qed.

Lemma requirement_loop (lines : list string) (deps : list Dependency) :
  fold_left requirement_step lines deps
  = deps ++ flat_map (requirement_step []) lines.
Proof.
  revert deps. induction lines as [|l ls IH]; intros deps; simpl.
  - now rewrite app_nil_r.
  - rewrite IH, (requirement_step_acc deps l), <- app_assoc. reflexivity.
Qed.

(** The dependencies of a manifest are those of its lines, in order. *)
Lemma parse_requirements_flat (content : string) :
  parse_requirements_txt content
  = flat_map (requirement_step []) (split_lines content).
Proof. unfold parse_requirements_txt. now rewrite requirement_loop. Qed.

Lemma parse_requirements_between (before line after : string) :
  str_forallb (fun c => negb (c =? newline)%char) line = true ->
  parse_requirements_txt (between_lines before line after)
  = parse_requirements_txt before ++ requirement_step [] line
      ++ parse_requirements_txt after.
Proof.
  intros Hl. unfold between_lines. rewrite !parse_requirements_flat.
  change (before ++ String newline line ++ String newline after)%string
    with (before ++ String newline (line ++ String newline after))%string.
  rewrite !split_lines_app, !flat_map_app, (split_lines_one _ Hl). simpl.
  now rewrite app_nil_r.
Qed.

Lemma name_token_spaces (nm : string) :
  name_token nm = true -> str_forallb not_space nm = true.
Proof.
  intros H. apply andb_true_iff in H as [_ H].
  apply (str_forallb_impl is_name_char); auto.
  intros c Hc. unfold not_space. now rewrite (name_char_not_space c Hc).
Qed.

Lemma version_token_spaces (v : string) :
  version_token v = true -> str_forallb not_space v = true.
Proof.
  intros H. apply andb_true_iff in H as [_ H].
  apply (str_forallb_impl is_version_char); auto.
  intros c Hc. unfold not_space. now rewrite (version_char_not_space c Hc).
Qed.

Lemma name_token_one_line (nm : string) :
  name_token nm = true ->
  str_forallb (fun c => negb (c =? newline)%char) nm = true.
Proof.
  intros H. apply andb_true_iff in H as [_ H].
  apply (str_forallb_impl is_name_char); auto.
  intros c Hc. now rewrite (name_char_not_newline c Hc).
Qed.

Lemma version_token_one_line (v : string) :
  version_token v = true ->
  str_forallb (fun c => negb (c =? newline)%char) v = true.
Proof.
  intros H. apply andb_true_iff in H as [_ H].
  apply (str_forallb_impl is_version_char); auto.
  intros c Hc. now rewrite (version_char_not_newline c Hc).
Qed.

Lemma match_version_token (v : string) :
  version_token v = true -> match_version v = Some v.
Proof.
  intros H. apply andb_true_iff in H as [Hn Hv].
  unfold match_version. rewrite (span_all _ _ Hv). simpl.
  destruct v; [discriminate | reflexivity].
Qed.

(** The name group takes the whole name token when an operator, or nothing,
    follows it. *)
Lemma re_match_name (nm rest : string) :
  name_token nm = true -> stops is_name_char rest = true ->
  re_match (nm ++ rest) = Some (nm, match_suffix rest).
Proof.
  intros H Hr. apply andb_true_iff in H as [Hn Hc].
  unfold re_match. rewrite (span_app _ _ _ Hc Hr).
  destruct nm; [discriminate | reflexivity].
Qed.

Lemma re_match_skips (line nm : string) (ver : option string) :
  re_match line = Some (nm, ver) ->
  is_empty line || startswith_hash line = false.
Proof.
  destruct line as [|c r]; unfold re_match; simpl.
  - discriminate.
  - destruct (is_name_char c) eqn:Hc.
    + intros _. apply (name_char_not_hash c Hc).
    + discriminate.
Qed.

(** A line without white space that the pattern matches gives one
    dependency. *)
Lemma requirement_step_match (line nm : string) (ver : option string) :
  str_forallb not_space line = true ->
  re_match line = Some (nm, ver) ->
  requirement_step [] line
  = [mkDependency nm (match ver with
                      | Some (String c v) => String c v
                      | _ => "latest"
                      end)].
Proof.
  intros Hs Hm. unfold requirement_step.
  rewrite (strip_id _ Hs), (re_match_skips _ _ _ Hm), Hm. reflexivity.
Qed.

Ltac each_operator H :=
  simpl in H; repeat (destruct H as [<-|H]); try contradiction.

(** A name alone. *)
Lemma requirement_name_only (nm : string) :
  name_token nm = true ->
  requirement_step [] nm = [mkDependency nm "latest"].
Proof.
  intros Hn.
  assert (E : (nm ++ EmptyString)%string = nm) by (clear; induction nm; simpl; congruence).
  rewrite (requirement_step_match nm nm None); auto using name_token_spaces.
  rewrite <- E at 1. now rewrite re_match_name.
Qed.

(** A name, one of the operators written with [=], [~] and [>], a version. *)
Lemma requirement_with_version (nm op v : string) :
  name_token nm = true ->
  In op ["=="; "~="; ">="; "="; ">"] ->
  version_token v = true ->
  requirement_step [] (nm ++ op ++ v) = [mkDependency nm v].
Proof.
  intros Hn Hop Hv.
  assert (Hm : match_version v = Some v) by now apply match_version_token.
  assert (Hv' := Hv). apply andb_true_iff in Hv' as [Hne Hvc].
  destruct v as [|c v]; [discriminate|]. simpl in Hvc.
  apply andb_true_iff in Hvc as [Hc _].
  assert (Hnop := version_char_not_op c Hc).
  rewrite (requirement_step_match _ nm (Some (String c v))); auto.
  - rewrite !str_forallb_app, (name_token_spaces _ Hn), (version_token_spaces _ Hv).
    each_operator Hop; reflexivity.
  - each_operator Hop; rewrite re_match_name; auto; simpl;
      try rewrite Hnop; rewrite Hm; reflexivity.
Qed.

(** A name, [<=] or [<], a version: the group of the operator does not
    match and the version is lost. *)
Lemma requirement_less_than (nm op v : string) :
  name_token nm = true ->
  In op ["<="; "<"] ->
  version_token v = true ->
  requirement_step [] (nm ++ op ++ v) = [mkDependency nm "latest"].
Proof.
  intros Hn Hop Hv.
  rewrite (requirement_step_match _ nm None); auto.
  - rewrite !str_forallb_app, (name_token_spaces _ Hn), (version_token_spaces _ Hv).
    each_operator Hop; reflexivity.
  - each_operator Hop; rewrite re_match_name; auto.
Qed.

(** A name and an operator with nothing after it. *)
Lemma requirement_operator_only (nm op : string) :
  name_token nm = true ->
  In op comparison_operators ->
  requirement_step [] (nm ++ op) = [mkDependency nm "latest"].
Proof.
  intros Hn Hop.
  rewrite (requirement_step_match _ nm None); auto.
  - rewrite !str_forallb_app, (name_token_spaces _ Hn).
    each_operator Hop; reflexivity.
  - each_operator Hop; rewrite re_match_name; auto.
Qed.

Lemma parse_requirements_one_line (line : string) :
  str_forallb (fun c => negb (c =? newline)%char) line = true ->
  parse_requirements_txt line = requirement_step [] line.
Proof.
  intros H. rewrite parse_requirements_flat, (split_lines_one _ H). simpl.
  now rewrite app_nil_r.
Qed.

Lemma operator_one_line (nm op : string) :
  name_token nm = true -> In op comparison_operators ->
  str_forallb (fun c => negb (c =? newline)%char) (nm ++ op) = true.
Proof.
  intros Hn Hop. rewrite str_forallb_app, (name_token_one_line _ Hn).
  each_operator Hop; reflexivity.
Qed.

(** On the operators the pattern knows, a line [name op version] of a
    manifest gives the dependency [name] at [version]; a line with the name
    alone gives it at ["latest"]. *)
Lemma parse_requirements_with_version (before after nm op v : string) :
  name_token nm = true ->
  In op ["=="; "~="; ">="; "="; ">"] ->
  version_token v = true ->
  parse_requirements_txt (between_lines before (nm ++ op ++ v) after)
  = parse_requirements_txt before ++ [mkDependency nm v]
      ++ parse_requirements_txt after.
Proof.
  intros Hn Hop Hv. rewrite parse_requirements_between.
  - now rewrite requirement_with_version.
  - rewrite !str_forallb_app, (name_token_one_line _ Hn),
      (version_token_one_line _ Hv).
    each_operator Hop; reflexivity.
Qed.

Lemma parse_requirements_name_only (before after nm : string) :
  name_token nm = true ->
  parse_requirements_txt (between_lines before nm after)
  = parse_requirements_txt before ++ [mkDependency nm "latest"]
      ++ parse_requirements_txt after.
Proof.
  intros Hn. rewrite parse_requirements_between.
  - now rewrite requirement_name_only.
  - now apply name_token_one_line.
Qed.

(** With [<=] or [<] the version of the line is dropped, whatever the name
    and the version are. *)
Lemma parse_requirements_less_than (before after nm op v : string) :
  name_token nm = true ->
  In op ["<="; "<"] ->
  version_token v = true ->
  parse_requirements_txt (between_lines before (nm ++ op ++ v) after)
  = parse_requirements_txt before ++ [mkDependency nm "latest"]
      ++ parse_requirements_txt after.
Proof.
  intros Hn Hop Hv. rewrite parse_requirements_between.
  - now rewrite requirement_less_than.
  - rewrite !str_forallb_app, (name_token_one_line _ Hn),
      (version_token_one_line _ Hv).
    each_operator Hop; reflexivity.
Qed.

(** C4, at the inputs where the code departs from it: the lines
    [flask<=2.0] and [flask<2.0] consist of a name token, a comparison
    operator and a version token, and the line-oriented parser returns the
    dependency [flask] at version ["latest"] instead of ["2.0"], whereas
    [flask>=2.0] and [flask>2.0] keep their version. *)
Theorem less_than_operator_loses_version :
  parse_requirements_txt "flask<=2.0" = [mkDependency "flask" "latest"]
  /\ parse_requirements_txt "flask<2.0" = [mkDependency "flask" "latest"]
  /\ parse_requirements_txt "flask>=2.0" = [mkDependency "flask" "2.0"]
  /\ parse_requirements_txt "flask>2.0" = [mkDependency "flask" "2.0"].
Proof. repeat split; vm_compute; reflexivity. Qed.

(** C10: a line made of a package-name token immediately followed by one of
    the comparison operators [==], [~=], [>=], [<=], [=], [>], [<] and nothing
    else gives the dependency of that name at version ["latest"], the same
    as the line with the name alone, whether the line is the whole manifest
    or stands between other lines. *)
Theorem operator_without_version_is_latest :
  forall (before after nm op : string),
    name_token nm = true ->
    In op comparison_operators ->
    parse_requirements_txt (nm ++ op) = [mkDependency nm "latest"]
    /\ parse_requirements_txt (nm ++ op) = parse_requirements_txt nm
    /\ parse_requirements_txt (between_lines before (nm ++ op) after)
       = parse_requirements_txt before ++ [mkDependency nm "latest"]
           ++ parse_requirements_txt after.
Proof.
  intros before after nm op Hn Hop.
  assert (H1 : parse_requirements_txt (nm ++ op) = [mkDependency nm "latest"]).
  { rewrite parse_requirements_one_line by now apply operator_one_line.
    now apply requirement_operator_only. }
  split; [exact H1|]. split.
  - rewrite H1, parse_requirements_one_line by now apply name_token_one_line.
    symmetry. now apply requirement_name_only.
  - rewrite parse_requirements_between by now apply operator_one_line.
    now rewrite requirement_operator_only.
Qed.

Lemma operator_without_version_is_latest_witness :
  name_token "flask" = true
  /\ In "==" comparison_operators
  /\ parse_requirements_txt "flask==" = [mkDependency "flask" "latest"]
  /\ parse_requirements_txt "flask==" = parse_requirements_txt "flask"
  /\ parse_requirements_txt (between_lines "requests" "flask==" "numpy>=1.2")
     = parse_requirements_txt "requests" ++ [mkDependency "flask" "latest"]
         ++ parse_requirements_txt "numpy>=1.2".
Proof.
  split; [reflexivity|]. split; [simpl; auto|].
  apply (operator_without_version_is_latest "requests" "numpy>=1.2" "flask" "==");
    [reflexivity | simpl; auto].
Defined.

(** ** Dicts *)

Section DictFacts.
Context {V : Type}.
Implicit Types (d e : list (string * V)) (k : string) (v : V).

Lemma assoc_set_same d k v : assoc k (dict_set d k v) = Some v.
Proof.
  induction d as [|[k' v'] d IH]; simpl.
  - now rewrite String.eqb_refl.
  - destruct (k' =? k)%string eqn:E; simpl; now rewrite E.
Qed.

Lemma assoc_set_other d k k' v :
  k' <> k -> assoc k (dict_set d k' v) = assoc k d.
Proof.
  intros Hk. induction d as [|[k0 v0] d IH]; simpl.
  - apply String.eqb_neq in Hk. now rewrite Hk.
  - destruct (k0 =? k')%string eqn:E; simpl.
    + apply String.eqb_eq in E. subst k0.
      apply String.eqb_neq in Hk. now rewrite Hk.
    + now rewrite IH.
Qed.

Lemma assoc_in d k v : assoc k d = Some v -> In k (map fst d).
Proof.
  induction d as [|[k' v'] d IH]; simpl; try discriminate.
  destruct (k' =? k)%string eqn:E.
  - apply String.eqb_eq in E. auto.
  - auto.
Qed.

Lemma assoc_not_in d k : ~ In k (map fst d) -> assoc k d = None.
Proof.
  induction d as [|[k' v'] d IH]; simpl; auto.
  intros H. destruct (k' =? k)%string eqn:E.
  - apply String.eqb_eq in E. tauto.
  - tauto.
Qed.

Lemma dict_set_keys d k v :
  map fst (dict_set d k v)
  = if in_dec string_dec k (map fst d) then map fst d else map fst d ++ [k].
Proof.
  induction d as [|[k' v'] d IH]; simpl.
  - reflexivity.
  - destruct (k' =? k)%string eqn:E; simpl.
    + apply String.eqb_eq in E. subst.
      destruct (string_dec k k); [|congruence].
      reflexivity.
    + apply String.eqb_neq in E. rewrite IH.
      destruct (string_dec k' k); [congruence|].
      destruct (in_dec string_dec k (map fst d)); reflexivity.
Qed.

Lemma dict_set_nodup d k v :
  NoDup (map fst d) -> NoDup (map fst (dict_set d k v)).
Proof.
  intros H. rewrite dict_set_keys.
  destruct (in_dec string_dec k (map fst d)); auto.
  apply NoDup_app; auto.
  - repeat constructor. simpl. tauto.
  - intros x Hx [<-|[]]. tauto.
Qed.

Lemma dict_update_cons d k v e :
  dict_update d ((k, v) :: e) = dict_update (dict_set d k v) e.
Proof. reflexivity. Qed.

Lemma dict_update_nodup e d :
  NoDup (map fst d) -> NoDup (map fst (dict_update d e)).
Proof.
  revert d. induction e as [|[k v] e IH]; intros d H; auto.
  rewrite dict_update_cons. apply IH. now apply dict_set_nodup.
Qed.

Lemma dict_items_nodup d : NoDup (map fst (dict_items d)).
Proof. apply dict_update_nodup. constructor. Qed.

Lemma assoc_update_other e d k :
  ~ In k (map fst e) -> assoc k (dict_update d e) = assoc k d.
Proof.
  revert d. induction e as [|[k' v] e IH]; intros d H; simpl in H; auto.
  rewrite dict_update_cons, IH by tauto.
  apply assoc_set_other. tauto.
Qed.

(** In [{**d, **e}] the value of a key of [e] is the one [e] gives. *)
Lemma assoc_update_new e d k v :
  NoDup (map fst e) -> assoc k e = Some v -> assoc k (dict_update d e) = Some v.
Proof.
  revert d. induction e as [|[k' v'] e IH]; intros d Hn Ha; simpl in Hn, Ha.
  - discriminate.
  - inversion Hn as [|? ? Hk He]; subst.
    rewrite dict_update_cons.
    destruct (k' =? k)%string eqn:E.
    + apply String.eqb_eq in E. subst k'. injection Ha as ->.
      rewrite (assoc_update_other e) by assumption.
      apply assoc_set_same.
    + now apply IH.
Qed.

Lemma dict_set_forall (P : V -> Prop) d k v :
  Forall (fun kv => P (snd kv)) d -> P v ->
  Forall (fun kv => P (snd kv)) (dict_set d k v).
Proof.
  intros Hd Hv. induction Hd as [|[k' v'] d Hx Hd IH]; simpl.
  - repeat constructor. assumption.
  - destruct (k' =? k)%string; constructor; auto.
Qed.

Lemma dict_update_forall (P : V -> Prop) e d :
  Forall (fun kv => P (snd kv)) d -> Forall (fun kv => P (snd kv)) e ->
  Forall (fun kv => P (snd kv)) (dict_update d e).
Proof.
  intros Hd He. revert d Hd.
  induction He as [|[k v] e Hx He IH]; intros d Hd; auto.
  rewrite dict_update_cons. apply IH. now apply dict_set_forall.
Qed.

Lemma dict_items_forall (P : V -> Prop) d :
  Forall (fun kv => P (snd kv)) d -> Forall (fun kv => P (snd kv)) (dict_items d).
Proof. intros H. apply dict_update_forall; auto. Qed.

(** The one entry of a key among entries with distinct keys. *)
Lemma filter_key d k v :
  NoDup (map fst d) -> assoc k d = Some v ->
  filter (fun kv => (fst kv =? k)%string) d = [(k, v)].
Proof.
  induction d as [|[k' v'] d IH]; intros Hn Ha; simpl in *.
  - discriminate.
  - inversion Hn as [|? ? Hk Hd]; subst.
    destruct (k' =? k)%string eqn:E.
    + apply String.eqb_eq in E. subst k'. injection Ha as ->.
      f_equal. clear IH Hn Hd.
      induction d as [|[k0 v0] d IH]; simpl in *; auto.
      destruct (k0 =? k)%string eqn:E0.
      * apply String.eqb_eq in E0. tauto.
      * tauto.
    + now apply IH.
Qed.
End DictFacts.

(** ** parse_package_json and analyze_dependencies *)

Lemma all_str_forall (d : pydict) :
  all_str d = true -> Forall (fun kv => is_str (snd kv) = true) d.
Proof. intros H. apply Forall_forall. now apply forallb_forall. Qed.

Lemma merged_strings (d1 d2 : pydict) :
  all_str d1 = true -> all_str d2 = true ->
  Forall (fun kv => is_str (snd kv) = true) (merged d1 d2).
Proof.
  intros H1 H2. unfold merged.
  apply (dict_update_forall (fun v => is_str v = true));
    apply (dict_items_forall (fun v => is_str v = true)); now apply all_str_forall.
Qed.

Lemma merged_nodup (d1 d2 : pydict) : NoDup (map fst (merged d1 d2)).
Proof. apply dict_update_nodup, dict_items_nodup. Qed.

Lemma merged_dev (d1 d2 : pydict) (n : string) (v : json) :
  dict_get d2 n = Some v -> assoc n (merged d1 d2) = Some v.
Proof. intros H. apply assoc_update_new; auto using dict_items_nodup. Qed.

Lemma package_loop (items : pydict) (acc : list Dependency) :
  Forall (fun kv => is_str (snd kv) = true) items ->
  for_each package_step items acc = Ok (acc ++ map dependency_of items).
Proof.
  intros H. revert acc.
  induction H as [|[k v] items Hv _ IH]; intros acc; simpl.
  - now rewrite app_nil_r.
  - destruct v; try discriminate. unfold package_step. simpl.
    rewrite IH, <- app_assoc. reflexivity.
Qed.

Lemma filter_named (n : string) (items : pydict) :
  filter (named n) (map dependency_of items)
  = map dependency_of (filter (fun kv => (fst kv =? n)%string) items).
Proof.
  induction items as [|[k v] items IH]; simpl; auto.
  unfold named at 1. simpl. destruct (k =? n)%string; simpl; now rewrite IH.
Qed.

Lemma report_forall (rs : list DependencyAnalysis) (f : string) (deps : list Dependency) :
  Forall (fun r => dependencies r <> []) rs ->
  Forall (fun r => dependencies r <> []) (report rs f deps).
Proof.
  intros H. destruct deps as [|d deps]; simpl; auto.
  apply Forall_app. split; auto. repeat constructor. simpl. discriminate.
Qed.

Lemma report_files (rs : list DependencyAnalysis) (f : string) (deps : list Dependency) :
  map file (report rs f deps)
  = map file rs ++ match deps with [] => [] | _ => [f] end.
Proof.
  destruct deps; simpl.
  - now rewrite app_nil_r.
  - now rewrite map_app.
Qed.

Lemma package_loop_raises (items : pydict) (acc : list Dependency) (e : exn) :
  for_each package_step items acc = Raise e -> e = ValidationError.
Proof.
  revert acc. induction items as [|[k v] items IH]; intros acc; simpl.
  - discriminate.
  - unfold package_step at 1. simpl.
    destruct (pydantic_str v) as [s|e'] eqn:E; simpl.
    + apply IH.
    + intros [= <-]. destruct v; simpl in E; try congruence.
      destruct (max_str_digits <? String.length (str_of_int (Z.abs z)))%nat;
        congruence.
Qed.

Section ManifestFacts.

Variable json_loads : string -> result json.

Lemma parse_package_json_strings (content : string) (fields d1 d2 : pydict) :
  json_loads content = Ok (JObj fields) ->
  get_default fields "dependencies" (JObj []) = JObj d1 ->
  get_default fields "devDependencies" (JObj []) = JObj d2 ->
  all_str d1 = true -> all_str d2 = true ->
  parse_package_json json_loads content
  = Ok (map dependency_of (merged d1 d2)).
Proof.
  intros Hl H1 H2 S1 S2. unfold parse_package_json. rewrite Hl. simpl.
  rewrite H1, H2. simpl.
  now rewrite package_loop by now apply merged_strings.
Qed.

(** What the decoded document makes [parse_package_json] raise. *)
Lemma parse_package_json_decoded (content : string) (data : json) (e : exn) :
  json_loads content = Ok data ->
  parse_package_json json_loads content = Raise e ->
  e = AttributeError \/ e = TypeError \/ e = ValidationError.
Proof.
  intros Hl. unfold parse_package_json. rewrite Hl.
  destruct data; simpl; try (intros [= <-]; auto).
  unfold dict_unpack2.
  destruct (get_default l "dependencies" (JObj [])); simpl;
    try (intros [= <-]; auto).
  destruct (get_default l "devDependencies" (JObj [])); simpl;
    try (intros [= <-]; auto).
  intros H. apply package_loop_raises in H. auto.
Qed.

(** C5, amended: [parse_package_json] returns the empty list on a text that
    makes [json.loads] raise [JSONDecodeError], and catches nothing else:
    any other exception of [json.loads] reaches the caller as it is, a
    text that decodes to something that is no object raises
    [AttributeError], and no run ends in [JSONDecodeError]. *)
Theorem package_json_decoding_outcomes :
  forall content : string,
    (json_loads content = Raise JSONDecodeError ->
     parse_package_json json_loads content = Ok [])
    /\ (forall e : exn,
           json_loads content = Raise e -> e <> JSONDecodeError ->
           parse_package_json json_loads content = Raise e)
    /\ (forall data : json,
           json_loads content = Ok data -> is_obj data = false ->
           parse_package_json json_loads content = Raise AttributeError)
    /\ parse_package_json json_loads content <> Raise JSONDecodeError.
Proof.
  intros content. split; [|split; [|split]].
  - intros H. unfold parse_package_json. now rewrite H.
  - intros e H N. unfold parse_package_json. rewrite H.
    destruct e; try reflexivity. contradiction.
  - intros data H O. unfold parse_package_json. rewrite H.
    destruct data; simpl; auto; discriminate.
  - destruct (json_loads content) as [data|e] eqn:H.
    + intros R. apply (parse_package_json_decoded content data _ H) in R.
      destruct R as [R|[R|R]]; discriminate.
    + unfold parse_package_json. rewrite H. destruct e; discriminate.
Qed.

(** C6: in a well-formed manifest whose two mappings of names to version
    strings both bind a name, the output of [parse_package_json] has
    exactly one dependency of that name, and it carries the version of the
    development mapping. *)
Theorem dev_dependency_overrides :
  forall (content : string) (fields d1 d2 : pydict) (n : string)
         (v1 : json) (s2 : string),
    json_loads content = Ok (JObj fields) ->
    dict_get fields "dependencies" = Some (JObj d1) ->
    dict_get fields "devDependencies" = Some (JObj d2) ->
    all_str d1 = true -> all_str d2 = true ->
    dict_get d1 n = Some v1 ->
    dict_get d2 n = Some (JStr s2) ->
    exists l : list Dependency,
      parse_package_json json_loads content = Ok l
      /\ filter (named n) l = [mkDependency n s2].
Proof.
  intros content fields d1 d2 n v1 s2 Hl H1 H2 S1 S2 _ Hn.
  exists (map dependency_of (merged d1 d2)). split.
  - apply (parse_package_json_strings content fields); auto;
      unfold get_default; [now rewrite H1 | now rewrite H2].
  - rewrite filter_named.
    rewrite (filter_key _ n (JStr s2)); auto using merged_nodup, merged_dev.
Qed.

(** C9: every report of [analyze_dependencies] has a non-empty list of
    dependencies, and a recognized manifest that parses to no dependency
    has no report. *)
Theorem reports_are_never_empty :
  forall (file_contents : list (string * string))
         (reports : list DependencyAnalysis),
    analyze_dependencies json_loads file_contents = Ok reports ->
    Forall (fun r => dependencies r <> []) reports
    /\ (forall content,
           dict_get file_contents "requirements.txt" = Some content ->
           parse_requirements_txt content = [] ->
           ~ In "requirements.txt" (map file reports))
    /\ (forall content,
           dict_get file_contents "package.json" = Some content ->
           parse_package_json json_loads content = Ok [] ->
           ~ In "package.json" (map file reports)).
Proof.
  intros fc reports. unfold analyze_dependencies.
  set (first := match dict_get fc "requirements.txt" with
                | Some content => report [] "requirements.txt"
                                    (parse_requirements_txt content)
                | None => []
                end).
  assert (F1 : Forall (fun r => dependencies r <> []) first).
  { unfold first. destruct (dict_get fc "requirements.txt");
      auto using report_forall. }
  assert (N1 : ~ In "package.json" (map file first)).
  { unfold first. destruct (dict_get fc "requirements.txt") as [c|]; simpl; auto.
    rewrite report_files. simpl.
    destruct (parse_requirements_txt c); simpl; intuition discriminate. }
  assert (E1 : forall content,
             dict_get fc "requirements.txt" = Some content ->
             parse_requirements_txt content = [] -> first = []).
  { intros content Hc Hp. unfold first. now rewrite Hc, Hp. }
  clearbody first.
  destruct (dict_get fc "package.json") as [c|] eqn:Hj.
  - destruct (parse_package_json json_loads c) as [deps|e] eqn:Hp; simpl;
      [|discriminate].
    intros [= <-]. split; [now apply report_forall|]. split.
    + intros content Hc Hr. rewrite (E1 content Hc Hr), report_files. simpl.
      destruct deps; simpl; intuition discriminate.
    + intros content [= <-] Hd. rewrite Hp in Hd. injection Hd as ->.
      rewrite report_files, app_nil_r. exact N1.
  - intros [= <-]. split; [exact F1|]. split.
    + intros content Hc Hr. now rewrite (E1 content Hc Hr).
    + discriminate.
Qed.

End ManifestFacts.

Lemma package_json_decoding_outcomes_witness :
  json_loads_ref "{not json" = Raise JSONDecodeError
  /\ parse_package_json json_loads_ref "{not json" = Ok [].
Proof.
  split; [reflexivity|].
  apply (package_json_decoding_outcomes json_loads_ref "{not json").
  reflexivity.
Defined.

(** C5, counterexample: texts that are no JSON document and make
    [parse_package_json] raise. The decoder reads [NaN] as a float, which
    has no [get]; it raises [ValueError], which is not caught, on an int of
    more than 4300 digits. *)
Lemma malformed_package_json_raises :
  parse_package_json json_loads_ref "NaN" = Raise AttributeError
  /\ parse_package_json json_loads_ref "-Infinity" = Raise AttributeError
  /\ parse_package_json json_loads_ref (String "[" (nines 5000))
     = Raise ValueError.
Proof. repeat split; vm_compute; reflexivity. Qed.

Example both_buckets_run :
  parse_package_json json_loads_ref both_buckets = Ok [mkDependency "a" "2.0"].
Proof. vm_compute. reflexivity. Qed.

Lemma dev_dependency_overrides_witness :
  exists l : list Dependency,
    parse_package_json json_loads_ref both_buckets = Ok l
    /\ filter (named "a") l = [mkDependency "a" "2.0"].
Proof.
  apply (dev_dependency_overrides json_loads_ref both_buckets
           [("dependencies", JObj [("a", JStr "1.0")]);
            ("devDependencies", JObj [("a", JStr "2.0")])]
           [("a", JStr "1.0")] [("a", JStr "2.0")] "a" (JStr "1.0") "2.0");
    reflexivity.
Defined.

Lemma reports_are_never_empty_witness :
  analyze_dependencies json_loads_ref two_manifests
  = Ok [mkDependencyAnalysis "requirements.txt" [mkDependency "flask" "2.0.1"]]
  /\ Forall (fun r => dependencies r <> [])
       [mkDependencyAnalysis "requirements.txt" [mkDependency "flask" "2.0.1"]]
  /\ ~ In "package.json"
       (map file
          [mkDependencyAnalysis "requirements.txt" [mkDependency "flask" "2.0.1"]]).
Proof.
  split; [reflexivity|].
  destruct (reports_are_never_empty json_loads_ref two_manifests
              [mkDependencyAnalysis "requirements.txt"
                 [mkDependency "flask" "2.0.1"]] eq_refl) as (H1 & _ & H3).
  split; [exact H1|].
  apply (H3 "{}"); reflexivity.
Defined.

(** ** Numbers *)

Section Numbers.
Local Open Scope Q_scope.


Lemma two_not_0 : ~ 2 == 0.
Proof. intros H. discriminate H. Qed.

Lemma pow2_pos (e : Z) : 0 < pow2 e.
Proof. apply Qpower_0_lt. reflexivity. Qed.

Lemma pow2_add (a b : Z) : pow2 (a + b) == pow2 a * pow2 b.
Proof. apply Qpower_plus, two_not_0. Qed.

Lemma pow2_le (a b : Z) : (a <= b)%Z -> pow2 a <= pow2 b.
Proof. intros H. apply Qpower_le_compat_l; [exact H | discriminate]. Qed.

Lemma pow2_lt_inv (a b : Z) : pow2 a < pow2 b -> (a < b)%Z.
Proof. intros H. apply (Qpower_lt_compat_l_inv 2); [exact H | reflexivity]. Qed.

Lemma pow2_int (e : Z) : (0 <= e)%Z -> pow2 e == inject_Z (2 ^ e).
Proof. intros H. unfold pow2. now rewrite Zpower_Qpower. Qed.

Lemma pow2_0 : pow2 0 == 1.
Proof. reflexivity. Qed.

Lemma pow2_succ (e : Z) : pow2 (e + 1) == 2 * pow2 e.
Proof. rewrite pow2_add. change (pow2 1) with 2. ring. Qed.


Lemma pow2_frac (e : Z) :
  pow2 e == 2 ^ Z.max 0 e # Z.to_pos (2 ^ Z.max 0 (- e)).
Proof.
  destruct (Z.le_gt_cases 0 e) as [H|H].
  - rewrite Z.max_r by lia. rewrite (Z.max_l 0 (- e)) by lia.
    rewrite pow2_int by exact H. reflexivity.
  - rewrite Z.max_l by lia. rewrite (Z.max_r 0 (- e)) by lia.
    assert (E : pow2 e == / pow2 (- e)).
    { unfold pow2. rewrite <- Qpower_opp. now rewrite Z.opp_involutive. }
    rewrite E, pow2_int by lia.
    assert (P : (0 < 2 ^ (- e))%Z) by (apply Z.pow_pos_nonneg; lia).
    destruct (2 ^ (- e))%Z as [|p|p]; try lia. reflexivity.
Qed.

Lemma frac_lt_pow2 (a : Z) (d : positive) (e : Z) :
  (a * 2 ^ Z.max 0 (- e) <? Zpos d * 2 ^ Z.max 0 e)%Z = true <-> a # d < pow2 e.
Proof.
  rewrite pow2_frac. unfold Qlt. cbn [Qnum Qden]. rewrite Z.ltb_lt.
  assert (P : (0 < 2 ^ Z.max 0 (- e))%Z) by (apply Z.pow_pos_nonneg; lia).
  rewrite Z2Pos.id by exact P. rewrite (Z.mul_comm (Zpos d)). reflexivity.
Qed.

Lemma log2_pow2 (n : Z) :
  (0 < n)%Z ->
  pow2 (Z.log2 n) <= inject_Z n /\ inject_Z n < pow2 (Z.log2 n + 1).
Proof.
  intros H. destruct (Z.log2_spec n H) as [L U].
  pose proof (Z.log2_nonneg n) as N.
  rewrite !pow2_int by lia. rewrite <- Zle_Qle, <- Zlt_Qlt.
  split; [exact L | exact U].
Qed.

Lemma ilog2_spec (x : Q) :
  ~ x == 0 -> pow2 (ilog2 x) <= Qabs x /\ Qabs x < pow2 (ilog2 x + 1).
Proof.
  intros Hx. destruct x as [n d]. unfold ilog2. cbn [Qnum Qden Qabs].
  assert (Hn : (0 < Z.abs n)%Z).
  { destruct n; try (simpl; lia). exfalso. apply Hx. reflexivity. }
  set (a := Z.abs n) in *.
  set (l := (Z.log2 a - Z.log2 (Zpos d))%Z).
  destruct (log2_pow2 a Hn) as [La Ua].
  destruct (log2_pow2 (Zpos d) eq_refl) as [Ld Ud].
  assert (Dq : 0 < inject_Z (Zpos d)) by reflexivity.
  assert (E : a # d == inject_Z a / inject_Z (Zpos d)) by apply Qmake_Qdiv.
  assert (E1 : pow2 (Z.log2 a) == pow2 (l - 1) * pow2 (Z.log2 (Zpos d) + 1)).
  { rewrite <- pow2_add. unfold l. apply Qpower_comp; [reflexivity | lia]. }
  assert (E2 : pow2 (Z.log2 a + 1) == pow2 (l + 1) * pow2 (Z.log2 (Zpos d))).
  { rewrite <- pow2_add. unfold l. apply Qpower_comp; [reflexivity | lia]. }
  pose proof (pow2_pos (l - 1)) as P1. pose proof (pow2_pos (l + 1)) as P2.
  assert (Lo : pow2 (l - 1) <= a # d).
  { rewrite E. apply Qle_shift_div_l; [exact Dq|].
    apply Qle_trans with (pow2 (l - 1) * pow2 (Z.log2 (Zpos d) + 1)).
    - apply Qmult_le_l; [exact P1 | apply Qlt_le_weak; exact Ud].
    - rewrite <- E1. exact La. }
  assert (Hi : a # d < pow2 (l + 1)).
  { rewrite E. apply Qlt_shift_div_r; [exact Dq|].
    apply Qlt_le_trans with (pow2 (l + 1) * pow2 (Z.log2 (Zpos d))).
    - rewrite <- E2. exact Ua.
    - apply Qmult_le_l; [exact P2 | exact Ld]. }
  destruct (a * 2 ^ Z.max 0 (- l) <? Zpos d * 2 ^ Z.max 0 l)%Z eqn:T.
  - apply frac_lt_pow2 in T. split; [exact Lo|].
    replace (l - 1 + 1)%Z with l by lia. exact T.
  - split; [|exact Hi].
    apply Qnot_lt_le. intros C. apply frac_lt_pow2 in C. congruence.
Qed.

Lemma ilog2_unique (x : Q) (e : Z) :
  pow2 e <= Qabs x -> Qabs x < pow2 (e + 1) -> ilog2 x = e.
Proof.
  intros L U.
  assert (Hx : ~ x == 0).
  { intros H. rewrite (Qabs_wd _ _ H) in L. pose proof (pow2_pos e).
    change (Qabs 0) with 0 in L. lra. }
  destruct (ilog2_spec x Hx) as [L' U'].
  assert (A : (ilog2 x < e + 1)%Z) by (apply pow2_lt_inv; lra).
  assert (B : (e < ilog2 x + 1)%Z) by (apply pow2_lt_inv; lra).
  lia.
Qed.

Lemma ilog2_comp (x y : Q) : ~ y == 0 -> x == y -> ilog2 x = ilog2 y.
Proof.
  intros N H. destruct (ilog2_spec y N) as [L U].
  apply ilog2_unique; rewrite (Qabs_wd _ _ H); assumption.
Qed.

Lemma ilog2_opp (x : Q) : ilog2 (- x) = ilog2 x.
Proof. destruct x as [n d]. unfold ilog2. simpl. now rewrite Z.abs_opp. Qed.

Lemma ilog2_le (x y : Q) :
  ~ x == 0 -> Qabs x <= Qabs y -> (ilog2 x <= ilog2 y)%Z.
Proof.
  intros Hx H.
  assert (Hy : ~ y == 0).
  { intros Z. rewrite (Qabs_wd _ _ Z) in H. change (Qabs 0) with 0 in H.
    destruct (ilog2_spec x Hx) as [L _]. pose proof (pow2_pos (ilog2 x)). lra. }
  destruct (ilog2_spec x Hx) as [L _]. destruct (ilog2_spec y Hy) as [_ U].
  assert (A : (ilog2 x < ilog2 y + 1)%Z) by (apply pow2_lt_inv; lra).
  lia.
Qed.

(** ** Rounding to the nearest integer, ties to even *)

Lemma round_half_even_comp (q1 q2 : Q) :
  q1 == q2 -> round_half_even q1 = round_half_even q2.
Proof.
  intros H. unfold round_half_even.
  rewrite (Qfloor_comp _ _ H).
  assert (E : q1 - inject_Z (Qfloor q2) == q2 - inject_Z (Qfloor q2))
    by now rewrite H.
  now rewrite (Qcompare_comp _ _ E (1 # 2) (1 # 2) (Qeq_refl _)).
Qed.

Lemma round_half_even_near (q : Q) :
  inject_Z (round_half_even q) - (1 # 2) <= q
  /\ q <= inject_Z (round_half_even q) + (1 # 2).
Proof.
  unfold round_half_even.
  pose proof (Qfloor_le q) as Hlo. pose proof (Qlt_floor q) as Hhi.
  rewrite inject_Z_plus in Hhi. change (inject_Z 1) with 1 in Hhi.
  destruct (q - inject_Z (Qfloor q) ?= 1 # 2) eqn:E.
  - apply Qeq_alt in E.
    destruct (Z.even (Qfloor q)); [|rewrite inject_Z_plus; change (inject_Z 1) with 1];
      split; lra.
  - apply Qlt_alt in E. split; lra.
  - apply Qgt_alt in E. rewrite inject_Z_plus. change (inject_Z 1) with 1.
    split; lra.
Qed.

Lemma round_half_even_between (a b : Z) (q : Q) :
  inject_Z a <= q -> q <= inject_Z b ->
  (a <= round_half_even q <= b)%Z.
Proof.
  intros Ha Hb.
  pose proof (Qfloor_le q) as Hlo. pose proof (Qlt_floor q) as Hhi.
  assert (Fa : (a <= Qfloor q)%Z).
  { rewrite <- (Qfloor_Z a). now apply Qfloor_resp_le. }
  assert (Fb : (Qfloor q <= b)%Z).
  { rewrite <- (Qfloor_Z b). now apply Qfloor_resp_le. }
  assert (Up : inject_Z (Qfloor q) < q -> (Qfloor q + 1 <= b)%Z).
  { intros Hlt. assert (L : inject_Z (Qfloor q) < inject_Z b) by lra.
    rewrite <- Zlt_Qlt in L. lia. }
  unfold round_half_even.
  destruct (q - inject_Z (Qfloor q) ?= 1 # 2) eqn:E.
  - apply Qeq_alt in E. destruct (Z.even (Qfloor q)); [lia|].
    split; [lia|]. apply Up. lra.
  - lia.
  - apply Qgt_alt in E. split; [lia|]. apply Up. lra.
Qed.

Lemma round_half_even_int (n : Z) : round_half_even (inject_Z n) = n.
Proof.
  pose proof (round_half_even_between n n (inject_Z n)
                (Qle_refl _) (Qle_refl _)) as H.
  lia.
Qed.

Lemma inject_Z_pred (k : Z) : inject_Z (k - 1) == inject_Z k - 1.
Proof. unfold Qeq. simpl. lia. Qed.

Lemma inject_Z_succ (k : Z) : inject_Z (k + 1) == inject_Z k + 1.
Proof. unfold Qeq. simpl. lia. Qed.

(** The integer within a half of [q], the even one of two, is the rounded
    value. *)
Lemma round_half_even_unique (q : Q) (k : Z) :
  inject_Z k - (1 # 2) <= q -> q <= inject_Z k + (1 # 2) ->
  (q == inject_Z k - (1 # 2) \/ q == inject_Z k + (1 # 2) -> Z.even k = true) ->
  round_half_even q = k.
Proof.
  intros Lo Hi Ev.
  pose proof (Qfloor_le q) as Hlo. pose proof (Qlt_floor q) as Hhi.
  assert (F : (k - 1 <= Qfloor q <= k)%Z).
  { split.
    - assert (B : inject_Z (k - 1) < inject_Z (Qfloor q + 1)).
      { rewrite inject_Z_pred. lra. }
      rewrite <- Zlt_Qlt in B. lia.
    - assert (A : inject_Z (Qfloor q) < inject_Z (k + 1)).
      { rewrite inject_Z_succ. lra. }
      rewrite <- Zlt_Qlt in A. lia. }
  rewrite inject_Z_succ in Hhi.
  unfold round_half_even.
  assert (C : Qfloor q = k \/ Qfloor q = (k - 1)%Z) by lia.
  destruct C as [C|C]; rewrite C in *.
  - destruct (q - inject_Z k ?= 1 # 2) eqn:E.
    + apply Qeq_alt in E. rewrite Ev; [reflexivity|]. right. lra.
    + reflexivity.
    + apply Qgt_alt in E. lra.
  - rewrite inject_Z_pred in Hlo, Hhi.
    destruct (q - inject_Z (k - 1) ?= 1 # 2) eqn:E.
    + apply Qeq_alt in E. rewrite inject_Z_pred in E.
      assert (Ek : Z.even k = true) by (apply Ev; left; lra).
      replace (Z.even (k - 1)) with (negb (Z.even k)).
      * rewrite Ek. simpl. lia.
      * replace (k - 1)%Z with (Z.pred k) by lia. now rewrite Z.even_pred, Z.negb_even.
    + apply Qlt_alt in E. rewrite inject_Z_pred in E. lra.
    + lia.
Qed.

Lemma round_half_even_spec (q : Q) :
  q == inject_Z (round_half_even q) - (1 # 2)
  \/ q == inject_Z (round_half_even q) + (1 # 2) ->
  Z.even (round_half_even q) = true.
Proof.
  unfold round_half_even.
  pose proof (Qfloor_le q) as Hlo. pose proof (Qlt_floor q) as Hhi.
  rewrite inject_Z_plus in Hhi. change (inject_Z 1) with 1 in Hhi.
  destruct (q - inject_Z (Qfloor q) ?= 1 # 2) eqn:E.
  - apply Qeq_alt in E. destruct (Z.even (Qfloor q)) eqn:V; [auto|].
    intros _. replace (Qfloor q + 1)%Z with (Z.succ (Qfloor q)) by lia.
    rewrite Z.even_succ, <- Z.negb_even, V. reflexivity.
  - apply Qlt_alt in E. intros [H|H]; lra.
  - apply Qgt_alt in E. rewrite inject_Z_plus. change (inject_Z 1) with 1.
    intros [H|H]; lra.
Qed.

Lemma round_half_even_opp (q : Q) :
  round_half_even (- q) = (- round_half_even q)%Z.
Proof.
  destruct (round_half_even_near q) as [L U].
  pose proof (round_half_even_spec q) as S.
  apply round_half_even_unique.
  - rewrite inject_Z_opp. lra.
  - rewrite inject_Z_opp. lra.
  - rewrite inject_Z_opp, Z.even_opp. intros [H|H]; apply S; [right|left]; lra.
Qed.

Lemma round_half_even_mono (a b : Q) :
  a <= b -> (round_half_even a <= round_half_even b)%Z.
Proof.
  intros H.
  destruct (round_half_even_near a) as [La Ua].
  destruct (round_half_even_near b) as [Lb Ub].
  pose proof (round_half_even_spec a) as Sa.
  pose proof (round_half_even_spec b) as Sb.
  set (x := round_half_even a) in *. set (y := round_half_even b) in *.
  destruct (Z.le_gt_cases x y) as [C|C]; [exact C|exfalso].
  assert (D : inject_Z y + 1 <= inject_Z x).
  { assert (y + 1 <= x)%Z by lia.
    rewrite Zle_Qle, inject_Z_plus in H0. exact H0. }
  assert (Ex : inject_Z x == inject_Z y + 1) by lra.
  assert (Ea : a == inject_Z x - (1 # 2)) by lra.
  assert (Eb : b == inject_Z y + (1 # 2)) by lra.
  assert (Vx : Z.even x = true) by (apply Sa; now left).
  assert (Vy : Z.even y = true) by (apply Sb; now right).
  assert (Exy : x = (y + 1)%Z).
  { apply inject_Z_injective. rewrite inject_Z_plus. exact Ex. }
  rewrite Exy in Vx. replace (y + 1)%Z with (Z.succ y) in Vx by lia.
  rewrite Z.even_succ, <- Z.negb_even, Vy in Vx. discriminate.
Qed.


(** ** Rounding to binary64 *)

Lemma pow2_le_inv (a b : Z) : pow2 a <= pow2 b -> (a <= b)%Z.
Proof. intros H. apply (Qpower_le_compat_l_inv 2); [exact H | reflexivity]. Qed.

Lemma pow2_opp (e : Z) : pow2 (- e) * pow2 e == 1.
Proof. rewrite <- pow2_add. replace (- e + e)%Z with 0%Z by lia. reflexivity. Qed.

Lemma pow2_not_0 (e : Z) : ~ pow2 e == 0.
Proof. pose proof (pow2_pos e). lra. Qed.

Lemma rnd64_zero (x : Q) : x == 0 -> rnd64 x = 0.
Proof. intros H. unfold rnd64. apply Qeq_bool_iff in H. now rewrite H. Qed.

Lemma rnd64_eq (x : Q) :
  ~ x == 0 ->
  rnd64 x == inject_Z (round_half_even (x / pow2 (ulp_exp x))) * pow2 (ulp_exp x).
Proof.
  intros H. unfold rnd64. destruct (Qeq_bool x 0) eqn:E.
  - apply Qeq_bool_iff in E. contradiction.
  - apply Qred_correct.
Qed.

Lemma rnd64_comp (x y : Q) : x == y -> rnd64 x = rnd64 y.
Proof.
  intros H. unfold rnd64.
  destruct (Qeq_bool y 0) eqn:E.
  - apply Qeq_bool_iff in E. assert (E' : x == 0) by now rewrite H.
    apply Qeq_bool_iff in E'. now rewrite E'.
  - pose proof (Qeq_bool_neq _ _ E) as N.
    assert (N' : ~ x == 0) by now rewrite H.
    destruct (Qeq_bool x 0) eqn:E'; [apply Qeq_bool_iff in E'; contradiction|].
    unfold ulp_exp. rewrite (ilog2_comp x y N H).
    apply Qred_complete.
    rewrite (round_half_even_comp (x / pow2 (Z.max (ilog2 y - 52) (-1074)))
               (y / pow2 (Z.max (ilog2 y - 52) (-1074)))); [reflexivity|].
    now rewrite H.
Qed.



Lemma round_half_even_le (q : Q) (m : Z) :
  q <= inject_Z m -> (round_half_even q <= m)%Z.
Proof.
  intros H. rewrite <- (round_half_even_int m). now apply round_half_even_mono.
Qed.

Lemma round_half_even_ge (q : Q) (m : Z) :
  inject_Z m <= q -> (m <= round_half_even q)%Z.
Proof.
  intros H. rewrite <- (round_half_even_int m) at 1. now apply round_half_even_mono.
Qed.

Lemma rnd64_grid_le (x : Q) (m : Z) :
  x <= inject_Z m * pow2 (ulp_exp x) -> rnd64 x <= inject_Z m * pow2 (ulp_exp x).
Proof.
  intros H. destruct (Qeq_dec x 0) as [Z|N].
  - rewrite (rnd64_zero x Z). lra.
  - rewrite (rnd64_eq x N). pose proof (pow2_pos (ulp_exp x)) as P.
    apply Qmult_le_r; [exact P|]. rewrite <- Zle_Qle.
    apply round_half_even_le. apply Qle_shift_div_r; assumption.
Qed.

Lemma rnd64_grid_ge (x : Q) (m : Z) :
  inject_Z m * pow2 (ulp_exp x) <= x -> inject_Z m * pow2 (ulp_exp x) <= rnd64 x.
Proof.
  intros H. destruct (Qeq_dec x 0) as [Z|N].
  - rewrite (rnd64_zero x Z). lra.
  - rewrite (rnd64_eq x N). pose proof (pow2_pos (ulp_exp x)) as P.
    apply Qmult_le_r; [exact P|]. rewrite <- Zle_Qle.
    apply round_half_even_ge. apply Qle_shift_div_l; assumption.
Qed.

(** The rounding error is at most half the spacing. *)
Lemma rnd64_error (x : Q) :
  Qabs (rnd64 x - x) <= pow2 (ulp_exp x) * (1 # 2).
Proof.
  pose proof (pow2_pos (ulp_exp x)) as P.
  destruct (Qeq_dec x 0) as [Z|N].
  - rewrite (rnd64_zero x Z). apply Qabs_Qle_condition. lra.
  - rewrite (rnd64_eq x N).
    destruct (round_half_even_near (x / pow2 (ulp_exp x))) as [L U].
    set (k := inject_Z (round_half_even (x / pow2 (ulp_exp x)))) in *.
    assert (E : x == x / pow2 (ulp_exp x) * pow2 (ulp_exp x)).
    { field. apply pow2_not_0. }
    set (y := x / pow2 (ulp_exp x)) in *.
    set (p := pow2 (ulp_exp x)) in *.
    assert (H1 : (k - y) * p <= (1 # 2) * p)
      by (apply Qmult_le_r; [exact P | lra]).
    assert (H2 : - (1 # 2) * p <= (k - y) * p)
      by (apply Qmult_le_r; [exact P | lra]).
    assert (E' : k * p - x == (k - y) * p) by (rewrite E at 1; ring).
    apply Qabs_Qle_condition. rewrite E'. split; lra.
Qed.

Lemma ulp_exp_small (x : Q) (e : Z) :
  ~ x == 0 -> Qabs x <= pow2 e -> (ulp_exp x <= Z.max (e - 52) (-1074))%Z.
Proof.
  intros N H. destruct (ilog2_spec x N) as [L _].
  assert (ilog2 x <= e)%Z by (apply pow2_le_inv; lra).
  unfold ulp_exp. lia.
Qed.

(** Integers of at most 52 bits are on every grid below them. *)
Lemma int_on_grid (a : Z) (u : Z) :
  (u <= 0)%Z -> inject_Z a == inject_Z (a * 2 ^ (- u)) * pow2 u.
Proof.
  intros H. rewrite inject_Z_mult, <- pow2_int by lia.
  rewrite <- Qmult_assoc, pow2_opp. ring.
Qed.

Lemma rnd64_between (a b : Z) (x : Q) :
  (Z.abs a <= 2 ^ 52)%Z -> (Z.abs b <= 2 ^ 52)%Z ->
  inject_Z a <= x -> x <= inject_Z b ->
  inject_Z a <= rnd64 x /\ rnd64 x <= inject_Z b.
Proof.
  intros Ha Hb La Ub.
  destruct (Qeq_dec x 0) as [Z|N].
  - rewrite (rnd64_zero x Z). lra.
  - assert (U : (ulp_exp x <= 0)%Z).
    { assert (B : Qabs x <= pow2 52).
      { rewrite pow2_int by lia. apply Qabs_Qle_condition.
        assert (A1 : inject_Z (- (2 ^ 52)) <= inject_Z a) by (rewrite <- Zle_Qle; lia).
        assert (B1 : inject_Z b <= inject_Z (2 ^ 52)) by (rewrite <- Zle_Qle; lia).
        rewrite inject_Z_opp in A1. lra. }
      pose proof (ulp_exp_small x 52 N B). lia. }
    split.
    + rewrite (int_on_grid a _ U). apply rnd64_grid_ge.
      rewrite <- (int_on_grid a _ U). exact La.
    + rewrite (int_on_grid b _ U). apply rnd64_grid_le.
      rewrite <- (int_on_grid b _ U). exact Ub.
Qed.

Lemma Qred_int (n : Z) : Qred (inject_Z n) = inject_Z n.
Proof.
  unfold Qred, inject_Z.
  pose proof (Z.ggcd_gcd n 1) as G.
  pose proof (Z.ggcd_correct_divisors n 1) as D.
  destruct (Z.ggcd n 1) as (g & aa & bb). simpl in *.
  rewrite Z.gcd_1_r in G. subst g. destruct D as [D1 D2].
  assert (Ea : aa = n) by lia. assert (Eb : bb = 1%Z) by lia.
  rewrite Ea, Eb. reflexivity.
Qed.

Lemma rnd64_int (n : Z) :
  (Z.abs n <= 2 ^ 52)%Z -> rnd64 (inject_Z n) = inject_Z n.
Proof.
  intros H.
  destruct (rnd64_between n n (inject_Z n) H H (Qle_refl _) (Qle_refl _)) as [L U].
  assert (E : rnd64 (inject_Z n) == inject_Z n) by lra.
  unfold rnd64 in *. destruct (Qeq_bool (inject_Z n) 0) eqn:Z.
  - apply Qeq_bool_iff in Z. unfold Qeq in Z. simpl in Z.
    assert (n = 0%Z) by lia. subst. reflexivity.
  - apply eq_trans with (Qred (inject_Z n)); [|apply Qred_int].
    apply Qred_complete. rewrite Qred_correct in E. exact E.
Qed.

Lemma ulp_exp_opp (x : Q) : ulp_exp (- x) = ulp_exp x.
Proof. unfold ulp_exp. now rewrite ilog2_opp. Qed.

Lemma rnd64_opp (x : Q) : rnd64 (- x) == - rnd64 x.
Proof.
  destruct (Qeq_dec x 0) as [Z|N].
  - rewrite (rnd64_zero x Z). rewrite rnd64_zero; [reflexivity | lra].
  - assert (N' : ~ - x == 0) by lra.
    rewrite (rnd64_eq x N), (rnd64_eq _ N'), ulp_exp_opp.
    rewrite (round_half_even_comp (- x / pow2 (ulp_exp x))
               (- (x / pow2 (ulp_exp x)))).
    + rewrite round_half_even_opp, inject_Z_opp. ring.
    + field. apply pow2_not_0.
Qed.

Lemma rnd64_nonneg (x : Q) : 0 <= x -> 0 <= rnd64 x.
Proof.
  intros H. pose proof (rnd64_grid_ge x 0) as G.
  rewrite Qmult_0_l in G. auto.
Qed.

Lemma rnd64_nonpos (x : Q) : x <= 0 -> rnd64 x <= 0.
Proof.
  intros H. pose proof (rnd64_grid_le x 0) as G.
  rewrite Qmult_0_l in G. auto.
Qed.

Lemma rnd64_mono_pos (x y : Q) : 0 < x -> x <= y -> rnd64 x <= rnd64 y.
Proof.
  intros Hx Hxy.
  assert (Nx : ~ x == 0) by lra. assert (Ny : ~ y == 0) by lra.
  assert (Ax : Qabs x == x) by (apply Qabs_pos; lra).
  assert (Ay : Qabs y == y) by (apply Qabs_pos; lra).
  assert (Le : (ilog2 x <= ilog2 y)%Z).
  { apply ilog2_le; [exact Nx | lra]. }
  destruct (ilog2_spec x Nx) as [Lx Ux]. destruct (ilog2_spec y Ny) as [Ly Uy].
  destruct (Z.eq_dec (ulp_exp x) (ulp_exp y)) as [E|D].
  - rewrite (rnd64_eq x Nx), (rnd64_eq y Ny), E.
    pose proof (pow2_pos (ulp_exp y)) as P.
    apply Qmult_le_r; [exact P|]. rewrite <- Zle_Qle.
    apply round_half_even_mono.
    apply Qmult_le_r; [apply Qinv_lt_0_compat; exact P | exact Hxy].
  - assert (Lt : (ilog2 x + 1 <= ilog2 y)%Z) by (unfold ulp_exp in D; lia).
    assert (Uy' : ulp_exp y = (ilog2 y - 52)%Z) by (unfold ulp_exp in *; lia).
    assert (Hux : (ulp_exp x <= ilog2 y)%Z) by (unfold ulp_exp in *; lia).
    (* the boundary 2^(ilog2 y) is on both grids *)
    assert (Bx : pow2 (ilog2 y)
                 == inject_Z (2 ^ (ilog2 y - ulp_exp x)) * pow2 (ulp_exp x)).
    { rewrite <- pow2_int by lia. rewrite <- pow2_add.
      apply Qpower_comp; [reflexivity | lia]. }
    assert (By : pow2 (ilog2 y) == inject_Z (2 ^ 52) * pow2 (ulp_exp y)).
    { rewrite <- pow2_int by lia. rewrite <- pow2_add.
      apply Qpower_comp; [reflexivity | lia]. }
    apply Qle_trans with (pow2 (ilog2 y)).
    + rewrite Bx. apply rnd64_grid_le. rewrite <- Bx.
      apply Qle_trans with (pow2 (ilog2 x + 1)); [lra | now apply pow2_le].
    + rewrite By. apply rnd64_grid_ge. rewrite <- By. lra.
Qed.

(** Rounding to binary64 is monotone. *)
Lemma rnd64_mono (x y : Q) : x <= y -> rnd64 x <= rnd64 y.
Proof.
  intros H.
  destruct (Qlt_le_dec 0 x) as [Px|Nx].
  - now apply rnd64_mono_pos.
  - destruct (Qlt_le_dec y 0) as [Ny|Py].
    + assert (M : rnd64 (- y) <= rnd64 (- x)) by (apply rnd64_mono_pos; lra).
      rewrite !rnd64_opp in M. lra.
    + pose proof (rnd64_nonpos x Nx). pose proof (rnd64_nonneg y Py). lra.
Qed.

(** ** Floats within bounds *)

Lemma Qltb_true (x y : Q) : Qltb x y = true <-> x < y.
Proof.
  unfold Qltb. rewrite negb_true_iff. split.
  - intros H. apply Qnot_le_lt. intros Hle.
    apply Qle_bool_iff in Hle. congruence.
  - intros H. destruct (Qle_bool y x) eqn:E; auto.
    apply Qle_bool_iff in E. apply Qlt_not_le in H. tauto.
Qed.

Lemma Qltb_false (x y : Q) : Qltb x y = false <-> y <= x.
Proof.
  unfold Qltb. rewrite negb_false_iff. apply Qle_bool_iff.
Qed.

(** A bound that is a power of two above the spacing bounds the rounding. *)
Lemma rnd64_bound (x : Q) (e : Z) :
  (-1074 <= e)%Z -> Qabs x <= pow2 e -> Qabs (rnd64 x) <= pow2 e.
Proof.
  intros He H. destruct (Qeq_dec x 0) as [Z|N].
  - rewrite (rnd64_zero x Z). change (Qabs 0) with 0.
    apply Qlt_le_weak, pow2_pos.
  - assert (U : (ulp_exp x <= e)%Z)
      by (pose proof (ulp_exp_small x e N H); lia).
    assert (G : pow2 e == inject_Z (2 ^ (e - ulp_exp x)) * pow2 (ulp_exp x)).
    { rewrite <- pow2_int by lia. rewrite <- pow2_add.
      apply Qpower_comp; [reflexivity | lia]. }
    assert (G' : - pow2 e == inject_Z (- 2 ^ (e - ulp_exp x)) * pow2 (ulp_exp x)).
    { rewrite inject_Z_opp, G. ring. }
    apply Qabs_Qle_condition in H. destruct H as [L U'].
    apply Qabs_Qle_condition. split.
    + rewrite G'. apply rnd64_grid_ge. rewrite <- G'. exact L.
    + rewrite G. apply rnd64_grid_le. rewrite <- G. exact U'.
Qed.

Lemma overflows_false (x : Q) (e : Z) :
  (-1074 <= e < 1024)%Z -> Qabs x <= pow2 e -> overflows x = false.
Proof.
  intros [He1 He2] H. unfold overflows.
  destruct (Qle_bool (pow2 1024) (Qabs (rnd64 x))) eqn:E; auto.
  apply Qle_bool_iff in E. pose proof (rnd64_bound x e He1 H) as B.
  assert (P : pow2 e < pow2 1024)
    by (apply Qpower_lt_compat_l; [exact He2 | reflexivity]).
  lra.
Qed.

Lemma to_float_finite (x : Q) (e : Z) :
  (-1074 <= e < 1024)%Z -> Qabs x <= pow2 e -> to_float x = Finite (rnd64 x).
Proof.
  intros He H. unfold to_float. now rewrite (overflows_false x e He H).
Qed.

Lemma int_bound (z : Z) (e : Z) :
  (0 <= e)%Z -> (Z.abs z <= 2 ^ e)%Z -> Qabs (inject_Z z) <= pow2 e.
Proof.
  intros He H. rewrite pow2_int by exact He.
  apply Qabs_Qle_condition. rewrite <- inject_Z_opp, <- !Zle_Qle. lia.
Qed.

Lemma between_bound (lo hi : Z) (x : Q) (e : Z) :
  (0 <= e)%Z -> (Z.abs lo <= 2 ^ e)%Z -> (Z.abs hi <= 2 ^ e)%Z ->
  inject_Z lo <= x -> x <= inject_Z hi -> Qabs x <= pow2 e.
Proof.
  intros He Hl Hh L U.
  pose proof (int_bound lo e He Hl) as Bl. pose proof (int_bound hi e He Hh) as Bh.
  apply Qabs_Qle_condition in Bl. apply Qabs_Qle_condition in Bh.
  apply Qabs_Qle_condition. lra.
Qed.

Lemma to_float_within (lo hi : Z) (x : Q) :
  (Z.abs lo <= 2 ^ 52)%Z -> (Z.abs hi <= 2 ^ 52)%Z ->
  inject_Z lo <= x -> x <= inject_Z hi ->
  to_float x = Finite (rnd64 x) /\ within lo hi (to_float x).
Proof.
  intros Hl Hh L U.
  assert (F : to_float x = Finite (rnd64 x)).
  { apply (to_float_finite x 52); [lia|].
    apply (between_bound lo hi); auto. lia. }
  split; [exact F|]. rewrite F. exists (rnd64 x). split; [reflexivity|].
  now apply rnd64_between.
Qed.

Lemma float_sub_within (a b c d : Z) (x y : pyfloat) :
  within a b x -> within c d y ->
  (Z.abs (a - d) <= 2 ^ 52)%Z -> (Z.abs (b - c) <= 2 ^ 52)%Z ->
  within (a - d) (b - c) (float_sub x y).
Proof.
  intros (p & -> & Lp & Up) (q & -> & Lq & Uq) H1 H2. unfold float_sub.
  apply to_float_within; auto.
  - unfold Z.sub. rewrite inject_Z_plus, inject_Z_opp. lra.
  - unfold Z.sub. rewrite inject_Z_plus, inject_Z_opp. lra.
Qed.

Lemma float_mul_within (x : pyfloat) :
  within 0 1 x -> within 0 20 (float_mul x (Finite 20)).
Proof.
  intros (p & -> & Lp & Up). unfold float_mul.
  change (inject_Z 0) with 0 in Lp. change (inject_Z 1) with 1 in Up.
  apply to_float_within; try (simpl; lia).
  - change (inject_Z 0) with 0. lra.
  - change (inject_Z 20) with 20. lra.
Qed.

(** The quotient of two ints [0 <= a <= b] with [0 < b]. *)
Lemma ratio_between (a b : Z) :
  (0 <= a <= b)%Z -> (0 < b)%Z ->
  0 <= inject_Z a / inject_Z b /\ inject_Z a / inject_Z b <= 1.
Proof.
  intros [Ha Hab] Hb.
  rewrite Zle_Qle in Ha, Hab. rewrite Zlt_Qlt in Hb.
  change (inject_Z 0) with 0 in *.
  split.
  - apply Qle_shift_div_l; [assumption | lra].
  - apply Qle_shift_div_r; [assumption | lra].
Qed.

Lemma true_div_within (a b : Z) :
  (0 <= a <= b)%Z -> (0 < b)%Z ->
  true_div a b = Ok (Finite (rnd64 (inject_Z a / inject_Z b)))
  /\ within 0 1 (Finite (rnd64 (inject_Z a / inject_Z b))).
Proof.
  intros Ha Hb. unfold true_div.
  assert (N : (b =? 0)%Z = false) by lia. rewrite N.
  destruct (ratio_between a b Ha Hb) as [L U].
  destruct (to_float_within 0 1 (inject_Z a / inject_Z b)) as [F W];
    try (simpl; lia); auto.
  rewrite F in *. split; [reflexivity | exact W].
Qed.

(** [round(x, 2)] of a float in [0, 100]. *)
Lemma py_round2_value (q : Q) :
  0 <= q -> q <= 100 ->
  (0 <= round_half_even (q * 100) <= 10000)%Z
  /\ py_round2 (Finite q) = Finite (rnd64 (round_half_even (q * 100) # 100))
  /\ within 0 100 (Finite (rnd64 (round_half_even (q * 100) # 100))).
Proof.
  intros L U.
  assert (K : (0 <= round_half_even (q * 100) <= 10000)%Z).
  { apply round_half_even_between.
    - change (inject_Z 0) with 0. lra.
    - change (inject_Z 10000) with 10000. lra. }
  set (k := round_half_even (q * 100)) in *.
  assert (E : k # 100 == inject_Z k * (1 # 100)).
  { unfold Qeq. simpl. lia. }
  assert (K1 : 0 <= inject_Z k) by (change 0 with (inject_Z 0); rewrite <- Zle_Qle; lia).
  assert (K2 : inject_Z k <= 10000)
    by (change 10000 with (inject_Z 10000); rewrite <- Zle_Qle; lia).
  destruct (to_float_within 0 100 (k # 100)) as [F W]; try (simpl; lia).
  - change (inject_Z 0) with 0. rewrite E. lra.
  - change (inject_Z 100) with 100. rewrite E. lra.
  - split; [exact K|]. unfold py_round2. fold k. rewrite F in *.
    split; [reflexivity | exact W].
Qed.

(** It is the float nearest to a number of hundredths at most half a
    hundredth away. *)
Lemma py_round2_within (q : Q) :
  0 <= q -> q <= 100 ->
  exists k : Z,
    (0 <= k <= 10000)%Z
    /\ py_round2 (Finite q) = Finite (rnd64 (k # 100))
    /\ within 0 100 (Finite (rnd64 (k # 100)))
    /\ (k # 100) - (1 # 200) <= q /\ q <= (k # 100) + (1 # 200).
Proof.
  intros L U. exists (round_half_even (q * 100)).
  destruct (py_round2_value q L U) as (K & R & W).
  destruct (round_half_even_near (q * 100)) as [N1 N2].
  set (k := round_half_even (q * 100)) in *.
  assert (E : k # 100 == inject_Z k * (1 # 100)).
  { unfold Qeq. simpl. lia. }
  split; [exact K|]. split; [exact R|]. split; [exact W|].
  rewrite E. split; lra.
Qed.

Lemma hundredth_positive (k : Z) : (1 <= k)%Z -> 0 < rnd64 (k # 100).
Proof.
  intros H. apply Qlt_le_trans with (rnd64 (1 # 100)).
  - vm_compute. reflexivity.
  - apply rnd64_mono. unfold Qle. simpl. lia.
Qed.

(** The floor at 0 leaves the rounded score of a float in [0, 100] as it
    is. *)
Lemma py_max0_hundredth (k : Z) :
  (0 <= k)%Z -> py_max0 (Finite (rnd64 (k # 100))) = Finite (rnd64 (k # 100)).
Proof.
  intros H. unfold py_max0, float_lt.
  destruct (Z.eq_dec k 0) as [->|N].
  - reflexivity.
  - assert (P : 0 < rnd64 (k # 100)) by (apply hundredth_positive; lia).
    apply Qltb_true in P. now rewrite P.
Qed.

Lemma overflows_nonzero (x : Q) : overflows x = true -> ~ x == 0.
Proof.
  intros H Z. unfold overflows in H. rewrite (rnd64_zero x Z) in H.
  vm_compute in H. discriminate.
Qed.

(** A float below 0 is rounded to a float that is not above 0. *)
Lemma py_round2_negative (x : pyfloat) :
  float_lt x (Finite 0) = true -> float_lt (Finite 0) (py_round2 x) = false.
Proof.
  destruct x as [q|s|]; simpl; try discriminate.
  - intros H. apply Qltb_true in H. unfold to_float.
    assert (K : (round_half_even (q * 100) <= 0)%Z).
    { apply round_half_even_le. change (inject_Z 0) with 0. lra. }
    assert (X : round_half_even (q * 100) # 100 <= 0).
    { unfold Qle. simpl. lia. }
    destruct (overflows (round_half_even (q * 100) # 100)) eqn:O.
    + pose proof (overflows_nonzero _ O) as N.
      assert (L : round_half_even (q * 100) # 100 < 0) by lra.
      apply Qltb_true in L. rewrite L. reflexivity.
    + simpl. apply Qltb_false. now apply rnd64_nonpos.
  - intros ->. reflexivity.
Qed.

Lemma py_max0_not_negative (x : pyfloat) : float_lt (py_max0 x) (Finite 0) = false.
Proof.
  unfold py_max0. destruct (float_lt (Finite 0) x) eqn:E; [|reflexivity].
  destruct x as [q|s|]; simpl in *; try discriminate.
  - apply Qltb_true in E. apply Qltb_false. lra.
  - destruct s; [discriminate | reflexivity].
Qed.

End Numbers.

(** ** calculate_activity_trends and analyze_issue_health *)

Ltac bind_step H :=
  match type of H with
  | bind ?m _ = _ =>
      let E := fresh "E" in
      let x := fresh "x" in
      destruct m as [x|] eqn:E; simpl in H; [|discriminate H]
  | (if ?b then _ else _) = _ =>
      let E := fresh "E" in destruct b eqn:E
  end.

Lemma is_open_false (st : json) : st <> JStr "open" -> is_open st = false.
Proof.
  destruct st; simpl; auto. intros H.
  apply String.eqb_neq. congruence.
Qed.

Section AggregatorFacts.

Variable fromisoformat : string -> option datetime.

Lemma commit_loop (weeks : list pydict) (totals : list Z) (acc : Z) :
  Forall2 has_total weeks totals ->
  for_each commit_step weeks (NInt acc) = Ok (NInt (acc + sum_totals totals)).
Proof.
  intros H. revert acc.
  induction H as [|w n weeks totals Hw _ IH]; intros acc; simpl.
  - now rewrite Z.add_0_r.
  - unfold commit_step at 1, getitem. rewrite Hw. simpl.
    rewrite IH. do 2 f_equal. lia.
Qed.

Lemma average_commits_spec (weeks : list pydict) (totals : list Z) :
  Forall2 has_total weeks totals -> weeks <> [] ->
  average_commits weeks
  = (avg_commits <- true_div (sum_totals totals) 52 ;; Ok (NFloat avg_commits)).
Proof.
  intros H N. destruct H as [|w n weeks totals Hw H]; [congruence|].
  unfold average_commits.
  rewrite (commit_loop (w :: weeks) (n :: totals) 0) by now constructor.
  reflexivity.
Qed.

Section Quotient.
Local Open Scope Q_scope.

Lemma commit_quotient_bound (s : Z) :
  (Z.abs s <= 10 ^ 14)%Z -> Qabs (inject_Z s / 52) <= pow2 41.
Proof.
  intros H. rewrite pow2_int by lia.
  assert (L : inject_Z (- 10 ^ 14) <= inject_Z s) by (rewrite <- Zle_Qle; lia).
  assert (U : inject_Z s <= inject_Z (10 ^ 14)) by (rewrite <- Zle_Qle; lia).
  assert (B : inject_Z (10 ^ 14) <= 52 * inject_Z (2 ^ 41))
    by (vm_compute; discriminate).
  rewrite inject_Z_opp in L.
  apply Qabs_Qle_condition. split.
  - apply Qle_shift_div_l; [reflexivity | lra].
  - apply Qle_shift_div_r; [reflexivity | lra].
Qed.

(** The quotient of a sum of at most [10 ^ 14] by 52 is a finite float, less
    than [2 ^ -12] away from the exact quotient. *)
Lemma commit_quotient (s : Z) :
  (Z.abs s <= 10 ^ 14)%Z ->
  true_div s 52 = Ok (Finite (rnd64 (inject_Z s / 52)))
  /\ Qabs (rnd64 (inject_Z s / 52) - inject_Z s / 52) <= pow2 (-12)
  /\ Qabs (rnd64 (inject_Z s / 52)) <= pow2 41.
Proof.
  intros H. pose proof (commit_quotient_bound s H) as B.
  set (x := inject_Z s / 52) in *.
  split; [|split].
  - unfold true_div. simpl (52 =? 0)%Z. cbv iota.
    change (inject_Z 52) with 52. fold x.
    now rewrite (to_float_finite x 41) by (auto; lia).
  - destruct (Qeq_dec x 0) as [Z|N].
    + rewrite (rnd64_zero x Z). rewrite Z.
      apply Qabs_Qle_condition. split; vm_compute; discriminate.
    + pose proof (rnd64_error x) as E.
      pose proof (ulp_exp_small x 41 N B) as U.
      assert (P : pow2 (ulp_exp x) <= pow2 (-11)) by (apply pow2_le; lia).
      assert (P' : pow2 (-11) * (1 # 2) == pow2 (-12)) by reflexivity.
      lra.
  - apply rnd64_bound; [lia | exact B].
Qed.

(** Rounding the float quotient to hundredths gives the hundredths nearest to
    the exact quotient: the two roundings do not add up. *)
Lemma commit_average_hundredths (s : Z) :
  (Z.abs s <= 10 ^ 14)%Z ->
  exists k : Z,
    Qabs (inject_Z k - 100 * (inject_Z s / 52)) < 1 # 2
    /\ Qabs (rnd64 (k # 100) - (k # 100)) <= pow2 (-11)
    /\ py_round2 (Finite (rnd64 (inject_Z s / 52))) = Finite (rnd64 (k # 100)).
Proof.
  intros H. destruct (commit_quotient s H) as (_ & E & B).
  set (x := inject_Z s / 52) in *. set (y := rnd64 x) in *.
  exists (round_half_even (y * 100)).
  destruct (round_half_even_near (y * 100)) as [N1 N2].
  set (k := round_half_even (y * 100)) in *.
  apply Qabs_Qle_condition in E. destruct E as [E1 E2].
  apply Qabs_Qle_condition in B. destruct B as [B1 B2].
  assert (P12 : pow2 (-12) == 1 # 4096) by reflexivity.
  assert (P41 : pow2 41 == 2199023255552) by reflexivity.
  rewrite P12 in E1, E2. rewrite P41 in B1, B2.
  assert (D : inject_Z (26 * k - 50 * s) == 26 * (inject_Z k - 100 * x)).
  { unfold Z.sub. rewrite inject_Z_plus, inject_Z_opp, !inject_Z_mult.
    unfold x. change (inject_Z 26) with 26. change (inject_Z 50) with 50.
    field. }
  assert (D1 : inject_Z (-14) < inject_Z (26 * k - 50 * s)).
  { rewrite D. change (inject_Z (-14)) with (-14). lra. }
  assert (D2 : inject_Z (26 * k - 50 * s) < inject_Z 14).
  { rewrite D. change (inject_Z 14) with 14. lra. }
  rewrite <- Zlt_Qlt in D1, D2.
  assert (D3 : (-12 <= 26 * k - 50 * s <= 12)%Z) by lia.
  destruct D3 as [D3 D4]. rewrite Zle_Qle in D3, D4. rewrite D in D3, D4.
  change (inject_Z (-12)) with (-12) in D3. change (inject_Z 12) with 12 in D4.
  assert (K : k # 100 == inject_Z k * (1 # 100)).
  { unfold Qeq. simpl. lia. }
  assert (B42 : Qabs (k # 100) <= pow2 42).
  { assert (P42 : pow2 42 == 4398046511104) by reflexivity.
    rewrite P42, K. apply Qabs_Qle_condition. split; lra. }
  split; [|split].
  - apply Qabs_Qlt_condition. split; lra.
  - destruct (Qeq_dec (k # 100) 0) as [Z|N].
    + rewrite (rnd64_zero _ Z), Z.
      apply Qabs_Qle_condition. split; vm_compute; discriminate.
    + pose proof (rnd64_error (k # 100)) as R.
      pose proof (ulp_exp_small (k # 100) 42 N B42) as U.
      assert (P : pow2 (ulp_exp (k # 100)) <= pow2 (-10)) by (apply pow2_le; lia).
      assert (P' : pow2 (-10) * (1 # 2) == pow2 (-11)) by reflexivity.
      lra.
  - unfold py_round2. fold k. apply (to_float_finite _ 42); [lia | exact B42].
Qed.

End Quotient.

(** C7, amended: for int weekly totals whose sum is at most [10 ^ 14] in
    absolute value, the average commit velocity is the float nearest to
    [k / 100], where [k / 100] is the sum of the totals divided by 52,
    whatever the number of weeks, and rounded to two decimals; that float
    is less than [2 ^ -11] away from [k / 100]. Without issues the
    aggregator returns that average with both issue counts at 0, and
    without weeks and issues it returns ActivityTrends(0.0, 0, 0). *)
Theorem commit_average_divides_by_52 :
  forall (now : Z) (weeks : list pydict) (totals : list Z),
    Forall2 has_total weeks totals ->
    Z.abs (sum_totals totals) <= 10 ^ 14 ->
    exists k : Z,
      (Qabs (inject_Z k - 100 * (inject_Z (sum_totals totals) / 52)) < 1 # 2)%Q
      /\ (Qabs (rnd64 (k # 100) - (k # 100)) <= pow2 (-11))%Q
      /\ calculate_activity_trends fromisoformat now weeks []
         = Ok (mkActivityTrends (Finite (rnd64 (k # 100))) 0 0)
      /\ (forall (issues_list : list pydict) (t : ActivityTrends),
             calculate_activity_trends fromisoformat now weeks issues_list = Ok t ->
             commits_per_week_avg t = Finite (rnd64 (k # 100)))
      /\ (weeks = [] ->
          calculate_activity_trends fromisoformat now [] []
          = Ok (mkActivityTrends (Finite 0) 0 0)).
Proof.
  intros now weeks totals H B.
  destruct weeks as [|w ws].
  - inversion H; subst. exists 0. split; [|split; [|split; [|split]]].
    + vm_compute. reflexivity.
    + vm_compute. discriminate.
    + vm_compute. reflexivity.
    + intros issues_list t. unfold calculate_activity_trends.
      cbn [average_commits bind]. intros Ht.
      destruct (for_each (trend_step fromisoformat (now - days 30)) issues_list
                  (0, 0)) as [c|]; cbn [bind] in Ht; [|discriminate].
      vm_compute in Ht. injection Ht as <-. vm_compute. reflexivity.
    + intros _. vm_compute. reflexivity.
  - destruct (commit_average_hundredths _ B) as (k & K1 & K2 & K3).
    destruct (commit_quotient _ B) as (Q1 & _).
    assert (A : average_commits (w :: ws)
                = Ok (NFloat (Finite (rnd64 (inject_Z (sum_totals totals) / 52))))).
    { rewrite (average_commits_spec _ totals H) by discriminate.
      now rewrite Q1. }
    exists k. split; [exact K1|]. split; [exact K2|].
    unfold calculate_activity_trends. rewrite A. cbn [bind for_each].
    cbn [num_round2 pydantic_float]. rewrite K3. cbn [bind fst snd].
    split; [reflexivity|]. split; [|discriminate].
    intros issues_list t Ht.
    destruct (for_each (trend_step fromisoformat (now - days 30)) issues_list
                (0, 0)) as [c|]; cbn [bind] in Ht; [|discriminate].
    injection Ht as <-. reflexivity.
Qed.

Lemma health_step_invariant (t : Z) (h h' : IssueHealth) (issue : pydict) :
  health_invariant h ->
  health_step fromisoformat t h issue = Ok h' ->
  health_invariant h'.
Proof.
  unfold health_invariant, health_step. intros [Hs Hb] H.
  repeat bind_step H; injection H as <-; simpl; auto;
    repeat match goal with |- context [if ?b then _ else _] => destruct b end;
    lia.
Qed.

Lemma health_loop_invariant (t : Z) (issues_list : list pydict) (h h' : IssueHealth) :
  health_invariant h ->
  for_each (health_step fromisoformat t) issues_list h = Ok h' ->
  health_invariant h'.
Proof.
  revert h. induction issues_list as [|i rest IH]; intros h Hh H; simpl in H.
  - now injection H as <-.
  - bind_step H.
    apply (IH x); [eapply health_step_invariant; eassumption | exact H].
Qed.

Lemma health_step_not_open (t : Z) (h : IssueHealth) (issue : pydict) (st : json) :
  dict_get issue "state" = Some st -> st <> JStr "open" ->
  health_step fromisoformat t h issue = Ok h.
Proof.
  intros Hs Hn. unfold health_step, getitem. rewrite Hs. simpl.
  now rewrite (is_open_false st Hn).
Qed.

(** C8: the counters of the issue health satisfy
    [0 <= staleIssues <= openIssues] and [0 <= bugIssues <= openIssues], and
    an issue whose state is not ["open"] changes none of them: the output is
    the one of the list without it. *)
Theorem issue_health_counts_open_issues :
  (forall (now : Z) (issues_list : list pydict) (h : IssueHealth),
      analyze_issue_health fromisoformat now issues_list = Ok h ->
      0 <= stale_issues h <= open_issues h
      /\ 0 <= bug_issues h <= open_issues h)
  /\ (forall (now : Z) (before after : list pydict) (issue : pydict) (st : json),
         dict_get issue "state" = Some st ->
         st <> JStr "open" ->
         analyze_issue_health fromisoformat now (before ++ issue :: after)
         = analyze_issue_health fromisoformat now (before ++ after)).
Proof.
  split.
  - intros now issues_list h H.
    apply (health_loop_invariant (now - days 90) issues_list (mkIssueHealth 0 0 0));
      auto.
    unfold health_invariant. simpl. lia.
  - intros now before after issue st Hs Hn. unfold analyze_issue_health.
    rewrite !for_each_app.
    destruct (for_each (health_step fromisoformat (now - days 90)) before
                (mkIssueHealth 0 0 0)) as [h|e]; simpl; auto.
    now rewrite (health_step_not_open _ _ _ st Hs Hn).
Qed.

End AggregatorFacts.

(** ** calculate_health_score *)

Lemma number_raises (x : json) (e : exn) : number x = Raise e -> e = TypeError.
Proof. destruct x; simpl; congruence. Qed.

Lemma true_div_raises (a b : Z) (e : exn) :
  true_div a b = Raise e -> e = ZeroDivisionError \/ e = OverflowError.
Proof.
  unfold true_div. destruct (b =? 0)%Z; [intros [= <-]; auto|].
  destruct (to_float (inject_Z a / inject_Z b)); intros [= <-]; auto.
Qed.

Lemma true_div_nonzero (a b : Z) (e : exn) :
  b <> 0%Z -> true_div a b = Raise e -> e = OverflowError.
Proof.
  intros N. unfold true_div.
  assert (F : (b =? 0)%Z = false) by lia. rewrite F.
  destruct (to_float (inject_Z a / inject_Z b)); intros [= <-]; auto.
Qed.

Lemma subtract_zero (score : pyfloat) : subtract score 0 = score.
Proof. reflexivity. Qed.


Lemma small_int (z : Z) : (Z.abs z <= 2000)%Z -> (Z.abs z <= 2 ^ 52)%Z.
Proof. change (2 ^ 52)%Z with 4503599627370496%Z. lia. Qed.

Section ScoreFacts.

Variable fromisoformat : string -> option datetime.
Local Open Scope Q_scope.

Lemma push_penalty_cases (now : Z) (repo_data : pydict) :
  push_penalty fromisoformat now repo_data = 0
  \/ push_penalty fromisoformat now repo_data = 10.
Proof.
  unfold push_penalty.
  destruct (p <- getitem repo_data "pushed_at" ;;
            last_push <- timestamp fromisoformat p ;;
            naive_lt last_push (now - days 90)) as [[|]|]; auto.
Qed.

Lemma commit_penalty_cases (activity : ActivityTrends) :
  commit_penalty activity = 0 \/ commit_penalty activity = 10
  \/ commit_penalty activity = 20.
Proof.
  unfold commit_penalty.
  destruct (float_lt (commits_per_week_avg activity) (Finite 1)); auto.
  destruct (float_lt (commits_per_week_avg activity) (Finite 5)); auto.
Qed.

(** The running score after the penalties on the push and on the commits. *)
Lemma first_penalties_within (now : Z) (repo_data : pydict)
  (activity : ActivityTrends) :
  within 70 100
    (subtract (subtract (Finite 100) (push_penalty fromisoformat now repo_data))
       (commit_penalty activity)).
Proof.
  destruct (push_penalty_cases now repo_data) as [P|P]; rewrite P;
    destruct (commit_penalty_cases activity) as [C|[C|C]]; rewrite C;
    (eexists; split; [vm_compute; reflexivity | split; vm_compute; discriminate]).
Qed.

(** The guard [open_issues > 0] keeps the divisor of the two divisions
    away from 0. *)
Lemma issue_penalties_raises (issues : IssueHealth) (score : pyfloat) (e : exn) :
  issue_penalties issues score = Raise e -> e = OverflowError.
Proof.
  unfold issue_penalties.
  destruct (open_issues issues >? 0)%Z eqn:G; [|discriminate].
  assert (N : open_issues issues <> 0%Z) by lia.
  destruct (true_div (stale_issues issues) (open_issues issues)) eqn:E1; simpl.
  - destruct (true_div (bug_issues issues) (open_issues issues)) eqn:E2; simpl.
    + discriminate.
    + intros [= <-]. exact (true_div_nonzero _ _ _ N E2).
  - intros [= <-]. exact (true_div_nonzero _ _ _ N E1).
Qed.

Lemma issue_penalties_skipped (issues : IssueHealth) (score : pyfloat) :
  open_issues issues = 0%Z -> issue_penalties issues score = Ok score.
Proof. intros H. unfold issue_penalties. now rewrite H. Qed.

Lemma issue_penalties_within (issues : IssueHealth) (score : pyfloat) (a b : Z) :
  health_invariant issues ->
  within a b score ->
  (Z.abs a <= 1000)%Z -> (Z.abs b <= 1000)%Z ->
  exists score' : pyfloat,
    issue_penalties issues score = Ok score' /\ within (a - 40) b score'.
Proof.
  intros [Hs Hb] W A B. unfold issue_penalties.
  destruct (open_issues issues >? 0)%Z eqn:E.
  - assert (P : (0 < open_issues issues)%Z) by lia.
    destruct (true_div_within _ _ Hs P) as [-> Ws].
    destruct (true_div_within _ _ Hb P) as [-> Wb]. simpl.
    eexists. split; [reflexivity|].
    apply float_mul_within in Ws. apply float_mul_within in Wb.
    pose proof (float_sub_within _ _ _ _ _ _ W Ws) as W1.
    assert (W1' : within (a - 20) (b - 0)
                    (float_sub score
                       (float_mul
                          (Finite (rnd64 (inject_Z (stale_issues issues)
                                          / inject_Z (open_issues issues))))
                          (Finite 20)))) by (apply W1; apply small_int; lia).
    pose proof (float_sub_within _ _ _ _ _ _ W1' Wb) as W2.
    replace (a - 40)%Z with (a - 20 - 20)%Z by lia.
    replace b with (b - 0 - 0)%Z at 1 by lia.
    apply W2; apply small_int; lia.
  - exists score. split; [reflexivity|].
    destruct W as (q & -> & Lq & Uq). exists q. split; [reflexivity|].
    split; [|exact Uq]. unfold Z.sub. rewrite inject_Z_plus.
    change (inject_Z (- (40))) with (-40). lra.
Qed.

Lemma minus_ten_within (a b : Z) (score : pyfloat) (c : bool) :
  within a b score ->
  (Z.abs a <= 1000)%Z -> (Z.abs b <= 1000)%Z ->
  within (a - 10) b (if c then float_sub score (Finite 10) else score).
Proof.
  intros W A B. destruct c.
  - assert (T : within 10 10 (Finite 10)).
    { exists 10. split; [reflexivity|]. split; apply Qle_refl. }
    assert (S : within (a - 10) (b - 10) (float_sub score (Finite 10)))
      by (apply (float_sub_within a b 10 10); auto; apply small_int; lia).
    destruct S as (q & -> & Lq & Uq).
    exists q. split; [reflexivity|]. split; [exact Lq|].
    unfold Z.sub in Uq. rewrite inject_Z_plus in Uq.
    change (inject_Z (- (10))) with (-10) in Uq. lra.
  - destruct W as (q & -> & Lq & Uq). exists q. split; [reflexivity|].
    split; [|exact Uq]. unfold Z.sub. rewrite inject_Z_plus.
    change (inject_Z (- (10))) with (-10). lra.
Qed.

(** With counters in the invariant, the score before the rounding is a
    finite float of [0, 100] as soon as the star count lets it be
    computed. *)
Lemma penalized_score_within (now : Z) (repo_data : pydict)
  (activity : ActivityTrends) (issues : IssueHealth) :
  health_invariant issues ->
  (forall stars : pynum,
      number (get_default repo_data "stargazers_count" (JInt 0)) = Ok stars ->
      exists raw : pyfloat,
        penalized_score fromisoformat now repo_data activity issues = Ok raw
        /\ within 0 100 raw)
  /\ (forall raw : pyfloat,
         penalized_score fromisoformat now repo_data activity issues = Ok raw ->
         within 0 100 raw).
Proof.
  intros Hi. unfold penalized_score.
  pose proof (first_penalties_within now repo_data activity) as W0.
  destruct (issue_penalties_within issues _ 70 100 Hi W0) as (s & -> & W1);
    try (simpl; lia).
  cbn [bind].
  assert (W : forall stars : pynum,
             within 0 100
               (if negb (truthy (get_default repo_data "description" JNull))
                then float_sub
                       (if negb (truthy (get_default repo_data "license" JNull))
                        then float_sub
                               (if num_lt stars 100
                                then float_sub s (Finite 10) else s)
                               (Finite 10)
                        else if num_lt stars 100
                             then float_sub s (Finite 10) else s)
                       (Finite 10)
                else if negb (truthy (get_default repo_data "license" JNull))
                     then float_sub
                            (if num_lt stars 100
                             then float_sub s (Finite 10) else s)
                            (Finite 10)
                     else if num_lt stars 100
                          then float_sub s (Finite 10) else s)).
  { intros stars.
    apply (minus_ten_within 10 100); try (simpl; lia).
    apply (minus_ten_within 20 100); try (simpl; lia).
    apply (minus_ten_within 30 100); try (simpl; lia).
    exact W1. }
  split.
  - intros stars ->. cbn [bind]. eexists. split; [reflexivity | apply W].
  - intros raw H.
    destruct (number (get_default repo_data "stargazers_count" (JInt 0)))
      as [stars|]; cbn [bind] in H; [|discriminate].
    injection H as <-. apply W.
Qed.

(** The scorer never raises [ZeroDivisionError]. *)
Lemma health_score_no_division_error (now : Z) (repo_data : pydict)
  (activity : ActivityTrends) (issues : IssueHealth) :
  calculate_health_score fromisoformat now repo_data activity issues
  <> Raise ZeroDivisionError.
Proof.
  unfold calculate_health_score, penalized_score.
  destruct (issue_penalties issues
              (subtract
                 (subtract (Finite 100) (push_penalty fromisoformat now repo_data))
                 (commit_penalty activity))) as [s|e] eqn:Hs; cbn [bind].
  - destruct (number (get_default repo_data "stargazers_count" (JInt 0))) eqn:E;
      cbn [bind]; try discriminate.
    apply number_raises in E. subst. discriminate.
  - apply issue_penalties_raises in Hs. subst. discriminate.
Qed.

(** C2: with [openIssues = 0] the two proportional penalties are skipped,
    whatever [staleIssues] and [bugIssues] are: the block leaves the running
    score as it is, the scorer raises no division error, and its result is
    the one it gives for IssueHealth(0, 0, 0). *)
Theorem no_open_issues_no_proportional_penalty :
  forall (now : Z) (repo_data : pydict) (activity : ActivityTrends)
         (issues : IssueHealth),
    open_issues issues = 0%Z ->
    (forall score : pyfloat, issue_penalties issues score = Ok score)
    /\ calculate_health_score fromisoformat now repo_data activity issues
       <> Raise ZeroDivisionError
    /\ calculate_health_score fromisoformat now repo_data activity issues
       = calculate_health_score fromisoformat now repo_data activity
           (mkIssueHealth 0 0 0).
Proof.
  intros now repo_data activity issues H. split; [|split].
  - intros score. now apply issue_penalties_skipped.
  - apply health_score_no_division_error.
  - unfold calculate_health_score, penalized_score.
    now rewrite !issue_penalties_skipped.
Qed.

(** C3: the result of the scorer is [max(0.0, round(raw, 2))] for the
    penalized score [raw]. It is never below 0, exactly 0 when [raw] is
    below 0, and the rounded score itself when that is above 0, with no
    ceiling at 100; for a finite [raw] it is the float nearest to a number
    of hundredths. For counters with [0 <= staleIssues <= openIssues] and
    [0 <= bugIssues <= openIssues], [raw] exists as soon as the star count
    is absent or a number, it is a finite float of [0, 100], and the result
    is the float of [0, 100] nearest to a number of hundredths that is at
    most half a hundredth away from [raw]. *)
Theorem health_score_range :
  forall (now : Z) (repo_data : pydict) (activity : ActivityTrends)
         (issues : IssueHealth),
    (wf_stars repo_data -> health_invariant issues ->
     exists raw : pyfloat,
       penalized_score fromisoformat now repo_data activity issues = Ok raw
       /\ within 0 100 raw)
    /\ (forall score : pyfloat,
           calculate_health_score fromisoformat now repo_data activity issues
           = Ok score ->
           exists raw : pyfloat,
             penalized_score fromisoformat now repo_data activity issues = Ok raw
             /\ score = py_max0 (py_round2 raw))
    /\ (forall raw : pyfloat,
           penalized_score fromisoformat now repo_data activity issues = Ok raw ->
           exists score : pyfloat,
             calculate_health_score fromisoformat now repo_data activity issues
             = Ok score
             /\ float_lt score (Finite 0) = false
             /\ (float_lt raw (Finite 0) = true -> score = Finite 0)
             /\ (float_lt (Finite 0) (py_round2 raw) = true ->
                 score = py_round2 raw)
             /\ (forall q : Q,
                    raw = Finite q ->
                    exists k : Z,
                      score = Finite 0 \/ score = to_float (k # 100))
             /\ (health_invariant issues ->
                 exists (q : Q) (k : Z),
                   raw = Finite q
                   /\ (0 <= k <= 10000)%Z
                   /\ score = Finite (rnd64 (k # 100))
                   /\ within 0 100 score
                   /\ (k # 100) - (1 # 200) <= q
                   /\ q <= (k # 100) + (1 # 200))).
Proof.
  intros now repo_data activity issues. split; [|split].
  { intros (stars & Hst) Hi.
    exact (proj1 (penalized_score_within now repo_data activity issues Hi)
             stars Hst). }
  { unfold calculate_health_score. intros score H.
    destruct (penalized_score fromisoformat now repo_data activity issues)
      as [raw|]; cbn [bind] in H; [|discriminate].
    injection H as <-. eauto. }
  intros raw Hraw.
  exists (py_max0 (py_round2 raw)).
  split.
  { unfold calculate_health_score. now rewrite Hraw. }
  split; [apply py_max0_not_negative|].
  split; [|split; [|split]].
  - intros Hneg. unfold py_max0. now rewrite (py_round2_negative raw Hneg).
  - intros Hpos. unfold py_max0. now rewrite Hpos.
  - intros q ->. exists (round_half_even (q * 100)). unfold py_max0.
    destruct (float_lt (Finite 0) (py_round2 (Finite q))); auto.
  - intros Hi.
    pose proof (proj2 (penalized_score_within now repo_data activity issues Hi)
                  raw Hraw) as (q & -> & L & U).
    change (inject_Z 0) with 0 in L. change (inject_Z 100) with 100 in U.
    destruct (py_round2_within q L U) as (k & K & R & W & N1 & N2).
    exists q, k. rewrite R, py_max0_hundredth by lia.
    repeat split; auto; lia.
Qed.

End ScoreFacts.

(** ** Inputs on which nothing is raised *)

Lemma int_total_size_nonneg (weeks : list pydict) : 0 <= int_total_size weeks.
Proof.
  induction weeks as [|w ws IH]; simpl; [lia|].
  assert (0 <= int_size (dict_get w "total")); [|lia].
  unfold int_size. destruct (dict_get w "total") as [[| [|] | | | | |]|]; lia.
Qed.

Lemma float_of_int_defined (z : Z) :
  Z.abs z <= 2 ^ 1023 ->
  float_of_int z = Ok (Finite (rnd64 (inject_Z z))).
Proof.
  intros H. unfold float_of_int.
  now rewrite (to_float_finite (inject_Z z) 1023) by (try apply int_bound; lia).
Qed.

(** A sum of ints within the range of the floats is converted without
    error when a float total comes. *)
Lemma commit_loop_defined (weeks : list pydict) (acc : pynum) (bound : Z) :
  Forall wf_week weeks ->
  (forall a : Z, acc = NInt a -> Z.abs a <= bound) ->
  0 <= bound ->
  bound + int_total_size weeks <= 2 ^ 1023 ->
  exists n : pynum,
    for_each commit_step weeks acc = Ok n
    /\ (forall a : Z, n = NInt a -> Z.abs a <= 2 ^ 1023).
Proof.
  intros H. revert acc bound.
  induction H as [|w weeks (t & m & Ht & Hm) _ IH]; intros acc bound Ha Hb Hs.
  - simpl in *. exists acc. split; [reflexivity|]. intros a E.
    specialize (Ha a E). lia.
  - cbn [for_each int_total_size] in *. unfold commit_step at 1, getitem.
    rewrite Ht in *. cbn [bind]. rewrite Hm. cbn [bind].
    pose proof (int_total_size_nonneg weeks) as P.
    assert (step : exists acc' : pynum,
               num_add acc m = Ok acc'
               /\ (forall a : Z, acc' = NInt a ->
                                 Z.abs a <= bound + int_size (Some t))).
    { destruct t as [|b|z|y| | |]; simpl in Hm; try discriminate;
        injection Hm as <-; destruct acc as [a|x]; simpl.
      - eexists. split; [reflexivity|]. intros a' [= <-].
        specialize (Ha a eq_refl). destruct b; simpl; lia.
      - rewrite float_of_int_defined
          by (change (2 ^ 1023) with (2 * 2 ^ 1022); destruct b; simpl Z.abs;
              pose proof (Z.pow_pos_nonneg 2 1022); lia).
        simpl. eexists. split; [reflexivity|]. discriminate.
      - eexists. split; [reflexivity|]. intros a' [= <-].
        specialize (Ha a eq_refl). simpl. lia.
      - cbn [int_size] in Hs. rewrite float_of_int_defined by lia. simpl.
        eexists. split; [reflexivity|]. discriminate.
      - specialize (Ha a eq_refl). cbn [int_size] in Hs.
        rewrite float_of_int_defined by lia. simpl.
        eexists. split; [reflexivity|]. discriminate.
      - eexists. split; [reflexivity|]. discriminate. }
    destruct step as (acc' & -> & Ha'). cbn [bind].
    apply (IH acc' (bound + int_size (Some t))); auto.
    + assert (0 <= int_size (Some t)); [|lia].
      unfold int_size. destruct t as [| [|] | | | | |]; lia.
    + lia.
Qed.

Lemma num_div_defined (n : pynum) :
  (forall a : Z, n = NInt a -> Z.abs a <= 2 ^ 1023) ->
  exists x : pyfloat, num_div n 52 = Ok x.
Proof.
  intros H. destruct n as [a|x]; cbn [num_div].
  - specialize (H a eq_refl). unfold true_div. simpl (52 =? 0). cbv iota.
    rewrite (to_float_finite _ 1023); [eauto | lia |].
    pose proof (int_bound a 1023 ltac:(lia) H) as B.
    apply Qabs_Qle_condition in B. pose proof (pow2_pos 1023) as P.
    change (inject_Z 52) with 52%Q.
    apply Qabs_Qle_condition. split.
    + apply Qle_shift_div_l; [reflexivity | lra].
    + apply Qle_shift_div_r; [reflexivity | lra].
  - rewrite float_of_int_defined by (simpl; lia).
    rewrite rnd64_int by (simpl; lia). cbn [bind].
    destruct x; simpl; eauto.
Qed.

Lemma average_commits_defined (weeks : list pydict) :
  Forall wf_week weeks ->
  int_total_size weeks <= 2 ^ 1023 ->
  exists avg : pynum,
    average_commits weeks = Ok avg
    /\ (avg = NInt 0 \/ exists x : pyfloat, avg = NFloat x).
Proof.
  intros H B. unfold average_commits. destruct weeks as [|w ws]; [eauto|].
  destruct (commit_loop_defined (w :: ws) (NInt 0) 0 H) as (n & -> & Hn);
    try lia.
  { intros a [= <-]. simpl. lia. }
  cbn [bind]. destruct (num_div_defined n Hn) as (x & ->). cbn [bind]. eauto.
Qed.

Lemma rounded_average_defined (avg : pynum) :
  avg = NInt 0 \/ (exists x : pyfloat, avg = NFloat x) ->
  exists c : pyfloat, pydantic_float (num_round2 avg) = Ok c.
Proof.
  intros [->|(x & ->)]; cbn [num_round2 pydantic_float]; [|eauto].
  rewrite float_of_int_defined by (simpl; lia). eauto.
Qed.

Section Totality.

Variable json_loads : string -> result json.
Variable fromisoformat : string -> option datetime.

Lemma timestamp_naive (x : json) :
  naive_timestamp fromisoformat x ->
  exists t : Z, timestamp fromisoformat x = Ok (Naive t).
Proof.
  intros (s & t & -> & H). exists t.
  unfold timestamp, parse_iso. simpl. now rewrite H.
Qed.

Lemma trend_step_defined (t : Z) (counts : Z * Z) (issue : pydict) :
  wf_trend_issue fromisoformat issue ->
  exists counts' : Z * Z, trend_step fromisoformat t counts issue = Ok counts'.
Proof.
  intros (c & cl & Hc & Tc & Hcl & Tcl). destruct counts as [n k].
  unfold trend_step, getitem. rewrite Hc. simpl.
  destruct (timestamp_naive c Tc) as (tc & ->). simpl.
  rewrite Hcl. simpl.
  destruct Tcl as [F|Tcl].
  - rewrite F. eauto.
  - destruct (truthy cl); eauto.
    destruct (timestamp_naive cl Tcl) as (tcl & ->). simpl. eauto.
Qed.

Lemma trend_loop_defined (t : Z) (issues_list : list pydict) (counts : Z * Z) :
  Forall (wf_trend_issue fromisoformat) issues_list ->
  exists counts' : Z * Z,
    for_each (trend_step fromisoformat t) issues_list counts = Ok counts'.
Proof.
  intros H. revert counts.
  induction H as [|i rest Hi _ IH]; intros counts; simpl; eauto.
  destruct (trend_step_defined t counts i Hi) as (c' & ->). simpl. apply IH.
Qed.

Lemma has_bug_label_defined (labels : list json) :
  Forall wf_label labels -> exists b : bool, has_bug_label labels = Ok b.
Proof.
  induction 1 as [|l rest (d & s & -> & Hn) _ IH]; simpl; eauto.
  unfold getitem. rewrite Hn. simpl.
  destruct (contains "bug" (lower s)); eauto.
Qed.

Lemma health_step_defined (t : Z) (h : IssueHealth) (issue : pydict) :
  wf_health_issue fromisoformat issue ->
  exists h' : IssueHealth, health_step fromisoformat t h issue = Ok h'.
Proof.
  intros (st & Hst & Hopen). unfold health_step, getitem. rewrite Hst. simpl.
  destruct (is_open st); eauto.
  destruct (Hopen eq_refl) as (u & labels & Hu & Tu & Hl & Wl).
  rewrite Hu. simpl. destruct (timestamp_naive u Tu) as (tu & ->). simpl.
  rewrite Hl. simpl.
  destruct (has_bug_label_defined labels Wl) as (b & ->). simpl. eauto.
Qed.

Lemma health_loop_defined (t : Z) (issues_list : list pydict) (h : IssueHealth) :
  Forall (wf_health_issue fromisoformat) issues_list ->
  exists h' : IssueHealth,
    for_each (health_step fromisoformat t) issues_list h = Ok h'.
Proof.
  intros H. revert h.
  induction H as [|i rest Hi _ IH]; intros h; simpl; eauto.
  destruct (health_step_defined t h i Hi) as (h' & ->). simpl. apply IH.
Qed.

Lemma contributor_loop_defined (contribs : list pydict) (acc : list Contributor) :
  Forall wf_contributor contribs ->
  exists l : list Contributor, for_each contributor_step contribs acc = Ok l.
Proof.
  intros H. revert acc.
  induction H as [|c rest (s & n & Hs & Hn) _ IH]; intros acc; simpl; eauto.
  unfold contributor_step at 1, getitem. rewrite Hs, Hn. simpl. apply IH.
Qed.

Lemma parse_package_json_defined (content : string) :
  wf_manifest json_loads content ->
  exists deps : list Dependency, parse_package_json json_loads content = Ok deps.
Proof.
  intros [H|(fields & d1 & d2 & Hl & H1 & H2 & S1 & S2)].
  - exists []. unfold parse_package_json. now rewrite H.
  - eexists. now apply (parse_package_json_strings json_loads content fields d1 d2).
Qed.

(** C1, amended: on inputs that carry what each function reads, with
    numbers that fit a float, no function of the core raises, and empty
    inputs give the zero-valued or empty output; an issue without
    [created_at] makes the activity aggregator raise [KeyError], an issue
    without [state] makes the issue health aggregator raise it. *)
Theorem well_formed_inputs_never_raise :
  (forall content : string,
      wf_manifest json_loads content ->
      exists deps, parse_package_json json_loads content = Ok deps)
  /\ (forall file_contents : list (string * string),
         (forall content, dict_get file_contents "package.json" = Some content ->
                          wf_manifest json_loads content) ->
         exists reports, analyze_dependencies json_loads file_contents = Ok reports)
  /\ (forall (now : Z) (weeks issues_list : list pydict),
         Forall wf_week weeks ->
         int_total_size weeks <= 2 ^ 1023 ->
         Forall (wf_trend_issue fromisoformat) issues_list ->
         exists t, calculate_activity_trends fromisoformat now weeks issues_list = Ok t)
  /\ (forall (now : Z) (issues_list : list pydict),
         Forall (wf_health_issue fromisoformat) issues_list ->
         exists h, analyze_issue_health fromisoformat now issues_list = Ok h)
  /\ (forall contrib_data : list pydict,
         Forall wf_contributor (firstn 5 contrib_data) ->
         exists l, format_contributors contrib_data = Ok l)
  /\ (forall (now : Z) (repo_data : pydict) (activity : ActivityTrends)
             (issues : IssueHealth),
         wf_stars repo_data ->
         health_invariant issues ->
         exists score,
           calculate_health_score fromisoformat now repo_data activity issues
           = Ok score)
  /\ (forall now : Z,
         analyze_dependencies json_loads [] = Ok []
         /\ calculate_activity_trends fromisoformat now [] []
            = Ok (mkActivityTrends (Finite 0) 0 0)
         /\ analyze_issue_health fromisoformat now [] = Ok (mkIssueHealth 0 0 0)
         /\ format_contributors [] = Ok [])
  /\ (forall (now : Z) (weeks rest : list pydict) (issue : pydict),
         Forall wf_week weeks ->
         int_total_size weeks <= 2 ^ 1023 ->
         dict_get issue "created_at" = None ->
         calculate_activity_trends fromisoformat now weeks (issue :: rest)
         = Raise KeyError)
  /\ (forall (now : Z) (rest : list pydict) (issue : pydict),
         dict_get issue "state" = None ->
         analyze_issue_health fromisoformat now (issue :: rest) = Raise KeyError).
Proof.
  split; [exact parse_package_json_defined|].
  split.
  { intros fc H. unfold analyze_dependencies.
    destruct (dict_get fc "package.json") as [c|]; eauto.
    destruct (parse_package_json_defined c (H c eq_refl)) as (deps & ->).
    simpl. eauto. }
  split.
  { intros now weeks issues_list Hw Hb Hi. unfold calculate_activity_trends.
    destruct (average_commits_defined weeks Hw Hb) as (avg & -> & Ha).
    destruct (trend_loop_defined (now - days 30) issues_list (0, 0) Hi) as (c & Hc).
    cbn [bind]. rewrite Hc. cbn [bind].
    destruct (rounded_average_defined avg Ha) as (x & ->). cbn [bind]. eauto. }
  split.
  { intros now issues_list Hi. apply health_loop_defined. exact Hi. }
  split.
  { intros contrib_data H. now apply contributor_loop_defined. }
  split.
  { intros now repo_data activity issues (n & Hn) Hi.
    destruct (proj1 (penalized_score_within fromisoformat now repo_data activity
                       issues Hi) n Hn) as (raw & Hraw & _).
    unfold calculate_health_score. rewrite Hraw. simpl. eauto. }
  split.
  { intros now. split; [reflexivity|]. split; [vm_compute; reflexivity|].
    split; reflexivity. }
  split.
  { intros now weeks rest issue Hw Hb Hc. unfold calculate_activity_trends.
    destruct (average_commits_defined weeks Hw Hb) as (avg & -> & _).
    cbn [bind for_each].
    unfold trend_step at 1, getitem. now rewrite Hc. }
  intros now rest issue Hs. unfold analyze_issue_health. cbn [for_each].
  unfold health_step at 1, getitem. now rewrite Hs.
Qed.

End Totality.

(** ** Concrete runs *)

Example requirements_sample :
  parse_requirements_txt
    ("flask==2.0.1" ++ String newline "# comment" ++ String newline EmptyString
       ++ String newline "requests" ++ String newline EmptyString)%string
  = [mkDependency "flask" "2.0.1"; mkDependency "requests" "latest"].
Proof. vm_compute. reflexivity. Qed.

(** Three weeks with 104 commits give 2.0 commits per week, not 34.67. *)
Example three_weeks_average :
  calculate_activity_trends iso_basic june_2024 sample_weeks
    [stale_bug_issue; closed_issue]
  = Ok (mkActivityTrends (Finite 2) 1 1).
Proof. vm_compute. reflexivity. Qed.

(** One commit in a year: 1 / 52 is rounded to the float nearest to 0.02. *)
Example one_commit_average :
  calculate_activity_trends iso_basic june_2024 [sample_week 1] []
  = Ok (mkActivityTrends (Finite (5764607523034235 # 288230376151711744)) 0 0)
  /\ to_float (2 # 100) = Finite (5764607523034235 # 288230376151711744).
Proof. split; vm_compute; reflexivity. Qed.

(** Beyond the 53 bits of a float the quotient loses its decimals before it
    is rounded to two of them: [(10 ^ 17 + 1) / 52] is 1923076923076923.09...
    and the result is 1923076923076923.0. *)
Example large_total_loses_decimals :
  calculate_activity_trends iso_basic june_2024 [sample_week (10 ^ 17 + 1)] []
  = Ok (mkActivityTrends (Finite 1923076923076923) 0 0)
  /\ round_half_even (100 * (inject_Z (10 ^ 17 + 1) / 52)) = 192307692307692310.
Proof. split; vm_compute; reflexivity. Qed.

(** C7, counterexample: a weekly total beyond the range of the floats makes
    the division by 52 raise [OverflowError]. *)
Lemma huge_commit_total_overflows :
  calculate_activity_trends iso_basic june_2024 [sample_week (10 ^ 400)] []
  = Raise OverflowError.
Proof. vm_compute. reflexivity. Qed.

Example stale_open_issue_counted :
  analyze_issue_health iso_basic june_2024 [stale_bug_issue]
  = Ok (mkIssueHealth 1 1 1)
  /\ analyze_issue_health iso_basic june_2024
       [dict_set stale_bug_issue "state" (JStr "closed")]
     = Ok (mkIssueHealth 0 0 0).
Proof. split; vm_compute; reflexivity. Qed.

(** Every penalty at its maximum brings the score to 0. *)
Example all_penalties :
  calculate_health_score iso_basic june_2024 [] idle (mkIssueHealth 1 1 1)
  = Ok (Finite 0).
Proof. vm_compute. reflexivity. Qed.

(** Counters outside the invariant: a raw score of -20 is floored to 0, a
    raw score of 120 is returned as it is. *)
Example floor_without_ceiling :
  penalized_score iso_basic june_2024 [] idle (mkIssueHealth 1 2 1)
  = Ok (Finite (-20))
  /\ calculate_health_score iso_basic june_2024 [] idle (mkIssueHealth 1 2 1)
     = Ok (Finite 0)
  /\ calculate_health_score iso_basic june_2024 sample_repo busy
       (mkIssueHealth 1 (-1) 0)
     = Ok (Finite 120).
Proof. repeat split; vm_compute; reflexivity. Qed.

(** One stale issue among 800 open ones: the score is the float nearest to
    99.97, the rounding of 99.975 less the error of the subtraction. *)
Example rounding_follows_the_float :
  calculate_health_score iso_basic june_2024 sample_repo busy
    (mkIssueHealth 800 1 0)
  = Ok (to_float (9997 # 100))
  /\ round_half_even (100 * (100 - inject_Z 1 / inject_Z 800 * 20)) = 9998.
Proof. split; vm_compute; reflexivity. Qed.

(** Counters outside the invariant can also make a ratio too large for a
    float. *)
Example ratio_overflow :
  calculate_health_score iso_basic june_2024 sample_repo busy
    (mkIssueHealth 1 (10 ^ 400) 0)
  = Raise OverflowError.
Proof. vm_compute. reflexivity. Qed.

(** Other inputs on which a function of the core raises: a package manifest
    that is a JSON array, a star count that is [null], a contributor
    without [login], a week without [total]. *)
Example other_malformed_inputs_raise :
  parse_package_json json_loads_ref "[]" = Raise AttributeError
  /\ analyze_dependencies json_loads_ref [("package.json", "[]")]
     = Raise AttributeError
  /\ calculate_health_score iso_basic june_2024 [("stargazers_count", JNull)]
       busy (mkIssueHealth 0 0 0)
     = Raise TypeError
  /\ format_contributors [[("contributions", JInt 3)]] = Raise KeyError
  /\ calculate_activity_trends iso_basic june_2024 [[("week", JInt 0)]] []
     = Raise KeyError.
Proof. repeat split; vm_compute; reflexivity. Qed.

(** C1, counterexample: issue records with a missing timestamp, a timestamp
    that does not parse, or [null] labels make the activity aggregator and
    the issue health aggregator raise. *)
Lemma malformed_issue_records_raise :
  calculate_activity_trends iso_basic june_2024 [] [issue_without_dates]
  = Raise KeyError
  /\ analyze_issue_health iso_basic june_2024 [issue_without_dates]
     = Raise KeyError
  /\ calculate_activity_trends iso_basic june_2024 [] [issue_bad_date]
     = Raise ValueError
  /\ analyze_issue_health iso_basic june_2024 [issue_bad_date]
     = Raise ValueError
  /\ analyze_issue_health iso_basic june_2024 [issue_null_labels]
     = Raise TypeError.
Proof. repeat split; vm_compute; reflexivity. Qed.

Lemma stale_bug_issue_wf : wf_health_issue iso_basic stale_bug_issue.
Proof.
  exists (JStr "open"). split; [reflexivity|]. intros _.
  exists (JStr "2024-01-01T00:00:00Z"), [JObj [("name", JStr "Bug: crash")]].
  split; [reflexivity|]. split.
  - exists "2024-01-01T00:00:00Z", (Iso.ticks 2024 1 1 0 0 0).
    split; reflexivity.
  - split; [reflexivity|]. constructor; [|constructor].
    exists [("name", JStr "Bug: crash")], "Bug: crash". split; reflexivity.
Defined.

Lemma closed_issue_wf : wf_health_issue iso_basic closed_issue.
Proof.
  exists (JStr "closed"). split; [reflexivity|]. discriminate.
Defined.

Lemma sample_weeks_wf : Forall wf_week sample_weeks.
Proof.
  repeat constructor; eexists; eexists; split; reflexivity.
Defined.

Lemma well_formed_inputs_never_raise_witness :
  Forall (wf_health_issue iso_basic) [stale_bug_issue; closed_issue]
  /\ (exists h : IssueHealth,
         analyze_issue_health iso_basic june_2024 [stale_bug_issue; closed_issue]
         = Ok h)
  /\ Forall wf_week sample_weeks
  /\ int_total_size sample_weeks = 104
  /\ (exists t : ActivityTrends,
         calculate_activity_trends iso_basic june_2024 sample_weeks [] = Ok t)
  /\ dict_get issue_without_dates "state" = Some (JStr "open")
  /\ dict_get issue_without_dates "created_at" = None
  /\ calculate_activity_trends iso_basic june_2024 [] [issue_without_dates]
     = Raise KeyError.
Proof.
  assert (W : Forall (wf_health_issue iso_basic) [stale_bug_issue; closed_issue]).
  { constructor; [exact stale_bug_issue_wf|].
    constructor; [exact closed_issue_wf | constructor]. }
  assert (B : 104 <= 2 ^ 1023) by (vm_compute; discriminate).
  assert (B0 : 0 <= 2 ^ 1023) by (vm_compute; discriminate).
  destruct (well_formed_inputs_never_raise json_loads_ref iso_basic)
    as (_ & _ & A & H & _ & _ & _ & K & _).
  split; [exact W|]. split; [exact (H june_2024 _ W)|].
  split; [exact sample_weeks_wf|]. split; [reflexivity|].
  split; [exact (A june_2024 sample_weeks [] sample_weeks_wf B (Forall_nil _))|].
  split; [reflexivity|]. split; [reflexivity|].
  apply (K june_2024 [] [] issue_without_dates);
    [constructor | exact B0 | reflexivity].
Defined.

Lemma no_open_issues_no_proportional_penalty_witness :
  open_issues (mkIssueHealth 0 3 4) = 0
  /\ issue_penalties (mkIssueHealth 0 3 4) (Finite 70) = Ok (Finite 70)
  /\ calculate_health_score iso_basic june_2024 sample_repo busy
       (mkIssueHealth 0 3 4)
     = calculate_health_score iso_basic june_2024 sample_repo busy
         (mkIssueHealth 0 0 0).
Proof.
  split; [reflexivity|].
  destruct (no_open_issues_no_proportional_penalty iso_basic june_2024
              sample_repo busy (mkIssueHealth 0 3 4) eq_refl) as (H1 & _ & H3).
  split; [apply H1 | exact H3].
Defined.

Lemma health_score_range_witness :
  wf_stars sample_repo
  /\ health_invariant (mkIssueHealth 3 1 2)
  /\ exists raw score : pyfloat,
       penalized_score iso_basic june_2024 sample_repo busy (mkIssueHealth 3 1 2)
       = Ok raw
       /\ calculate_health_score iso_basic june_2024 sample_repo busy
            (mkIssueHealth 3 1 2) = Ok score
       /\ within 0 100 score.
Proof.
  assert (S : wf_stars sample_repo) by (exists (NInt 250); reflexivity).
  assert (I : health_invariant (mkIssueHealth 3 1 2))
    by (unfold health_invariant; simpl; lia).
  split; [exact S|]. split; [exact I|].
  destruct (health_score_range iso_basic june_2024 sample_repo busy
              (mkIssueHealth 3 1 2)) as (H1 & _ & H3).
  destruct (H1 S I) as (raw & Hraw & _).
  destruct (H3 raw Hraw) as (score & Hs & _ & _ & _ & _ & H6).
  exists raw, score. destruct (H6 I) as (q & k & _ & _ & _ & W & _).
  repeat split; assumption.
Defined.

Lemma commit_average_divides_by_52_witness :
  Forall2 has_total sample_weeks [52; 26; 26]
  /\ Z.abs (sum_totals [52; 26; 26]) <= 10 ^ 14
  /\ exists k : Z,
       (Qabs (inject_Z k - 100 * (inject_Z 104 / 52)) < 1 # 2)%Q
       /\ calculate_activity_trends iso_basic june_2024 sample_weeks []
          = Ok (mkActivityTrends (Finite (rnd64 (k # 100))) 0 0).
Proof.
  assert (H : Forall2 has_total sample_weeks [52; 26; 26])
    by (repeat constructor).
  assert (B : Z.abs (sum_totals [52; 26; 26]) <= 10 ^ 14)
    by (vm_compute; discriminate).
  split; [exact H|]. split; [exact B|].
  destruct (commit_average_divides_by_52 iso_basic june_2024 sample_weeks
              [52; 26; 26] H B) as (k & K1 & _ & K3 & _).
  exists k. split; [exact K1 | exact K3].
Defined.

Lemma issue_health_counts_open_issues_witness :
  analyze_issue_health iso_basic june_2024 [stale_bug_issue; closed_issue]
  = Ok (mkIssueHealth 1 1 1)
  /\ (0 <= 1 <= 1 /\ 0 <= 1 <= 1)
  /\ dict_get closed_issue "state" = Some (JStr "closed")
  /\ analyze_issue_health iso_basic june_2024 ([stale_bug_issue] ++ closed_issue :: [])
     = analyze_issue_health iso_basic june_2024 ([stale_bug_issue] ++ []).
Proof.
  destruct (issue_health_counts_open_issues iso_basic) as [H1 H2].
  split; [reflexivity|].
  split; [exact (H1 june_2024 [stale_bug_issue; closed_issue]
                   (mkIssueHealth 1 1 1) eq_refl)|].
  split; [reflexivity|].
  apply (H2 june_2024 [stale_bug_issue] [] closed_issue (JStr "closed"));
    [reflexivity | discriminate].
Defined.

(** * Further properties of the code *)

(** ** parse_requirements_txt *)

(** X1: The dependencies of a manifest are those of its part before a line
    break followed by those of the part after it. *)
Theorem parse_requirements_concat :
  forall a b : string,
    parse_requirements_txt (a ++ String newline b)
    = parse_requirements_txt a ++ parse_requirements_txt b.
Proof.
  intros a b. rewrite !parse_requirements_flat, split_lines_app.
  apply flat_map_app.
Qed.

Lemma span_fst_forall (p : ascii -> bool) (s : string) :
  str_forallb p (fst (span p s)) = true.
Proof.
  induction s as [|c s IH]; simpl; auto.
  destruct (p c) eqn:E; simpl; auto.
  destruct (span p s) as [a b]. simpl in *. now rewrite E.
Qed.

Lemma span_snd_stops (p : ascii -> bool) (s : string) :
  stops p (snd (span p s)) = true.
Proof.
  induction s as [|c s IH]; simpl; auto.
  destruct (p c) eqn:E; simpl.
  - destruct (span p s) as [a b]. exact IH.
  - now rewrite E.
Qed.

Lemma span_join (p : ascii -> bool) (s : string) :
  (fst (span p s) ++ snd (span p s))%string = s.
Proof.
  induction s as [|c s IH]; simpl; auto.
  destruct (p c); simpl; auto.
  destruct (span p s) as [a b]. simpl in *. now rewrite IH.
Qed.

Lemma match_version_some (s v : string) :
  match_version s = Some v -> version_token v = true.
Proof.
  unfold match_version, version_token. intros H.
  pose proof (span_fst_forall is_version_char s) as F.
  destruct (fst (span is_version_char s)) as [|c r]; [discriminate|].
  injection H as <-. exact F.
Qed.

Lemma match_suffix_some (s v : string) :
  match_suffix s = Some v -> version_token v = true.
Proof.
  unfold match_suffix.
  destruct s as [|c1 r1]; [discriminate|].
  destruct (is_op_char c1); [|discriminate].
  destruct r1 as [|c2 r2]; [apply match_version_some|].
  destruct (is_op_char c2); [|apply match_version_some].
  destruct (match_version r2) as [w|] eqn:E.
  - intros [= <-]. now apply (match_version_some r2).
  - apply match_version_some.
Qed.

Lemma re_match_some (line nm : string) (ver : option string) :
  re_match line = Some (nm, ver) ->
  name_token nm = true
  /\ match ver with Some v => version_token v = true | None => True end.
Proof.
  unfold re_match.
  pose proof (span_fst_forall is_name_char line) as F.
  destruct (span is_name_char line) as [a b]. simpl in F.
  destruct a as [|c a]; [discriminate|].
  intros [= <- <-]. split; [exact F|].
  destruct (match_suffix b) as [v|] eqn:E; auto.
  now apply (match_suffix_some b).
Qed.

Lemma requirement_step_well_formed (line : string) :
  Forall (fun d => well_formed_dependency d = true) (requirement_step [] line).
Proof.
  unfold requirement_step.
  destruct (is_empty (strip line) || startswith_hash (strip line)); [constructor|].
  destruct (re_match (strip line)) as [[nm ver]|] eqn:E; [|constructor].
  destruct (re_match_some _ _ _ E) as [Hn Hv].
  constructor; [|constructor]. unfold well_formed_dependency. simpl.
  rewrite Hn. simpl.
  destruct ver as [[|c v]|]; auto.
Qed.

(** X2: Every dependency the line-oriented parser returns has a non-empty name
    of letters, digits, [_] and [-], and a non-empty version of letters,
    digits, [_] and [.] (["latest"] is one). *)
Theorem parse_requirements_well_formed :
  forall content : string,
    Forall (fun d => well_formed_dependency d = true)
      (parse_requirements_txt content).
Proof.
  intros content. rewrite parse_requirements_flat.
  induction (split_lines content) as [|l ls IH]; simpl; [constructor|].
  apply Forall_app. split; [apply requirement_step_well_formed | exact IH].
Qed.

Lemma re_match_head (line : string) :
  re_match line = None
  <-> match line with String c _ => is_name_char c = false | EmptyString => True end.
Proof.
  unfold re_match. destruct line as [|c r]; simpl; [tauto|].
  destruct (is_name_char c).
  - destruct (span is_name_char r). split; discriminate.
  - tauto.
Qed.

Lemma requirement_step_length (line : string) :
  List.length (requirement_step [] line) = if starts_with_name line then 1%nat else 0%nat.
Proof.
  unfold requirement_step, starts_with_name.
  destruct (strip line) as [|c r] eqn:E; simpl; [reflexivity|].
  destruct (is_name_char c) eqn:Hc.
  - rewrite (name_char_not_hash c Hc).
    destruct (re_match (String c r)) as [[nm ver]|] eqn:M; [reflexivity|].
    apply re_match_head in M. congruence.
  - assert (M : re_match (String c r) = None) by (apply re_match_head; exact Hc).
    rewrite M. now destruct (c =? "#")%char.
Qed.

(** X3: The parser returns one dependency for each line that, once stripped,
    starts with a character of a name, and nothing for any other line
    (blank lines, comments, lines starting with another character): never
    more dependencies than lines. *)
Theorem parse_requirements_count :
  forall content : string,
    List.length (parse_requirements_txt content)
    = List.length (filter starts_with_name (split_lines content))
    /\ (List.length (parse_requirements_txt content)
        <= List.length (split_lines content))%nat.
Proof.
  intros content. rewrite parse_requirements_flat.
  assert (E : List.length (flat_map (requirement_step []) (split_lines content))
              = List.length (filter starts_with_name (split_lines content))).
  { induction (split_lines content) as [|l ls IH]; simpl; auto.
    rewrite length_app, requirement_step_length, IH.
    destruct (starts_with_name l); reflexivity. }
  split; [exact E|]. rewrite E. apply filter_length_le.
Qed.

Lemma lstrip_spaces (ws x : string) :
  str_forallb is_space ws = true -> lstrip (ws ++ x) = lstrip x.
Proof.
  induction ws as [|c ws IH]; simpl; auto.
  intros H. apply andb_true_iff in H as [Hc Hw]. rewrite Hc. auto.
Qed.

Lemma rstrip_spaces (ws : string) :
  str_forallb is_space ws = true -> rstrip ws = EmptyString.
Proof.
  induction ws as [|c ws IH]; simpl; auto.
  intros H. apply andb_true_iff in H as [Hc Hw]. now rewrite (IH Hw), Hc.
Qed.

Lemma rstrip_app_spaces (x ws : string) :
  str_forallb is_space ws = true -> rstrip (x ++ ws) = rstrip x.
Proof.
  intros H. induction x as [|c x IH]; simpl.
  - now apply rstrip_spaces.
  - now rewrite IH.
Qed.

Lemma strip_padding (ws line ws' : string) :
  str_forallb is_space ws = true -> str_forallb is_space ws' = true ->
  strip (ws ++ line ++ ws') = strip line.
Proof.
  intros H H'. unfold strip. rewrite (lstrip_spaces _ _ H).
  induction line as [|c l IH]; simpl.
  - assert (E : lstrip ws' = EmptyString).
    { clear - H'. induction ws' as [|c w IH]; simpl in *; auto.
      apply andb_true_iff in H' as [Hc Hw]. rewrite Hc. auto. }
    now rewrite E.
  - destruct (is_space c); [exact IH|].
    change (String c (l ++ ws')) with (String c l ++ ws')%string.
    now apply rstrip_app_spaces.
Qed.

Lemma rstrip_solid_prefix (x rest : string) :
  str_forallb not_space x = true -> rstrip (x ++ rest) = (x ++ rstrip rest)%string.
Proof.
  induction x as [|c x IH]; simpl; auto.
  intros H. apply andb_true_iff in H as [Hc Hx]. rewrite (IH Hx).
  unfold not_space in Hc. apply negb_true_iff in Hc. rewrite Hc.
  destruct (x ++ rstrip rest)%string; reflexivity.
Qed.

Lemma strip_solid_prefix (x rest : string) :
  str_forallb not_space x = true -> x <> EmptyString ->
  strip (x ++ rest) = (x ++ rstrip rest)%string.
Proof.
  intros H Hx. unfold strip.
  assert (L : lstrip (x ++ rest) = (x ++ rest)%string).
  { destruct x as [|c x]; [congruence|]. simpl in *.
    apply andb_true_iff in H as [Hc _].
    unfold not_space in Hc. apply negb_true_iff in Hc. now rewrite Hc. }
  rewrite L. now apply rstrip_solid_prefix.
Qed.

Lemma rstrip_head (c : ascii) (r : string) :
  rstrip (String c r) = EmptyString \/ exists r', rstrip (String c r) = String c r'.
Proof.
  simpl. destruct (rstrip r).
  - destruct (is_space c); eauto.
  - eauto.
Qed.

Lemma rstrip_stops (p : ascii -> bool) (s : string) :
  stops p s = true -> stops p (rstrip s) = true.
Proof.
  destruct s as [|c r]; auto. intros H.
  destruct (rstrip_head c r) as [->|(r' & ->)]; auto.
Qed.

Lemma is_blank_space (ws : string) :
  str_forallb is_blank ws = true -> str_forallb is_space ws = true.
Proof.
  apply str_forallb_impl. intros c H. now apply andb_true_iff in H as [H _].
Qed.

Lemma is_blank_one_line (ws : string) :
  str_forallb is_blank ws = true -> one_line ws = true.
Proof.
  apply str_forallb_impl. intros c H. now apply andb_true_iff in H as [_ H].
Qed.

Lemma str_app_assoc (a b c : string) : ((a ++ b) ++ c = a ++ b ++ c)%string.
Proof. induction a as [|x a IH]; simpl; congruence. Qed.

Lemma one_line_app (a b : string) : one_line (a ++ b) = one_line a && one_line b.
Proof. apply str_forallb_app. Qed.

Lemma requirement_step_strip (l1 l2 : string) (deps : list Dependency) :
  strip l1 = strip l2 -> requirement_step deps l1 = requirement_step deps l2.
Proof. intros H. unfold requirement_step. now rewrite H. Qed.

Lemma requirement_step_stripped (line stripped nm : string) (ver : option string) :
  strip line = stripped ->
  re_match stripped = Some (nm, ver) ->
  requirement_step [] line
  = [mkDependency nm (match ver with
                      | Some (String c v) => String c v
                      | _ => "latest"
                      end)].
Proof.
  intros Hs Hm. unfold requirement_step.
  rewrite Hs, (re_match_skips _ _ _ Hm), Hm. reflexivity.
Qed.

(** X4: Blanks before and after a line of a manifest do not change what the
    parser returns. *)
Theorem parse_requirements_padding :
  forall before after pad line pad' : string,
    str_forallb is_blank pad = true ->
    str_forallb is_blank pad' = true ->
    one_line line = true ->
    parse_requirements_txt (between_lines before (pad ++ line ++ pad') after)
    = parse_requirements_txt (between_lines before line after).
Proof.
  intros before after pad line pad' Hp Hp' Hl.
  rewrite !parse_requirements_between; auto.
  - f_equal. f_equal. apply requirement_step_strip.
    apply strip_padding; now apply is_blank_space.
  - fold (one_line (pad ++ line ++ pad')).
    now rewrite !one_line_app, Hl, (is_blank_one_line _ Hp),
      (is_blank_one_line _ Hp').
Qed.

Lemma parse_requirements_padding_witness :
  parse_requirements_txt
    (between_lines "requests" ("  " ++ "flask==2.0.1" ++ " ") "numpy")
  = parse_requirements_txt (between_lines "requests" "flask==2.0.1" "numpy").
Proof.
  apply (parse_requirements_padding "requests" "numpy" "  " "flask==2.0.1" " ");
    reflexivity.
Defined.

Lemma match_version_app (v rest : string) :
  version_token v = true -> stops is_version_char rest = true ->
  match_version (v ++ rest) = Some v.
Proof.
  intros H Hr. apply andb_true_iff in H as [Hn Hv].
  unfold match_version. rewrite (span_app _ _ _ Hv Hr). simpl.
  destruct v; [discriminate | reflexivity].
Qed.

(** X5: What follows the version on a line (a comment, an environment marker, a
    second constraint) is ignored. *)
Theorem parse_requirements_trailing_text :
  forall before after nm op v rest : string,
    name_token nm = true ->
    In op ["=="; "~="; ">="; "="; ">"] ->
    version_token v = true ->
    stops is_version_char rest = true ->
    one_line rest = true ->
    parse_requirements_txt (between_lines before (nm ++ op ++ v ++ rest) after)
    = parse_requirements_txt before ++ [mkDependency nm v]
        ++ parse_requirements_txt after.
Proof.
  intros before after nm op v rest Hn Hop Hv Hr Hl.
  rewrite parse_requirements_between.
  - f_equal. f_equal.
    assert (Hs : strip (nm ++ op ++ v ++ rest)
                 = (nm ++ op ++ v ++ rstrip rest)%string).
    { replace (nm ++ op ++ v ++ rest)%string
        with ((nm ++ op ++ v) ++ rest)%string by now rewrite !str_app_assoc.
      replace (nm ++ op ++ v ++ rstrip rest)%string
        with ((nm ++ op ++ v) ++ rstrip rest)%string by now rewrite !str_app_assoc.
      apply strip_solid_prefix.
      - rewrite !str_forallb_app, (name_token_spaces _ Hn),
          (version_token_spaces _ Hv).
        each_operator Hop; reflexivity.
      - apply andb_true_iff in Hn as [Hn _]. destruct nm; [discriminate|].
        discriminate. }
    assert (Hm : match_version (v ++ rstrip rest) = Some v)
      by (apply match_version_app; auto using rstrip_stops).
    assert (Hv' := Hv). apply andb_true_iff in Hv' as [Hne Hvc].
    destruct v as [|c v]; [discriminate|]. simpl in Hvc.
    apply andb_true_iff in Hvc as [Hc _].
    assert (Hnop := version_char_not_op c Hc).
    rewrite (requirement_step_stripped _ _ nm (Some (String c v)) Hs); auto.
    each_operator Hop; rewrite re_match_name; auto; simpl in *;
      try rewrite Hnop; rewrite Hm; reflexivity.
  - fold (one_line (nm ++ op ++ v ++ rest)).
    rewrite !one_line_app, Hl. unfold one_line.
    rewrite (name_token_one_line _ Hn), (version_token_one_line _ Hv).
    each_operator Hop; reflexivity.
Qed.

Lemma parse_requirements_trailing_text_witness :
  parse_requirements_txt
    (between_lines "requests" ("flask" ++ ">=" ++ "2.0" ++ " # pinned") "numpy")
  = parse_requirements_txt "requests" ++ [mkDependency "flask" "2.0"]
      ++ parse_requirements_txt "numpy".
Proof.
  apply (parse_requirements_trailing_text "requests" "numpy" "flask" ">=" "2.0"
           " # pinned"); try reflexivity.
  simpl. auto.
Defined.

(** X6: A name followed by a character that belongs neither to names nor to
    [=], [~], [>] (a space, [<], [!], [[], [.], [;] ...) gives the
    dependency at ["latest"], whatever the rest of the line says. *)
Theorem parse_requirements_separator :
  forall (before after nm : string) (c : ascii) (rest : string),
    name_token nm = true ->
    is_name_char c = false ->
    is_op_char c = false ->
    one_line (String c rest) = true ->
    parse_requirements_txt (between_lines before (nm ++ String c rest) after)
    = parse_requirements_txt before ++ [mkDependency nm "latest"]
        ++ parse_requirements_txt after.
Proof.
  intros before after nm c rest Hn Hc Ho Hl.
  rewrite parse_requirements_between.
  - f_equal. f_equal.
    assert (Hs : strip (nm ++ String c rest)
                 = (nm ++ rstrip (String c rest))%string).
    { apply strip_solid_prefix; [now apply name_token_spaces|].
      apply andb_true_iff in Hn as [Hn _]. destruct nm; discriminate. }
    rewrite (requirement_step_stripped _ _ nm None Hs); auto.
    rewrite re_match_name; auto.
    + destruct (rstrip_head c rest) as [->|(r' & ->)]; simpl; auto.
      now rewrite Ho.
    + apply rstrip_stops. simpl. now rewrite Hc.
  - fold (one_line (nm ++ String c rest)).
    rewrite one_line_app, Hl. unfold one_line.
    now rewrite (name_token_one_line _ Hn).
Qed.

Lemma parse_requirements_separator_witness :
  parse_requirements_txt (between_lines "requests" "flask >= 2.0" "numpy")
  = parse_requirements_txt "requests" ++ [mkDependency "flask" "latest"]
      ++ parse_requirements_txt "numpy".
Proof.
  apply (parse_requirements_separator "requests" "numpy" "flask" " " ">= 2.0");
    reflexivity.
Defined.

(** ** parse_package_json *)

Lemma package_loop_names (items : pydict) (acc l : list Dependency) :
  for_each package_step items acc = Ok l ->
  map name l = map name acc ++ map fst items.
Proof.
  revert acc. induction items as [|[k v] items IH]; intros acc H; simpl in H.
  - injection H as <-. now rewrite app_nil_r.
  - unfold package_step at 1 in H. simpl in H.
    destruct (pydantic_str v) as [s|e]; simpl in H; [|discriminate].
    rewrite (IH _ H), map_app, <- app_assoc. reflexivity.
Qed.

Lemma assoc_none_not_in {V : Type} (d : list (string * V)) (k : string) :
  assoc k d = None -> ~ In k (map fst d).
Proof.
  induction d as [|[k' v'] d IH]; simpl; auto.
  destruct (k' =? k)%string eqn:E; [discriminate|].
  apply String.eqb_neq in E. intros H [?|?]; [congruence | now apply IH].
Qed.

(** In [{**d, **e}] a key has the value [e] gives it, else the one of [d]. *)
Lemma assoc_update {V : Type} (d e : list (string * V)) (k : string) :
  NoDup (map fst e) ->
  assoc k (dict_update d e)
  = match assoc k e with Some v => Some v | None => assoc k d end.
Proof.
  intros Hn. destruct (assoc k e) as [v|] eqn:E.
  - now apply assoc_update_new.
  - apply assoc_update_other. now apply assoc_none_not_in.
Qed.

Lemma dict_mem_in {V : Type} (d : list (string * V)) (k : string) :
  dict_mem d k = true <-> In k (map fst (dict_items d)).
Proof.
  unfold dict_mem, dict_get. destruct (assoc k (dict_items d)) eqn:E.
  - split; auto. intros _. now apply assoc_in in E.
  - split; [discriminate|]. intros H. now apply assoc_none_not_in in E.
Qed.

(** The keys of [{**d, **e}]: those of [d], then the new ones of [e]. *)
Lemma dict_update_keys {V : Type} (e d : list (string * V)) :
  NoDup (map fst e) ->
  map fst (dict_update d e)
  = map fst d
      ++ filter (fun k => if in_dec string_dec k (map fst d) then false else true)
           (map fst e).
Proof.
  revert d. induction e as [|[k v] e IH]; intros d Hn; simpl in Hn.
  - simpl. now rewrite app_nil_r.
  - inversion Hn as [|? ? Hk He]; subst.
    rewrite dict_update_cons, (IH _ He), dict_set_keys. simpl.
    destruct (in_dec string_dec k (map fst d)) as [Hin|Hout].
    + reflexivity.
    + rewrite <- app_assoc. simpl. f_equal. f_equal.
      apply filter_ext_in. intros x Hx.
      destruct (in_dec string_dec x (map fst d ++ [k])) as [H1|H1];
        destruct (in_dec string_dec x (map fst d)) as [H2|H2]; auto.
      * apply in_app_or in H1 as [H1|[<-|[]]]; tauto.
      * exfalso. apply H1, in_or_app. auto.
Qed.

Lemma find_named (n : string) (items : pydict) :
  find (named n) (map dependency_of items)
  = option_map (fun v => mkDependency n (as_str v)) (assoc n items).
Proof.
  induction items as [|[k v] items IH]; simpl; auto.
  unfold named at 1. simpl. destruct (k =? n)%string eqn:E; auto.
  apply String.eqb_eq in E. now subst.
Qed.

Section PackageFacts.

Variable json_loads : string -> result json.

(** X7: No name appears twice in the output of [parse_package_json]. *)
Theorem package_names_distinct :
  forall (content : string) (l : list Dependency),
    parse_package_json json_loads content = Ok l ->
    NoDup (map name l).
Proof.
  intros content l. unfold parse_package_json.
  destruct (json_loads content) as [data|e];
    [|destruct e; intros H; try discriminate H; injection H as <-; constructor].
  intros H. repeat bind_step H.
  rewrite (package_loop_names _ _ _ H). simpl.
  unfold dict_unpack2 in E1.
  destruct x as [| | | | | |da]; try discriminate.
  destruct x0 as [| | | | | |db]; try discriminate.
  injection E1 as <-. apply dict_update_nodup, dict_items_nodup.
Qed.

(** X8: For a manifest whose two mappings bind names to strings, the output
    lists the names of the direct dependencies in their order, then the
    names that only the development dependencies have, in their order. *)
Theorem package_order :
  forall (content : string) (fields d1 d2 : pydict),
    json_loads content = Ok (JObj fields) ->
    get_default fields "dependencies" (JObj []) = JObj d1 ->
    get_default fields "devDependencies" (JObj []) = JObj d2 ->
    all_str d1 = true -> all_str d2 = true ->
    exists l : list Dependency,
      parse_package_json json_loads content = Ok l
      /\ map name l
         = map fst (dict_items d1)
             ++ filter (fun k => negb (dict_mem d1 k)) (map fst (dict_items d2)).
Proof.
  intros content fields d1 d2 Hl H1 H2 S1 S2.
  exists (map dependency_of (merged d1 d2)). split.
  - now apply (parse_package_json_strings json_loads content fields).
  - rewrite map_map. simpl. change (fun x : string * json => fst x) with (@fst string json).
    unfold merged. rewrite dict_update_keys by apply dict_items_nodup.
    f_equal. apply filter_ext. intros k.
    destruct (in_dec string_dec k (map fst (dict_items d1))) as [Hin|Hout];
      destruct (dict_mem d1 k) eqn:E; auto.
    + apply dict_mem_in in Hin. congruence.
    + apply dict_mem_in in E. tauto.
Qed.

(** X9: For such a manifest the version of a name in the output is the one of
    the development dependencies when they bind the name, else the one of
    the direct dependencies; a name bound by neither is not in the output. *)
Theorem package_versions :
  forall (content : string) (fields d1 d2 : pydict) (n : string),
    json_loads content = Ok (JObj fields) ->
    get_default fields "dependencies" (JObj []) = JObj d1 ->
    get_default fields "devDependencies" (JObj []) = JObj d2 ->
    all_str d1 = true -> all_str d2 = true ->
    exists l : list Dependency,
      parse_package_json json_loads content = Ok l
      /\ version_of n l
         = match declared d2 n with
           | Some v => Some v
           | None => declared d1 n
           end.
Proof.
  intros content fields d1 d2 n Hl H1 H2 S1 S2.
  exists (map dependency_of (merged d1 d2)). split.
  - now apply (parse_package_json_strings json_loads content fields).
  - unfold version_of, declared, dict_get, merged.
    rewrite find_named, assoc_update by apply dict_items_nodup.
    destruct (assoc n (dict_items d2)); simpl; auto.
    destruct (assoc n (dict_items d1)); reflexivity.
Qed.

(** X10: Only a decoding failure is caught: a document that is not an object
    raises [AttributeError], and an object whose [dependencies] or
    [devDependencies] is not an object raises [TypeError]. *)
Theorem package_json_errors :
  forall (content : string) (data : json),
    json_loads content = Ok data ->
    (is_obj data = false ->
     parse_package_json json_loads content = Raise AttributeError)
    /\ (forall fields : pydict,
           data = JObj fields ->
           is_obj (get_default fields "dependencies" (JObj [])) = false
           \/ is_obj (get_default fields "devDependencies" (JObj [])) = false ->
           parse_package_json json_loads content = Raise TypeError).
Proof.
  intros content data Hl. unfold parse_package_json. rewrite Hl. split.
  - destruct data; simpl; auto; discriminate.
  - intros fields -> H. simpl. unfold dict_unpack2.
    destruct (get_default fields "dependencies" (JObj [])); simpl in *;
      try reflexivity.
    destruct (get_default fields "devDependencies" (JObj [])); simpl in *;
      try reflexivity.
    destruct H; discriminate.
Qed.

End PackageFacts.

(** A manifest with [a] and [b] among the direct dependencies and [a] and
    [c] among the development ones. *)
Lemma package_names_distinct_witness :
  parse_package_json json_loads_ref three_names
  = Ok [mkDependency "a" "2.0"; mkDependency "b" "1.1"; mkDependency "c" "3.0"]
  /\ NoDup (map name
              [mkDependency "a" "2.0"; mkDependency "b" "1.1";
               mkDependency "c" "3.0"]).
Proof.
  split; [reflexivity|].
  apply (package_names_distinct json_loads_ref three_names). reflexivity.
Defined.

Lemma package_order_witness :
  exists l : list Dependency,
    parse_package_json json_loads_ref three_names = Ok l
    /\ map name l = ["a"; "b"; "c"].
Proof.
  apply (package_order json_loads_ref three_names
           [("dependencies", JObj [("a", JStr "1.0"); ("b", JStr "1.1")]);
            ("devDependencies", JObj [("a", JStr "2.0"); ("c", JStr "3.0")])]
           [("a", JStr "1.0"); ("b", JStr "1.1")]
           [("a", JStr "2.0"); ("c", JStr "3.0")]); reflexivity.
Defined.

Lemma package_versions_witness :
  exists l : list Dependency,
    parse_package_json json_loads_ref three_names = Ok l
    /\ version_of "b" l = Some "1.1".
Proof.
  apply (package_versions json_loads_ref three_names
           [("dependencies", JObj [("a", JStr "1.0"); ("b", JStr "1.1")]);
            ("devDependencies", JObj [("a", JStr "2.0"); ("c", JStr "3.0")])]
           [("a", JStr "1.0"); ("b", JStr "1.1")]
           [("a", JStr "2.0"); ("c", JStr "3.0")] "b"); reflexivity.
Defined.

Lemma package_json_errors_witness :
  json_loads_ref "[]" = Ok (JArr [])
  /\ parse_package_json json_loads_ref "[]" = Raise AttributeError
  /\ parse_package_json json_loads_ref (json_text "{'dependencies': null}")
     = Raise TypeError.
Proof.
  split; [reflexivity|]. split.
  - apply (package_json_errors json_loads_ref "[]" (JArr []) eq_refl).
    reflexivity.
  - apply (proj2 (package_json_errors json_loads_ref
                    (json_text "{'dependencies': null}")
                    (JObj [("dependencies", JNull)]) eq_refl)
             [("dependencies", JNull)] eq_refl).
    left. reflexivity.
Defined.

(** ** analyze_dependencies *)

Section DependencyFacts.

Variable json_loads : string -> result json.

(** X11: There are at most two reports, the one of [requirements.txt] before
    the one of [package.json], and the entries of the input under other
    file names do not matter. *)
Theorem dependency_reports_shape :
  forall (file_contents other : list (string * string))
         (reports : list DependencyAnalysis),
    analyze_dependencies json_loads file_contents = Ok reports ->
    dict_get other "requirements.txt" = dict_get file_contents "requirements.txt" ->
    dict_get other "package.json" = dict_get file_contents "package.json" ->
    In (map file reports)
      [[]; ["requirements.txt"]; ["package.json"];
       ["requirements.txt"; "package.json"]]
    /\ analyze_dependencies json_loads other = Ok reports.
Proof.
  intros fc other reports H Hr Hp. split.
  - unfold analyze_dependencies in H.
    destruct (dict_get fc "package.json") as [c|].
    + bind_step H. injection H as <-. rewrite report_files.
      destruct (dict_get fc "requirements.txt") as [r|]; [rewrite report_files|];
        simpl; destruct x; try destruct (parse_requirements_txt r); simpl; auto.
    + injection H as <-.
      destruct (dict_get fc "requirements.txt") as [r|]; [rewrite report_files|];
        simpl; try destruct (parse_requirements_txt r); simpl; auto.
  - unfold analyze_dependencies in *. now rewrite Hr, Hp.
Qed.

(** X12: A [package.json] that does not decode neither raises nor hides the
    report of [requirements.txt]. *)
Theorem undecodable_package_json_is_dropped :
  forall (file_contents : list (string * string)) (content : string),
    dict_get file_contents "package.json" = Some content ->
    json_loads content = Raise JSONDecodeError ->
    exists reports : list DependencyAnalysis,
      analyze_dependencies json_loads file_contents = Ok reports
      /\ ~ In "package.json" (map file reports)
      /\ (forall requirements : string,
             dict_get file_contents "requirements.txt" = Some requirements ->
             parse_requirements_txt requirements <> [] ->
             reports = [mkDependencyAnalysis "requirements.txt"
                          (parse_requirements_txt requirements)]).
Proof.
  intros fc content Hc Hl. unfold analyze_dependencies. rewrite Hc.
  unfold parse_package_json. rewrite Hl. simpl.
  eexists. split; [reflexivity|]. split.
  - destruct (dict_get fc "requirements.txt") as [r|]; simpl; auto.
    rewrite report_files. simpl.
    destruct (parse_requirements_txt r); simpl; intuition discriminate.
  - intros r Hr Hne. rewrite Hr.
    destruct (parse_requirements_txt r); [congruence | reflexivity].
Qed.

End DependencyFacts.

Lemma dependency_reports_shape_witness :
  In (map file
        [mkDependencyAnalysis "requirements.txt" [mkDependency "flask" "2.0.1"]])
    [[]; ["requirements.txt"]; ["package.json"];
     ["requirements.txt"; "package.json"]]
  /\ analyze_dependencies json_loads_ref (("README.md", "# hello") :: two_manifests)
     = Ok [mkDependencyAnalysis "requirements.txt" [mkDependency "flask" "2.0.1"]].
Proof.
  apply (dependency_reports_shape json_loads_ref two_manifests
           (("README.md", "# hello") :: two_manifests)); reflexivity.
Defined.

Lemma undecodable_package_json_is_dropped_witness :
  exists reports : list DependencyAnalysis,
    analyze_dependencies json_loads_ref broken_manifest = Ok reports
    /\ ~ In "package.json" (map file reports)
    /\ reports = [mkDependencyAnalysis "requirements.txt"
                    [mkDependency "flask" "2.0.1"]].
Proof.
  destruct (undecodable_package_json_is_dropped json_loads_ref broken_manifest
              "{not json" eq_refl eq_refl) as (reports & H1 & H2 & H3).
  exists reports. split; [exact H1|]. split; [exact H2|].
  apply (H3 "flask==2.0.1"); [reflexivity | discriminate].
Defined.

(** ** Loops whose steps commute *)

Lemma bind_assoc {A B C : Type} (m : result A) (f : A -> result B) (g : B -> result C) :
  (b <- (a <- m ;; f a) ;; g b) = (a <- m ;; b <- f a ;; g b).
Proof. destruct m; reflexivity. Qed.

(** When two consecutive steps that succeed can be exchanged, a loop that
    succeeds gives the same result on every reordering of its list. *)
Lemma for_each_permutation {A S : Type} (body : S -> A -> result S) :
  (forall acc x y r,
      (a <- body acc x ;; body a y) = Ok r -> (a <- body acc y ;; body a x) = Ok r) ->
  forall l l' : list A,
    Permutation l l' ->
    forall acc r, for_each body l acc = Ok r -> for_each body l' acc = Ok r.
Proof.
  intros Hc l l' P. induction P as [|x l l' _ IH|x y l|l l' l'' _ IH1 _ IH2];
    intros acc r H.
  - exact H.
  - simpl in *. destruct (body acc x) as [a|]; simpl in *; [auto | discriminate].
  - simpl in *. rewrite <- bind_assoc in H |- *.
    destruct (a <- body acc y ;; body a x) as [b|] eqn:E; simpl in H;
      [|discriminate].
    now rewrite (Hc _ _ _ _ E).
  - auto.
Qed.

Lemma add_health_assoc (a b c : IssueHealth) :
  add_health (add_health a b) c = add_health a (add_health b c).
Proof. unfold add_health. simpl. f_equal; lia. Qed.

Lemma add_health_swap (a b c : IssueHealth) :
  add_health (add_health a b) c = add_health (add_health a c) b.
Proof. unfold add_health. simpl. f_equal; lia. Qed.

Lemma add_health_zero (h : IssueHealth) : add_health h (mkIssueHealth 0 0 0) = h.
Proof. destruct h. unfold add_health. simpl. f_equal; lia. Qed.

Lemma add_counts_assoc (a b c : Z * Z) :
  add_counts (add_counts a b) c = add_counts a (add_counts b c).
Proof. unfold add_counts. simpl. f_equal; lia. Qed.

Lemma add_counts_swap (a b c : Z * Z) :
  add_counts (add_counts a b) c = add_counts (add_counts a c) b.
Proof. unfold add_counts. simpl. f_equal; lia. Qed.

Section StepFacts.

Variable fromisoformat : string -> option datetime.

(** What a step adds does not depend on the counters it adds it to. *)
Lemma health_step_shift (t : Z) (h : IssueHealth) (issue : pydict) :
  health_step fromisoformat t h issue
  = d <- health_step fromisoformat t (mkIssueHealth 0 0 0) issue ;;
    Ok (add_health h d).
Proof.
  unfold health_step.
  destruct (getitem issue "state") as [st|]; simpl; auto.
  destruct (is_open st); simpl; [|now rewrite add_health_zero].
  destruct (getitem issue "updated_at") as [u|]; simpl; auto.
  destruct (timestamp fromisoformat u) as [d|]; simpl; auto.
  destruct (naive_lt d t) as [s|]; simpl; auto.
  destruct (getitem issue "labels") as [ls|]; simpl; auto.
  destruct (iterate ls) as [labels|]; simpl; auto.
  destruct (has_bug_label labels) as [b|]; simpl; auto.
  unfold add_health. simpl. destruct s, b; do 2 f_equal; lia.
Qed.

Lemma health_loop_shift (t : Z) (issues_list : list pydict) (h : IssueHealth) :
  for_each (health_step fromisoformat t) issues_list h
  = d <- for_each (health_step fromisoformat t) issues_list (mkIssueHealth 0 0 0) ;;
    Ok (add_health h d).
Proof.
  revert h. induction issues_list as [|i rest IH]; intros h; simpl.
  - now rewrite add_health_zero.
  - rewrite (health_step_shift t h i).
    destruct (health_step fromisoformat t (mkIssueHealth 0 0 0) i) as [d|]; simpl;
      auto.
    rewrite (IH (add_health h d)), (IH d).
    destruct (for_each (health_step fromisoformat t) rest (mkIssueHealth 0 0 0));
      simpl; auto.
    now rewrite add_health_assoc.
Qed.

Lemma health_step_commute (t : Z) (acc r : IssueHealth) (x y : pydict) :
  (a <- health_step fromisoformat t acc x ;; health_step fromisoformat t a y) = Ok r ->
  (a <- health_step fromisoformat t acc y ;; health_step fromisoformat t a x) = Ok r.
Proof.
  rewrite (health_step_shift t acc x), (health_step_shift t acc y).
  destruct (health_step fromisoformat t (mkIssueHealth 0 0 0) x) as [dx|] eqn:Ex;
    simpl; [|discriminate].
  rewrite (health_step_shift t (add_health acc dx) y).
  destruct (health_step fromisoformat t (mkIssueHealth 0 0 0) y) as [dy|] eqn:Ey;
    simpl; [|discriminate].
  rewrite (health_step_shift t (add_health acc dy) x), Ex. simpl.
  intros [= <-]. now rewrite add_health_swap.
Qed.

Lemma trend_step_shift (t : Z) (counts : Z * Z) (issue : pydict) :
  trend_step fromisoformat t counts issue
  = d <- trend_step fromisoformat t (0, 0) issue ;; Ok (add_counts counts d).
Proof.
  destruct counts as [n k]. unfold trend_step.
  destruct (getitem issue "created_at") as [c|]; simpl; auto.
  destruct (timestamp fromisoformat c) as [d|]; simpl; auto.
  destruct (naive_gt d t) as [b|]; simpl; auto.
  destruct (getitem issue "closed_at") as [cl|]; simpl; auto.
  destruct (truthy cl).
  - destruct (timestamp fromisoformat cl) as [d'|]; simpl; auto.
    destruct (naive_gt d' t) as [b'|]; simpl; auto.
    unfold add_counts. simpl. destruct b, b'; do 2 f_equal; lia.
  - unfold add_counts. simpl. destruct b; do 2 f_equal; lia.
Qed.

Lemma trend_loop_shift (t : Z) (issues_list : list pydict) (counts : Z * Z) :
  for_each (trend_step fromisoformat t) issues_list counts
  = d <- for_each (trend_step fromisoformat t) issues_list (0, 0) ;;
    Ok (add_counts counts d).
Proof.
  revert counts. induction issues_list as [|i rest IH]; intros counts;
    cbn [for_each].
  - destruct counts as [n k]. unfold add_counts. simpl. do 2 f_equal; lia.
  - rewrite (trend_step_shift t counts i).
    destruct (trend_step fromisoformat t (0, 0) i) as [d|]; cbn [bind]; auto.
    rewrite (IH (add_counts counts d)), (IH d).
    destruct (for_each (trend_step fromisoformat t) rest (0, 0)); cbn [bind]; auto.
    now rewrite add_counts_assoc.
Qed.

Lemma trend_step_commute (t : Z) (acc r : Z * Z) (x y : pydict) :
  (a <- trend_step fromisoformat t acc x ;; trend_step fromisoformat t a y) = Ok r ->
  (a <- trend_step fromisoformat t acc y ;; trend_step fromisoformat t a x) = Ok r.
Proof.
  rewrite (trend_step_shift t acc x), (trend_step_shift t acc y).
  destruct (trend_step fromisoformat t (0, 0) x) as [dx|] eqn:Ex;
    cbn [bind]; [|discriminate].
  rewrite (trend_step_shift t (add_counts acc dx) y).
  destruct (trend_step fromisoformat t (0, 0) y) as [dy|] eqn:Ey;
    cbn [bind]; [|discriminate].
  rewrite (trend_step_shift t (add_counts acc dy) x), Ex. cbn [bind].
  intros [= <-]. now rewrite add_counts_swap.
Qed.

End StepFacts.

(** ** calculate_activity_trends *)

Section TrendFacts.

Variable fromisoformat : string -> option datetime.

Lemma trend_step_bounds (t : Z) (n k n' k' : Z) (issue : pydict) :
  trend_step fromisoformat t (n, k) issue = Ok (n', k') ->
  n <= n' <= n + 1 /\ k <= k' <= k + 1.
Proof.
  unfold trend_step. intros H.
  repeat bind_step H; injection H as <- <-;
    repeat match goal with |- context [if ?b then _ else _] => destruct b end;
    lia.
Qed.

Lemma trend_loop_bounds (t : Z) (issues_list : list pydict) (n k n' k' : Z) :
  for_each (trend_step fromisoformat t) issues_list (n, k) = Ok (n', k') ->
  n <= n' <= n + Z.of_nat (List.length issues_list)
  /\ k <= k' <= k + Z.of_nat (List.length issues_list).
Proof.
  revert n k. induction issues_list as [|i rest IH]; intros n k H.
  - simpl in H. injection H as <- <-. simpl. lia.
  - cbn [for_each] in H.
    destruct (trend_step fromisoformat t (n, k) i) as [[n1 k1]|] eqn:E;
      cbn [bind] in H; [|discriminate].
    apply trend_step_bounds in E. apply IH in H.
    rewrite length_cons, Nat2Z.inj_succ. lia.
Qed.

(** X13: Each of the two issue counts lies between 0 and the number of issues
    given. *)
Theorem issue_counts_bounded :
  forall (now : Z) (weeks issues_list : list pydict) (t : ActivityTrends),
    calculate_activity_trends fromisoformat now weeks issues_list = Ok t ->
    0 <= new_issues t <= Z.of_nat (List.length issues_list)
    /\ 0 <= closed_issues t <= Z.of_nat (List.length issues_list).
Proof.
  intros now weeks issues_list t. unfold calculate_activity_trends. intros H.
  destruct (average_commits weeks) as [avg|]; cbn [bind] in H; [|discriminate].
  destruct (for_each (trend_step fromisoformat (now - days 30)) issues_list (0, 0))
    as [[n k]|] eqn:E; cbn [bind] in H; [|discriminate].
  destruct (pydantic_float (num_round2 avg)) as [c|]; cbn [bind] in H;
    [|discriminate].
  injection H as <-. simpl. apply trend_loop_bounds in E. lia.
Qed.

(** X14: One more issue, created at [tc] and closed at the time [c] says, adds 1
    to [new_issues] exactly when [tc] is strictly after [now] minus 30
    days, and 1 to [closed_issues] exactly when the issue is closed and was
    closed strictly after that moment; the average is unchanged. *)
Theorem issue_in_window :
  forall (now : Z) (weeks rest : list pydict) (issue : pydict)
         (t : ActivityTrends) (tc : Z) (c : option Z),
    calculate_activity_trends fromisoformat now weeks rest = Ok t ->
    dated fromisoformat issue "created_at" tc ->
    closing fromisoformat issue c ->
    calculate_activity_trends fromisoformat now weeks (issue :: rest)
    = Ok (mkActivityTrends (commits_per_week_avg t)
            (new_issues t + Z.b2z (tc >? now - days 30))
            (closed_issues t
             + Z.b2z (match c with
                      | Some tcl => tcl >? now - days 30
                      | None => false
                      end))).
Proof.
  intros now weeks rest issue t tc c H (s & Hs & Ps) Hc.
  unfold calculate_activity_trends in *.
  destruct (average_commits weeks) as [avg|]; cbn [bind] in *; [|discriminate].
  destruct (for_each (trend_step fromisoformat (now - days 30)) rest (0, 0))
    as [[n k]|] eqn:E; cbn [bind] in H; [|discriminate].
  destruct (pydantic_float (num_round2 avg)) as [cpw|]; cbn [bind] in *;
    [|discriminate].
  injection H as <-. cbn [for_each commits_per_week_avg new_issues closed_issues].
  assert (S : trend_step fromisoformat (now - days 30) (0, 0) issue
              = Ok (Z.b2z (tc >? now - days 30),
                    Z.b2z (match c with
                           | Some tcl => tcl >? now - days 30
                           | None => false
                           end))).
  { unfold trend_step, getitem, timestamp, parse_iso. rewrite Hs. simpl.
    rewrite Ps. simpl.
    destruct c as [tcl|].
    - destruct Hc as (s' & Hs' & Ne & Ps'). rewrite Hs'. simpl.
      rewrite Ne, Ps'. simpl.
      destruct (tc >? now - days 30), (tcl >? now - days 30); reflexivity.
    - destruct Hc as (cl & Hcl & F). rewrite Hcl. simpl. rewrite F.
      destruct (tc >? now - days 30); reflexivity. }
  rewrite S. cbn [bind]. rewrite trend_loop_shift, E. cbn [bind].
  unfold add_counts. simpl. do 2 f_equal; lia.
Qed.

(** X15: The result does not depend on the order of the issues. *)
Theorem activity_trends_any_order :
  forall (now : Z) (weeks issues_list reordered : list pydict)
         (t : ActivityTrends),
    Permutation issues_list reordered ->
    calculate_activity_trends fromisoformat now weeks issues_list = Ok t ->
    calculate_activity_trends fromisoformat now weeks reordered = Ok t.
Proof.
  intros now weeks issues_list reordered t P. unfold calculate_activity_trends.
  destruct (average_commits weeks) as [avg|]; cbn [bind]; [|discriminate].
  destruct (for_each (trend_step fromisoformat (now - days 30)) issues_list (0, 0))
    as [counts|] eqn:E; cbn [bind]; [|discriminate].
  rewrite (for_each_permutation _
             (fun acc x y r => trend_step_commute fromisoformat (now - days 30) acc r x y)
             _ _ P _ _ E).
  cbn [bind]. auto.
Qed.

End TrendFacts.

(** ** analyze_issue_health *)

Lemma prefix_app (a b : string) : prefix a (a ++ b) = true.
Proof.
  induction a as [|x a' IH]; simpl.
  - destruct b; reflexivity.
  - destruct (ascii_dec x x); [exact IH | congruence].
Qed.

Lemma contains_here (sub b : string) : contains sub (sub ++ b) = true.
Proof.
  pose proof (prefix_app sub b) as H.
  destruct (sub ++ b)%string; simpl in *; now rewrite H.
Qed.

Lemma contains_later (sub a s : string) :
  contains sub s = true -> contains sub (a ++ s) = true.
Proof.
  intros H. induction a as [|c a IH]; simpl; auto.
  rewrite IH. apply orb_true_r.
Qed.

Lemma lower_app (a b : string) : lower (a ++ b) = (lower a ++ lower b)%string.
Proof. induction a as [|c a IH]; simpl; congruence. Qed.

Section HealthFacts.

Variable fromisoformat : string -> option datetime.

Lemma health_step_open (t : Z) (h h' : IssueHealth) (issue : pydict) :
  health_step fromisoformat t h issue = Ok h' ->
  open_issues h' = open_issues h + Z.b2z (issue_is_open issue).
Proof.
  unfold health_step, issue_is_open, getitem. intros H.
  destruct (dict_get issue "state") as [st|]; simpl in H; [|discriminate].
  destruct (is_open st).
  - repeat bind_step H; injection H as <-; reflexivity.
  - injection H as <-. simpl. lia.
Qed.

Lemma health_loop_open (t : Z) (issues_list : list pydict) (h h' : IssueHealth) :
  for_each (health_step fromisoformat t) issues_list h = Ok h' ->
  open_issues h'
  = open_issues h + Z.of_nat (List.length (filter issue_is_open issues_list)).
Proof.
  revert h. induction issues_list as [|i rest IH]; intros h H; simpl in H.
  - injection H as <-. simpl. lia.
  - bind_step H. apply health_step_open in E. apply IH in H.
    rewrite H, E. simpl. destruct (issue_is_open i); simpl; lia.
Qed.

(** X16: [open_issues] is the number of issues of the list whose state is
    ["open"], at most the number of issues. *)
Theorem open_issues_counted :
  forall (now : Z) (issues_list : list pydict) (h : IssueHealth),
    analyze_issue_health fromisoformat now issues_list = Ok h ->
    open_issues h = Z.of_nat (List.length (filter issue_is_open issues_list))
    /\ open_issues h <= Z.of_nat (List.length issues_list).
Proof.
  intros now issues_list h H. apply health_loop_open in H. simpl in H.
  split; [exact H|]. rewrite H.
  apply Nat2Z.inj_le, filter_length_le.
Qed.

(** X17: The result does not depend on the order of the issues. *)
Theorem issue_health_any_order :
  forall (now : Z) (issues_list reordered : list pydict) (h : IssueHealth),
    Permutation issues_list reordered ->
    analyze_issue_health fromisoformat now issues_list = Ok h ->
    analyze_issue_health fromisoformat now reordered = Ok h.
Proof.
  intros now issues_list reordered h P. unfold analyze_issue_health.
  apply (for_each_permutation _
           (fun acc x y r => health_step_commute fromisoformat (now - days 90) acc r x y)
           _ _ P).
Qed.

Lemma has_bug_label_plain (labels : list json) :
  Forall plain_label labels -> has_bug_label labels = Ok false.
Proof.
  induction 1 as [|l rest (d & s & -> & Hn & Hb) _ IH]; simpl; auto.
  unfold getitem. rewrite Hn. simpl. now rewrite Hb.
Qed.

(** X18: The search of the labels stops at the first one whose name contains
    [bug] in any mix of cases: the labels after it are not read, whatever
    they are; without such a label the issue is not a bug. *)
Theorem bug_label_search :
  forall (before after : list json) (d : pydict) (a u b : string),
    Forall plain_label before ->
    dict_get d "name" = Some (JStr (a ++ u ++ b)) ->
    lower u = "bug" ->
    has_bug_label (before ++ JObj d :: after) = Ok true
    /\ has_bug_label before = Ok false.
Proof.
  intros before after d a u b Hp Hn Hu. split; [|now apply has_bug_label_plain].
  induction Hp as [|l rest (d' & s & -> & Hn' & Hb) _ IH]; simpl.
  - unfold getitem. rewrite Hn. simpl.
    rewrite !lower_app, Hu, contains_later; auto using contains_here.
  - unfold getitem. rewrite Hn'. simpl. rewrite Hb. exact IH.
Qed.

(** X19: One more open issue, last updated at [tu] and whose labels are searched
    with the result [bug], adds 1 to [open_issues], 1 to [stale_issues]
    exactly when [tu] is strictly before [now] minus 90 days, and 1 to
    [bug_issues] exactly when [bug] holds. *)
Theorem open_issue_counted :
  forall (now : Z) (rest : list pydict) (issue : pydict) (h : IssueHealth)
         (tu : Z) (ls : json) (labels : list json) (bug : bool),
    analyze_issue_health fromisoformat now rest = Ok h ->
    dict_get issue "state" = Some (JStr "open") ->
    dated fromisoformat issue "updated_at" tu ->
    dict_get issue "labels" = Some ls ->
    iterate ls = Ok labels ->
    has_bug_label labels = Ok bug ->
    analyze_issue_health fromisoformat now (issue :: rest)
    = Ok (mkIssueHealth (open_issues h + 1)
            (stale_issues h + Z.b2z (tu <? now - days 90))
            (bug_issues h + Z.b2z bug)).
Proof.
  intros now rest issue h tu ls labels bug H Hst (s & Hs & Ps) Hl Hi Hb.
  unfold analyze_issue_health in *. cbn [for_each].
  assert (S : health_step fromisoformat (now - days 90) (mkIssueHealth 0 0 0) issue
              = Ok (mkIssueHealth 1 (Z.b2z (tu <? now - days 90)) (Z.b2z bug))).
  { unfold health_step, getitem, timestamp, parse_iso. rewrite Hst. simpl.
    rewrite Hs. simpl. rewrite Ps. simpl. rewrite Hl. simpl. rewrite Hi. simpl.
    rewrite Hb. simpl.
    destruct (tu <? now - days 90), bug; reflexivity. }
  rewrite S. cbn [bind]. rewrite health_loop_shift, H. cbn [bind].
  unfold add_health. cbn [open_issues stale_issues bug_issues].
  f_equal. f_equal; lia.
Qed.

End HealthFacts.

(** ** format_contributors *)

Lemma contributor_loop (contribs : list pydict) (acc : list Contributor) :
  Forall wf_contributor contribs ->
  for_each contributor_step contribs acc = Ok (acc ++ map contributor_of contribs).
Proof.
  intros H. revert acc.
  induction H as [|c rest (s & n & Hs & Hn) _ IH]; intros acc; simpl.
  - now rewrite app_nil_r.
  - unfold contributor_step at 1, getitem. rewrite Hs, Hn. simpl.
    rewrite IH, <- app_assoc. unfold contributor_of at 2. now rewrite Hs, Hn.
Qed.

(** X20: When the first five records are well formed the output is their
    projection, in the order of the input: five entries or as many as the
    input has; the records after the fifth are not read, whatever they
    are. *)
Theorem top_five_contributors :
  forall contrib_data extra : list pydict,
    Forall wf_contributor (firstn 5 contrib_data) ->
    format_contributors contrib_data
    = Ok (map contributor_of (firstn 5 contrib_data))
    /\ List.length (map contributor_of (firstn 5 contrib_data))
       = Nat.min 5 (List.length contrib_data)
    /\ ((5 <= List.length contrib_data)%nat ->
        format_contributors (contrib_data ++ extra)
        = Ok (map contributor_of (firstn 5 contrib_data))).
Proof.
  intros contrib_data extra H.
  assert (F : format_contributors contrib_data
              = Ok (map contributor_of (firstn 5 contrib_data))).
  { unfold format_contributors. now rewrite contributor_loop. }
  split; [exact F|]. split.
  - now rewrite length_map, length_firstn.
  - intros L. rewrite <- F. unfold format_contributors.
    rewrite firstn_app.
    replace (5 - List.length contrib_data)%nat with 0%nat by lia.
    simpl. now rewrite app_nil_r.
Qed.

(** ** calculate_health_score *)

Section MoreNumbers.
Local Open Scope Q_scope.

Lemma ratio_mono (a a' b : Z) :
  (a <= a')%Z -> (0 < b)%Z -> inject_Z a / inject_Z b <= inject_Z a' / inject_Z b.
Proof.
  intros Ha Hb. unfold Qdiv. apply Qmult_le_compat_r.
  - now rewrite <- Zle_Qle.
  - apply Qinv_le_0_compat. rewrite Zlt_Qlt in Hb.
    change (inject_Z 0) with 0 in Hb. lra.
Qed.

Lemma float_lt_le_trans (x y z : pyfloat) :
  float_le x y = true -> float_lt y z = true -> float_lt x z = true.
Proof.
  destruct x as [p|[|]|], y as [q|[|]|], z as [r|[|]|]; simpl;
    try discriminate; auto.
  intros H1 H2. apply Qle_bool_iff in H1. apply Qltb_true in H2.
  apply Qltb_true. lra.
Qed.

Lemma within_le (a b : Z) (x y : pyfloat) :
  le_within a b x y -> within a b x /\ within a b y.
Proof.
  intros (p & q & -> & -> & L & M & U).
  split; eexists; (split; [reflexivity|]); split; lra.
Qed.

Lemma le_within_refl (a b : Z) (x : pyfloat) : within a b x -> le_within a b x x.
Proof.
  intros (p & -> & L & U). exists p, p. repeat split; auto. apply Qle_refl.
Qed.

(** Subtraction is monotone in its first operand and antitone in the
    second. *)
Lemma float_sub_le (a b c d : Z) (x x' y y' : pyfloat) :
  le_within a b x' x -> le_within c d y y' ->
  (Z.abs a <= 1000)%Z -> (Z.abs b <= 1000)%Z ->
  (Z.abs c <= 1000)%Z -> (Z.abs d <= 1000)%Z ->
  le_within (a - d) (b - c) (float_sub x' y') (float_sub x y).
Proof.
  intros (p' & p & -> & -> & Lp & Mp & Up) (q & q' & -> & -> & Lq & Mq & Uq)
         A B C D.
  unfold float_sub.
  destruct (to_float_within (a - d) (b - c) (p' - q')) as [F' W'];
    try (apply small_int; lia).
  { unfold Z.sub. rewrite inject_Z_plus, inject_Z_opp. lra. }
  { unfold Z.sub. rewrite inject_Z_plus, inject_Z_opp. lra. }
  destruct (to_float_within (a - d) (b - c) (p - q)) as [F W];
    try (apply small_int; lia).
  { unfold Z.sub. rewrite inject_Z_plus, inject_Z_opp. lra. }
  { unfold Z.sub. rewrite inject_Z_plus, inject_Z_opp. lra. }
  rewrite F, F' in *.
  destruct W' as (r' & [= <-] & L' & _). destruct W as (r & [= <-] & _ & U).
  eexists. eexists. split; [reflexivity|]. split; [reflexivity|].
  split; [exact L'|]. split; [|exact U].
  apply rnd64_mono. lra.
Qed.

Lemma float_mul_le (x x' : pyfloat) :
  le_within 0 1 x x' ->
  le_within 0 20 (float_mul x (Finite 20)) (float_mul x' (Finite 20)).
Proof.
  intros (p & p' & -> & -> & L & M & U). unfold float_mul.
  change (inject_Z 0) with 0 in L. change (inject_Z 1) with 1 in U.
  destruct (to_float_within 0 20 (p * 20)) as [F W]; try (simpl; lia).
  { change (inject_Z 0) with 0. lra. }
  { change (inject_Z 20) with 20. lra. }
  destruct (to_float_within 0 20 (p' * 20)) as [F' W']; try (simpl; lia).
  { change (inject_Z 0) with 0. lra. }
  { change (inject_Z 20) with 20. lra. }
  rewrite F, F' in *.
  destruct W as (r & [= <-] & L1 & _). destruct W' as (r' & [= <-] & _ & U1).
  eexists. eexists. split; [reflexivity|]. split; [reflexivity|].
  split; [exact L1|]. split; [|exact U1].
  apply rnd64_mono. lra.
Qed.

Lemma true_div_le (a a' b : Z) :
  (0 <= a)%Z -> (a <= a')%Z -> (a' <= b)%Z -> (0 < b)%Z ->
  exists r r' : pyfloat,
    true_div a b = Ok r /\ true_div a' b = Ok r' /\ le_within 0 1 r r'.
Proof.
  intros H0 H1 H2 Hb.
  destruct (true_div_within a b) as [E W]; try lia.
  destruct (true_div_within a' b) as [E' W']; try lia.
  rewrite E, E'. eexists. eexists. split; [reflexivity|]. split; [reflexivity|].
  destruct W as (r & [= <-] & L & _). destruct W' as (r' & [= <-] & _ & U).
  eexists. eexists. split; [reflexivity|]. split; [reflexivity|].
  split; [exact L|]. split; [|exact U].
  apply rnd64_mono. now apply ratio_mono.
Qed.

Lemma minus_ten_le (a b : Z) (x x' : pyfloat) (c : bool) :
  le_within a b x' x ->
  (Z.abs a <= 900)%Z -> (Z.abs b <= 900)%Z ->
  le_within (a - 10) b
    (if c then float_sub x' (Finite 10) else x')
    (if c then float_sub x (Finite 10) else x).
Proof.
  intros W A B. destruct c.
  - assert (T : le_within 10 10 (Finite 10) (Finite 10)).
    { exists 10, 10. repeat split; apply Qle_refl. }
    assert (S : le_within (a - 10) (b - 10)
                  (float_sub x' (Finite 10)) (float_sub x (Finite 10)))
      by (apply (float_sub_le a b 10 10); auto; lia).
    destruct S as (p' & p & -> & -> & L & M & U).
    exists p', p. repeat split; auto.
    unfold Z.sub in U. rewrite inject_Z_plus in U.
    change (inject_Z (- (10))) with (-10) in U. lra.
  - destruct W as (p' & p & -> & -> & L & M & U).
    exists p', p. repeat split; auto.
    unfold Z.sub. rewrite inject_Z_plus.
    change (inject_Z (- (10))) with (-10). lra.
Qed.

(** The rounding to two decimals and the floor at 0 are monotone on the
    floats of [0, 100]. *)
Lemma final_score_le (x x' : pyfloat) :
  le_within 0 100 x' x ->
  exists s s' : Q,
    py_max0 (py_round2 x') = Finite s' /\ py_max0 (py_round2 x) = Finite s
    /\ s' <= s.
Proof.
  intros (p' & p & -> & -> & L & M & U).
  change (inject_Z 0) with 0 in L. change (inject_Z 100) with 100 in U.
  destruct (py_round2_value p') as (K' & R' & _); try lra.
  destruct (py_round2_value p) as (K & R & _); try lra.
  rewrite R, R', !py_max0_hundredth by lia.
  eexists. eexists. split; [reflexivity|]. split; [reflexivity|].
  apply rnd64_mono.
  assert (Mk : (round_half_even (p' * 100) <= round_half_even (p * 100))%Z)
    by (apply round_half_even_mono; lra).
  unfold Qle. simpl. lia.
Qed.

End MoreNumbers.

Section MoreScoreFacts.

Variable fromisoformat : string -> option datetime.
Local Open Scope Q_scope.

(** X21: The push penalty is 0 or 10, and it is 0 exactly when [pushed_at] is a
    string that parses to a naive time not older than [now] minus 90 days:
    a missing, null, ill-typed, unparseable or zone-aware value costs the
    10 points of a stale push and raises nothing. *)
Theorem push_penalty_zero_iff :
  forall (now : Z) (repo_data : pydict),
    (push_penalty fromisoformat now repo_data = 0
     \/ push_penalty fromisoformat now repo_data = 10)
    /\ (push_penalty fromisoformat now repo_data = 0
        <-> exists t : Z,
              dated fromisoformat repo_data "pushed_at" t
              /\ (now - days 90 <= t)%Z).
Proof.
  intros now repo_data. split; [apply push_penalty_cases|].
  unfold push_penalty, dated, getitem, timestamp, parse_iso.
  remember (now - days 90)%Z as thr eqn:Hthr. clear Hthr.
  destruct (dict_get repo_data "pushed_at") as [p|]; simpl.
  - destruct p; simpl;
      try (split; [intros D; discriminate D | intros (t & (s0 & [=] & _) & _)]).
    destruct (fromisoformat (remove_Z s)) as [[t|t]|] eqn:P; simpl.
    + destruct (t <? thr)%Z eqn:L; simpl.
      * split; [intros D; discriminate D|].
        intros (t' & (s' & [= <-] & P') & Ht). rewrite P in P'.
        injection P' as <-. lia.
      * split; auto. intros _. exists t. split; [eauto | lia].
    + split; [intros D; discriminate D|].
      intros (t' & (s' & [= <-] & P') & _). congruence.
    + split; [intros D; discriminate D|].
      intros (t' & (s' & [= <-] & P') & _). congruence.
  - split; [intros D; discriminate D|]. intros (t & (s & [=] & _) & _).
Qed.

Lemma commit_penalty_mono (a a' : ActivityTrends) :
  float_le (commits_per_week_avg a') (commits_per_week_avg a) = true ->
  commit_penalty a <= commit_penalty a'.
Proof.
  intros H. unfold commit_penalty.
  destruct (float_lt (commits_per_week_avg a) (Finite 1)) eqn:A1.
  - rewrite (float_lt_le_trans _ _ _ H A1). apply Qle_refl.
  - destruct (float_lt (commits_per_week_avg a) (Finite 5)) eqn:A5.
    + rewrite (float_lt_le_trans _ _ _ H A5).
      destruct (float_lt (commits_per_week_avg a') (Finite 1)); lra.
    + destruct (float_lt (commits_per_week_avg a') (Finite 1));
        [|destruct (float_lt (commits_per_week_avg a') (Finite 5))]; lra.
Qed.

Lemma first_penalties_le (now : Z) (repo_data : pydict) (a a' : ActivityTrends) :
  commit_penalty a <= commit_penalty a' ->
  le_within 70 100
    (subtract (subtract (Finite 100) (push_penalty fromisoformat now repo_data))
       (commit_penalty a'))
    (subtract (subtract (Finite 100) (push_penalty fromisoformat now repo_data))
       (commit_penalty a)).
Proof.
  destruct (push_penalty_cases fromisoformat now repo_data) as [P|P]; rewrite P;
    destruct (commit_penalty_cases a) as [C|[C|C]]; rewrite C;
    destruct (commit_penalty_cases a') as [C'|[C'|C']]; rewrite C'; intros H;
    first [ exfalso; lra
          | eexists; eexists;
            split; [vm_compute; reflexivity|];
            split; [vm_compute; reflexivity|];
            split; [vm_compute; discriminate|];
            split; vm_compute; discriminate ].
Qed.

Lemma issue_penalties_le (i i' : IssueHealth) (s s' : pyfloat) :
  open_issues i' = open_issues i ->
  (stale_issues i <= stale_issues i')%Z ->
  (bug_issues i <= bug_issues i')%Z ->
  health_invariant i -> health_invariant i' ->
  le_within 70 100 s' s ->
  exists r r' : pyfloat,
    issue_penalties i s = Ok r /\ issue_penalties i' s' = Ok r'
    /\ le_within 30 100 r' r.
Proof.
  intros Ho Hs Hb [Is Ib] [Is' Ib'] W. unfold issue_penalties. rewrite Ho in *.
  destruct (open_issues i >? 0)%Z eqn:E.
  - assert (P : (0 < open_issues i)%Z) by lia.
    destruct (true_div_le (stale_issues i) (stale_issues i') (open_issues i))
      as (x & x' & -> & -> & Wx); try lia.
    destruct (true_div_le (bug_issues i) (bug_issues i') (open_issues i))
      as (y & y' & -> & -> & Wy); try lia.
    cbn [bind]. eexists. eexists. split; [reflexivity|]. split; [reflexivity|].
    apply float_mul_le in Wx. apply float_mul_le in Wy.
    pose proof (float_sub_le 70 100 0 20 _ _ _ _ W Wx) as W1.
    assert (W1' : le_within (70 - 20) (100 - 0)
                    (float_sub s' (float_mul x' (Finite 20)))
                    (float_sub s (float_mul x (Finite 20))))
      by (apply W1; lia).
    pose proof (float_sub_le _ _ 0 20 _ _ _ _ W1' Wy) as W2.
    apply W2; lia.
  - eexists. eexists. split; [reflexivity|]. split; [reflexivity|].
    destruct W as (p' & p & -> & -> & L & M & U).
    exists p', p. repeat split; auto.
    change (inject_Z 30) with 30. change (inject_Z 70) with 70 in L. lra.
Qed.

(** X22: With counters in the invariant, more stale or bug-labelled issues for
    the same number of open issues, or fewer commits per week, never give a
    higher score. *)
Theorem health_score_monotone :
  forall (now : Z) (repo_data : pydict) (activity activity' : ActivityTrends)
         (issues issues' : IssueHealth) (score : pyfloat),
    open_issues issues' = open_issues issues ->
    (stale_issues issues <= stale_issues issues')%Z ->
    (bug_issues issues <= bug_issues issues')%Z ->
    health_invariant issues -> health_invariant issues' ->
    float_le (commits_per_week_avg activity') (commits_per_week_avg activity)
    = true ->
    calculate_health_score fromisoformat now repo_data activity issues = Ok score ->
    exists score' : pyfloat,
      calculate_health_score fromisoformat now repo_data activity' issues'
      = Ok score'
      /\ float_le score' score = true.
Proof.
  intros now repo_data activity activity' issues issues' score Ho Hs Hb Hi Hi' Hc.
  unfold calculate_health_score, penalized_score.
  pose proof (first_penalties_le now repo_data _ _ (commit_penalty_mono _ _ Hc))
    as W0.
  destruct (issue_penalties_le issues issues' _ _ Ho Hs Hb Hi Hi' W0)
    as (r & r' & -> & -> & W1).
  cbn [bind].
  destruct (number (get_default repo_data "stargazers_count" (JInt 0)))
    as [stars|]; cbn [bind]; [|discriminate].
  intros [= <-].
  apply (minus_ten_le 30 100 _ _ (num_lt stars 100)) in W1; try (simpl; lia).
  apply (minus_ten_le (30 - 10) 100 _ _
           (negb (truthy (get_default repo_data "license" JNull)))) in W1;
    try (simpl; lia).
  apply (minus_ten_le (30 - 10 - 10) 100 _ _
           (negb (truthy (get_default repo_data "description" JNull)))) in W1;
    try (simpl; lia).
  destruct (final_score_le _ _ W1) as (s & s' & E' & E & L).
  eexists. split; [reflexivity|]. rewrite E, E'. simpl.
  now apply Qle_bool_iff.
Qed.

(** X23: The scorer raises nothing but [OverflowError], from a ratio too large
    for a float, and [TypeError], from a star count that is no number. With
    counters in the invariant, or without open issues, it returns a score
    exactly when the star count is absent or a number, and raises
    [TypeError] otherwise. *)
Theorem health_score_exceptions :
  forall (now : Z) (repo_data : pydict) (activity : ActivityTrends)
         (issues : IssueHealth),
    (forall e : exn,
        calculate_health_score fromisoformat now repo_data activity issues
        = Raise e ->
        e = OverflowError \/ e = TypeError)
    /\ (calculate_health_score fromisoformat now repo_data activity issues
        = Raise OverflowError ->
        (0 < open_issues issues)%Z /\ ~ health_invariant issues)
    /\ (health_invariant issues \/ (open_issues issues <= 0)%Z ->
        (wf_stars repo_data
         /\ exists score : pyfloat,
              calculate_health_score fromisoformat now repo_data activity issues
              = Ok score)
        \/ (~ wf_stars repo_data
            /\ calculate_health_score fromisoformat now repo_data activity issues
               = Raise TypeError)).
Proof.
  intros now repo_data activity issues.
  unfold calculate_health_score, penalized_score, wf_stars.
  set (s0 := subtract
               (subtract (Finite 100) (push_penalty fromisoformat now repo_data))
               (commit_penalty activity)).
  assert (W0 : within 70 100 s0) by apply first_penalties_within.
  split; [|split].
  - intros e. destruct (issue_penalties issues s0) as [s|e1] eqn:E1; cbn [bind].
    + destruct (number (get_default repo_data "stargazers_count" (JInt 0)))
        as [stars|e2] eqn:E2; cbn [bind]; [discriminate|].
      intros [= <-]. right. exact (number_raises _ _ E2).
    + intros [= <-]. left. exact (issue_penalties_raises _ _ _ E1).
  - destruct (issue_penalties issues s0) as [s|e1] eqn:E1; cbn [bind].
    + destruct (number (get_default repo_data "stargazers_count" (JInt 0)))
        as [stars|e2] eqn:E2; cbn [bind]; [discriminate|].
      intros [= ->]. apply number_raises in E2. discriminate.
    + intros _. split.
      * unfold issue_penalties in E1.
        destruct (open_issues issues >? 0)%Z eqn:G; [lia | discriminate].
      * intros Hi.
        destruct (issue_penalties_within issues s0 70 100 Hi W0) as (s & Hs & _);
          try (simpl; lia).
        congruence.
  - intros H.
    assert (D : exists s : pyfloat, issue_penalties issues s0 = Ok s).
    { destruct H as [Hi|Ho].
      - destruct (issue_penalties_within issues s0 70 100 Hi W0) as (s & Hs & _);
          try (simpl; lia).
        eauto.
      - unfold issue_penalties.
        assert (G : (open_issues issues >? 0)%Z = false) by lia.
        rewrite G. eauto. }
    destruct D as (s & ->). cbn [bind].
    destruct (number (get_default repo_data "stargazers_count" (JInt 0)))
      as [stars|e] eqn:E; cbn [bind].
    + left. split; eauto.
    + right. apply number_raises in E as E'. subst e. split; auto.
      intros (q & Hq). discriminate.
Qed.

(** X24: Without open issues the score is one of 40, 50, 60, 70, 80, 90, 100. *)
Theorem score_without_open_issues :
  forall (now : Z) (repo_data : pydict) (activity : ActivityTrends)
         (issues : IssueHealth) (score : pyfloat),
    (open_issues issues <= 0)%Z ->
    calculate_health_score fromisoformat now repo_data activity issues = Ok score ->
    exists k : Z, (4 <= k <= 10)%Z /\ score = Finite (inject_Z (10 * k)).
Proof.
  intros now repo_data activity issues score Ho.
  unfold calculate_health_score, penalized_score, issue_penalties.
  assert (G : (open_issues issues >? 0)%Z = false) by lia.
  rewrite G. cbn [bind]. intros H.
  destruct (number (get_default repo_data "stargazers_count" (JInt 0)))
    as [stars|]; cbn [bind] in H; [|discriminate].
  injection H as <-.
  destruct (push_penalty_cases fromisoformat now repo_data) as [P|P]; rewrite P;
    destruct (commit_penalty_cases activity) as [C|[C|C]]; rewrite C;
    destruct (num_lt stars 100);
    destruct (negb (truthy (get_default repo_data "license" JNull)));
    destruct (negb (truthy (get_default repo_data "description" JNull)));
    first [ exists 4%Z; split; [lia | vm_compute; reflexivity]
          | exists 5%Z; split; [lia | vm_compute; reflexivity]
          | exists 6%Z; split; [lia | vm_compute; reflexivity]
          | exists 7%Z; split; [lia | vm_compute; reflexivity]
          | exists 8%Z; split; [lia | vm_compute; reflexivity]
          | exists 9%Z; split; [lia | vm_compute; reflexivity]
          | exists 10%Z; split; [lia | vm_compute; reflexivity] ].
Qed.

End MoreScoreFacts.

(** ** get_repo_name_from_url *)

Lemma drop_prefix_some (p s r : string) :
  drop_prefix p s = Some r -> s = (p ++ r)%string.
Proof.
  revert s. induction p as [|a p IH]; intros s; simpl.
  - now intros [= ->].
  - destruct s as [|b s]; [discriminate|].
    destruct (a =? b)%char eqn:E; [|discriminate].
    apply Ascii.eqb_eq in E. subst b. intros H. now rewrite (IH _ H).
Qed.

Lemma drop_prefix_none (p s : string) :
  prefix p s = false -> drop_prefix p s = None.
Proof.
  revert s. induction p as [|a p IH]; intros s H.
  - destruct s; discriminate.
  - destruct s as [|b s]; auto. simpl in *.
    destruct (ascii_dec a b) as [->|N].
    + rewrite Ascii.eqb_refl. now apply IH.
    + apply Ascii.eqb_neq in N. now rewrite N.
Qed.

Lemma match_repo_here_some (s g : string) :
  match_repo_here s = Some g ->
  exists owner repo rest : string,
    s = ("github.com/" ++ owner ++ String "/" (repo ++ rest))%string
    /\ g = (owner ++ String "/" repo)%string
    /\ name_token owner = true /\ name_token repo = true
    /\ stops is_name_char rest = true.
Proof.
  unfold match_repo_here.
  destruct (drop_prefix "github.com/" s) as [r|] eqn:D; [|discriminate].
  apply drop_prefix_some in D.
  pose proof (span_fst_forall is_name_char r) as Fo.
  pose proof (span_join is_name_char r) as Jo.
  destruct (span is_name_char r) as [owner r1]. simpl in Fo, Jo.
  destruct owner as [|o owner]; [discriminate|].
  destruct r1 as [|c r2]; [discriminate|].
  destruct (c =? "/")%char eqn:E; [|discriminate].
  apply Ascii.eqb_eq in E. subst c.
  pose proof (span_fst_forall is_name_char r2) as Fr.
  pose proof (span_join is_name_char r2) as Jr.
  pose proof (span_snd_stops is_name_char r2) as Sr.
  destruct (span is_name_char r2) as [repo rest]. simpl in Fr, Jr, Sr |- *.
  destruct repo as [|p repo]; [discriminate|].
  intros [= <-]. exists (String o owner), (String p repo), rest.
  unfold name_token. rewrite Fo, Fr. simpl.
  repeat split; auto. rewrite D, <- Jo, <- Jr. reflexivity.
Qed.

Lemma drop_prefix_app (p r : string) : drop_prefix p (p ++ r) = Some r.
Proof.
  induction p as [|a p IH]; simpl; auto. now rewrite Ascii.eqb_refl.
Qed.

Lemma match_repo_here_canonical (owner repo rest : string) :
  name_token owner = true -> name_token repo = true ->
  stops is_name_char rest = true ->
  match_repo_here ("github.com/" ++ owner ++ String "/" (repo ++ rest))
  = Some (owner ++ String "/" repo)%string.
Proof.
  intros Ho Hr Hs. unfold match_repo_here. rewrite drop_prefix_app.
  apply andb_true_iff in Ho as [No Fo]. apply andb_true_iff in Hr as [Nr Fr].
  rewrite (span_app is_name_char owner (String "/" (repo ++ rest)) Fo eq_refl).
  destruct owner as [|o owner]; [discriminate|].
  rewrite Ascii.eqb_refl, (span_app is_name_char repo rest Fr Hs). simpl.
  destruct repo; [discriminate | reflexivity].
Qed.

Lemma match_repo_here_head (c : ascii) (s : string) :
  (c =? "g")%char = false -> match_repo_here (String c s) = None.
Proof.
  intros H. unfold match_repo_here.
  change (drop_prefix "github.com/" (String c s))
    with (if ("g" =? c)%char then drop_prefix "ithub.com/" s else None).
  now rewrite Ascii.eqb_sym, H.
Qed.

Lemma re_search_repo_skip (pre s : string) :
  str_forallb not_g pre = true ->
  re_search_repo (pre ++ s) = re_search_repo s.
Proof.
  induction pre as [|c pre IH]; auto.
  intros H. cbn [str_forallb] in H. apply andb_true_iff in H as [Hc Hp].
  unfold not_g in Hc. apply negb_true_iff in Hc.
  cbn [append re_search_repo]. rewrite (match_repo_here_head c _ Hc). auto.
Qed.

Lemma re_search_repo_here (s g : string) :
  match_repo_here s = Some g -> re_search_repo s = Some g.
Proof. intros H. destruct s; cbn [re_search_repo]; now rewrite H. Qed.

(** X25: The name returned is [owner/repo] for two non-empty runs of letters,
    digits, [_] and [-] that stand in the URL right after [github.com/],
    the second one taken to its end: the result has exactly one [/] and
    none of what follows the repository name. *)
Theorem repo_name_shape :
  forall url g : string,
    get_repo_name_from_url url = Ok g ->
    exists before owner repo rest : string,
      url = (before ++ "github.com/" ++ owner ++ String "/" (repo ++ rest))%string
      /\ g = (owner ++ String "/" repo)%string
      /\ name_token owner = true /\ name_token repo = true
      /\ stops is_name_char rest = true.
Proof.
  intros url g. unfold get_repo_name_from_url.
  destruct (re_search_repo url) as [g'|] eqn:E; [|discriminate].
  intros [= <-]. revert E.
  induction url as [|c url IH]; cbn [re_search_repo].
  - vm_compute. discriminate.
  - destruct (match_repo_here (String c url)) eqn:M.
    + intros [= <-]. apply match_repo_here_some in M
        as (o & r & rest & Hs & Hg & Ho & Hr & Hst).
      exists EmptyString, o, r, rest. auto.
    + intros H. destruct (IH H) as (b & o & r & rest & Hs & Hg & Ho & Hr & Hst).
      exists (String c b), o, r, rest. simpl. rewrite Hs. auto.
Qed.

(** X26: A URL that has [github.com/owner/repo] after a prefix without the
    letter [g] ([https://], [http://www.]) gives [owner/repo], whatever
    follows the repository name ([.git], a path, a query). *)
Theorem repo_name_of_url :
  forall before owner repo rest : string,
    str_forallb not_g before = true ->
    name_token owner = true -> name_token repo = true ->
    stops is_name_char rest = true ->
    get_repo_name_from_url
      (before ++ "github.com/" ++ owner ++ String "/" (repo ++ rest))
    = Ok (owner ++ String "/" repo)%string.
Proof.
  intros before owner repo rest Hb Ho Hr Hs. unfold get_repo_name_from_url.
  rewrite (re_search_repo_skip _ _ Hb).
  now rewrite (re_search_repo_here _ _
                 (match_repo_here_canonical owner repo rest Ho Hr Hs)).
Qed.

(** X27: A URL that does not contain [github.com/] raises [ValueError]. *)
Theorem repo_name_needs_host :
  forall url : string,
    contains "github.com/" url = false ->
    get_repo_name_from_url url = Raise ValueError.
Proof.
  intros url H. unfold get_repo_name_from_url.
  assert (N : re_search_repo url = None); [|now rewrite N].
  induction url as [|c url IH]; simpl in *.
  - reflexivity.
  - apply orb_false_iff in H as [H1 H2].
    unfold match_repo_here.
    rewrite (drop_prefix_none "github.com/" (String c url)); auto.
Qed.

(** ** Concrete runs of the further properties *)

Lemma issue_counts_bounded_witness :
  0 <= 1 <= Z.of_nat (List.length [stale_bug_issue; closed_issue])
  /\ 0 <= 1 <= Z.of_nat (List.length [stale_bug_issue; closed_issue]).
Proof.
  apply (issue_counts_bounded iso_basic june_2024 sample_weeks
           [stale_bug_issue; closed_issue] (mkActivityTrends (Finite 2) 1 1)).
  vm_compute. reflexivity.
Defined.

(** An issue created exactly 30 days ago is not counted as new. *)
Lemma issue_in_window_witness :
  Iso.ticks 2024 5 2 0 0 0 = june_2024 - days 30
  /\ calculate_activity_trends iso_basic june_2024 [] [boundary_issue]
     = Ok (mkActivityTrends (Finite 0) 0 0).
Proof.
  split; [reflexivity|].
  apply (issue_in_window iso_basic june_2024 [] [] boundary_issue
           (mkActivityTrends (Finite 0) 0 0) (Iso.ticks 2024 5 2 0 0 0) None).
  - reflexivity.
  - exists "2024-05-02T00:00:00Z". split; reflexivity.
  - exists JNull. split; reflexivity.
Defined.

Lemma activity_trends_any_order_witness :
  calculate_activity_trends iso_basic june_2024 sample_weeks
    [closed_issue; stale_bug_issue]
  = Ok (mkActivityTrends (Finite 2) 1 1).
Proof.
  apply (activity_trends_any_order iso_basic june_2024 sample_weeks
           [stale_bug_issue; closed_issue] [closed_issue; stale_bug_issue]).
  - apply perm_swap.
  - vm_compute. reflexivity.
Defined.

Lemma open_issues_counted_witness :
  1 = Z.of_nat (List.length (filter issue_is_open [stale_bug_issue; closed_issue]))
  /\ 1 <= Z.of_nat (List.length [stale_bug_issue; closed_issue]).
Proof.
  apply (open_issues_counted iso_basic june_2024 [stale_bug_issue; closed_issue]
           (mkIssueHealth 1 1 1)).
  vm_compute. reflexivity.
Defined.

Lemma issue_health_any_order_witness :
  analyze_issue_health iso_basic june_2024 [closed_issue; stale_bug_issue]
  = Ok (mkIssueHealth 1 1 1).
Proof.
  apply (issue_health_any_order iso_basic june_2024
           [stale_bug_issue; closed_issue] [closed_issue; stale_bug_issue]).
  - apply perm_swap.
  - vm_compute. reflexivity.
Defined.

(** The label after the match is [null], and is not read. *)
Lemma bug_label_search_witness :
  has_bug_label mixed_labels = Ok true
  /\ has_bug_label [JObj [("name", JStr "enhancement")]] = Ok false.
Proof.
  apply (bug_label_search [JObj [("name", JStr "enhancement")]] [JNull]
           [("name", JStr "type: BUG report")] "type: " "BUG" " report").
  - constructor; [|constructor].
    exists [("name", JStr "enhancement")], "enhancement".
    repeat split; reflexivity.
  - reflexivity.
  - reflexivity.
Defined.

Lemma open_issue_counted_witness :
  analyze_issue_health iso_basic june_2024 [stale_bug_issue; closed_issue]
  = Ok (mkIssueHealth 1 1 1).
Proof.
  apply (open_issue_counted iso_basic june_2024 [closed_issue] stale_bug_issue
           (mkIssueHealth 0 0 0) (Iso.ticks 2024 1 1 0 0 0)
           (JArr [JObj [("name", JStr "Bug: crash")]])
           [JObj [("name", JStr "Bug: crash")]] true).
  - reflexivity.
  - reflexivity.
  - exists "2024-01-01T00:00:00Z". split; reflexivity.
  - reflexivity.
  - reflexivity.
  - reflexivity.
Defined.

Lemma five_contributors_wf : Forall wf_contributor (firstn 5 five_contributors).
Proof.
  repeat constructor.
  - exists "ada", 90. split; reflexivity.
  - exists "bob", 70. split; reflexivity.
  - exists "cy", 40. split; reflexivity.
  - exists "dee", 12. split; reflexivity.
  - exists "eve", 3. split; reflexivity.
Defined.

(** A sixth record without [login] does not raise. *)
Lemma top_five_contributors_witness :
  format_contributors (five_contributors ++ [anonymous])
  = Ok [mkContributor "ada" 90; mkContributor "bob" 70; mkContributor "cy" 40;
        mkContributor "dee" 12; mkContributor "eve" 3].
Proof.
  destruct (top_five_contributors five_contributors [anonymous]
              five_contributors_wf) as (_ & _ & H).
  apply H. simpl. lia.
Defined.

Lemma health_score_monotone_witness :
  exists score' : pyfloat,
    calculate_health_score iso_basic june_2024 sample_repo idle
      (mkIssueHealth 4 3 2)
    = Ok score'
    /\ float_le score' (Finite 85) = true.
Proof.
  apply (health_score_monotone iso_basic june_2024 sample_repo busy idle
           (mkIssueHealth 4 1 2) (mkIssueHealth 4 3 2) (Finite 85)).
  - reflexivity.
  - simpl. lia.
  - simpl. lia.
  - unfold health_invariant. simpl. lia.
  - unfold health_invariant. simpl. lia.
  - reflexivity.
  - vm_compute. reflexivity.
Defined.

Lemma health_score_exceptions_witness :
  health_invariant (mkIssueHealth 3 1 2)
  /\ ((wf_stars sample_repo
       /\ exists score : pyfloat,
            calculate_health_score iso_basic june_2024 sample_repo busy
              (mkIssueHealth 3 1 2) = Ok score)
      \/ (~ wf_stars sample_repo
          /\ calculate_health_score iso_basic june_2024 sample_repo busy
               (mkIssueHealth 3 1 2) = Raise TypeError)).
Proof.
  assert (I : health_invariant (mkIssueHealth 3 1 2))
    by (unfold health_invariant; simpl; lia).
  split; [exact I|].
  apply (health_score_exceptions iso_basic june_2024 sample_repo busy
           (mkIssueHealth 3 1 2)).
  left. exact I.
Defined.

Lemma score_without_open_issues_witness :
  exists k : Z,
    4 <= k <= 10 /\ Finite 80 = Finite (inject_Z (10 * k)).
Proof.
  apply (score_without_open_issues iso_basic june_2024 sample_repo idle
           (mkIssueHealth 0 0 0) (Finite 80)).
  - simpl. lia.
  - vm_compute. reflexivity.
Defined.

Lemma repo_name_shape_witness :
  exists before owner repo rest : string,
    "https://github.com/psf/requests.git"
    = (before ++ "github.com/" ++ owner ++ String "/" (repo ++ rest))%string
    /\ "psf/requests" = (owner ++ String "/" repo)%string
    /\ name_token owner = true /\ name_token repo = true
    /\ stops is_name_char rest = true.
Proof.
  apply (repo_name_shape "https://github.com/psf/requests.git" "psf/requests").
  reflexivity.
Defined.

Lemma repo_name_of_url_witness :
  get_repo_name_from_url "https://github.com/psf/requests.git"
  = Ok "psf/requests".
Proof.
  apply (repo_name_of_url "https://" "psf" "requests" ".git"); reflexivity.
Defined.

Lemma repo_name_needs_host_witness :
  get_repo_name_from_url "git@gitlab.com:psf/requests" = Raise ValueError.
Proof.
  apply (repo_name_needs_host "git@gitlab.com:psf/requests"). reflexivity.
Defined.
